(** * GRANDMAS grading engine: a shallow embedding of
      [backend/grading/grading_engine.js] and the properties of its
      three handlers ([gradeSubmission], [manualGradeQuestion],
      [calculateFinalGrade]) and of the grading strategies they call.

    Conventions of the embedding.
    - A JavaScript number is an exact rational, or NaN, or a signed
      infinity ([number]).  Binary rounding error and the sign of zero
      are left out; division by zero, NaN propagation and comparisons
      with NaN are kept.  A statement that the rounding of a double
      could turn ([Math.round] next to a half, a comparison within a
      rounding step) says in its hypotheses how far from that it holds.
    - A JSON payload ([correct_answer], [response_data], [options]) is a
      [value].  Objects are association lists in enumeration order and
      without duplicate keys (JSONB normal form); only own properties are
      looked up, so a lookup is the runtime's for every name but those
      of [Object.prototype] ([inherited_name]).
    - Strings are byte strings; [toLowerCase] and [trim] act on ASCII,
      where they are the runtime's ([ascii_only]); the runtime also
      folds the case and strips the white space of the rest of Unicode.
    - [question.metadata] is a record of the hints the engine reads;
      numeric hints are numbers when they are present.
    - The tokenizer, the stemmer, the string-similarity ratio and
      [parseFloat] are supplied by the host ([host]).
    - A table is the list of its rows.  An INTEGER column is a number.
      A DECIMAL column is stored as a number (a column the engine only
      reads is a rational, a column it writes is a [number]) and reaches
      the engine as its text; the text matters where the engine uses
      [+] on it, in the loop of [calculateFinalGrade] over the
      assignments, and there the row carries the text
      ([Sql.select_assignments], [decimal_text]).  Products, quotients
      and comparisons read the text as its number.  A NULL foreign key
      is a key that matches no row.
    - Every [pool.query] may fail: the [world] carries how many queries
      the store still answers, and whether it has refused one.  A query
      that succeeds commits on its own; a failed query and a TypeError
      both unwind to the handler's [catch]. *)

From Stdlib Require Import ZArith NArith QArith Qround Qreduction Qabs List String Ascii
  Bool Lia Lqa Permutation Sorted DecimalString.
Import ListNotations.
Local Open Scope Z_scope.
Set Warnings "-register-all".


(** ** Numbers *)

Module Num.

Inductive number : Type :=
| Fin (q : Q)
| NaN
| Inf (positive : bool).

Definition of_Z (z : Z) : number := Fin (inject_Z z).
Definition of_nat (n : nat) : number := of_Z (Z.of_nat n).
Definition zero : number := of_Z 0.

Definition Qis_zero (q : Q) : bool := (Qnum q =? 0)%Z.
Definition Qis_neg (q : Q) : bool := (Qnum q <? 0)%Z.

(** [a + b] *)
Definition add (a b : number) : number :=
  match a, b with
  | NaN, _ | _, NaN => NaN
  | Fin x, Fin y => Fin (Qred (x + y))
  | Inf p, Inf q => if Bool.eqb p q then Inf p else NaN
  | Inf p, Fin _ | Fin _, Inf p => Inf p
  end.

(** [-a] *)
Definition neg (a : number) : number :=
  match a with
  | Fin x => Fin (Qred (- x))
  | NaN => NaN
  | Inf p => Inf (negb p)
  end.

(** [a - b] *)
Definition sub (a b : number) : number := add a (neg b).

(** [a * b] *)
Definition mul (a b : number) : number :=
  match a, b with
  | NaN, _ | _, NaN => NaN
  | Fin x, Fin y => Fin (Qred (x * y))
  | Inf p, Inf q => Inf (Bool.eqb p q)
  | Inf p, Fin x | Fin x, Inf p =>
      if Qis_zero x then NaN else Inf (if Qis_neg x then negb p else p)
  end.

(** [a / b]; a zero divisor is the positive zero. *)
Definition div (a b : number) : number :=
  match a, b with
  | NaN, _ | _, NaN => NaN
  | Fin x, Fin y =>
      if Qis_zero y
      then (if Qis_zero x then NaN else Inf (negb (Qis_neg x)))
      else Fin (Qred (x / y))
  | Fin _, Inf _ => zero
  | Inf p, Fin y => Inf (if Qis_neg y then negb p else p)
  | Inf _, Inf _ => NaN
  end.

(** [a < b], [a <= b], [a >= b], [a > b]: false as soon as one side is NaN. *)
Definition lt (a b : number) : bool :=
  match a, b with
  | NaN, _ | _, NaN => false
  | Fin x, Fin y => negb (Qle_bool y x)
  | Fin _, Inf p => p
  | Inf p, Fin _ => negb p
  | Inf p, Inf q => negb p && q
  end.

Definition le (a b : number) : bool :=
  match a, b with
  | NaN, _ | _, NaN => false
  | Fin x, Fin y => Qle_bool x y
  | Fin _, Inf p => p
  | Inf p, Fin _ => negb p
  | Inf p, Inf q => negb p || q
  end.

Definition ge (a b : number) : bool := le b a.
Definition gt (a b : number) : bool := lt b a.

(** [a === b] on numbers *)
Definition eqb (a b : number) : bool :=
  match a, b with
  | Fin x, Fin y => Qeq_bool x y
  | Inf p, Inf q => Bool.eqb p q
  | _, _ => false
  end.

(** Truthiness: [0] and [NaN] are falsy. *)
Definition truthy (a : number) : bool :=
  match a with
  | Fin x => negb (Qis_zero x)
  | NaN => false
  | Inf _ => true
  end.

(** [Math.abs(a)] *)
Definition abs (a : number) : number :=
  match a with
  | Fin x => Fin (Qred (Qabs x))
  | NaN => NaN
  | Inf _ => Inf true
  end.

(** [Math.max(a, b)] *)
Definition max (a b : number) : number :=
  match a, b with
  | NaN, _ | _, NaN => NaN
  | _, _ => if le a b then b else a
  end.

(** [Math.round(a)]: the nearest integer, a tie going up. *)
Definition round (a : number) : number :=
  match a with
  | Fin x => of_Z (Qfloor (x + (1 # 2)))
  | _ => a
  end.

(** [Math.round(a * 100) / 100], of the exact product.  The code rounds
    the double [a * 100], which may lie on the other side of a half when
    the exact product is a half or next to it. *)
Definition round2 (a : number) : number :=
  div (round (mul a (of_Z 100))) (of_Z 100).

(** The sum of a list, accumulated from [0] as a running total is. *)
Definition sum (l : list number) : number := fold_left add l zero.

End Num.

Import Num.

(** ** Values *)

Inductive value : Type :=
| VUndef
| VNull
| VBool (b : bool)
| VNum (n : number)
| VStr (s : string)
| VArr (items : list value)
| VObj (fields : list (string * value)).

(** The truth value a condition gives a value. *)
Definition truthy (v : value) : bool :=
  match v with
  | VUndef | VNull => false
  | VBool b => b
  | VNum n => Num.truthy n
  | VStr s => negb (String.eqb s EmptyString)
  | VArr _ | VObj _ => true
  end.

(** [v === true] *)
Definition is_true (v : value) : bool :=
  match v with VBool true => true | _ => false end.

(** [Array.isArray(v)] *)
Definition isArray (v : value) : bool :=
  match v with VArr _ => true | _ => false end.

(** [JSON.stringify(a) === JSON.stringify(b)] for two parsed JSON values:
    the renderings agree exactly when the values have the same shape,
    the same keys in the same order and equal leaves. *)
Fixpoint stringify_eqb (a b : value) : bool :=
  match a, b with
  | VUndef, VUndef => true
  | VNull, VNull => true
  | VBool x, VBool y => Bool.eqb x y
  | VNum x, VNum y => Num.eqb x y
  | VStr x, VStr y => String.eqb x y
  | VArr xs, VArr ys =>
      (fix items (xs ys : list value) : bool :=
         match xs, ys with
         | [], [] => true
         | x :: xs', y :: ys' => stringify_eqb x y && items xs' ys'
         | _, _ => false
         end) xs ys
  | VObj xs, VObj ys =>
      (fix fields (xs ys : list (string * value)) : bool :=
         match xs, ys with
         | [], [] => true
         | (k, x) :: xs', (l, y) :: ys' =>
             String.eqb k l && stringify_eqb x y && fields xs' ys'
         | _, _ => false
         end) xs ys
  | _, _ => false
  end.

(** The comparison [Array.prototype.includes] makes: primitives by value,
    arrays and objects by identity, and two parsed payloads share none. *)
Definition same_value_zero (a b : value) : bool :=
  match a, b with
  | VUndef, VUndef => true
  | VNull, VNull => true
  | VBool x, VBool y => Bool.eqb x y
  | VNum NaN, VNum NaN => true
  | VNum x, VNum y => Num.eqb x y
  | VStr x, VStr y => String.eqb x y
  | _, _ => false
  end.

(** [a === b] between a property of one payload and a value of another. *)
Definition strict_eqb (a b : value) : bool :=
  match a, b with
  | VUndef, VUndef => true
  | VNull, VNull => true
  | VBool x, VBool y => Bool.eqb x y
  | VNum x, VNum y => Num.eqb x y
  | VStr x, VStr y => String.eqb x y
  | _, _ => false
  end.

Definition includes (l : list value) (v : value) : bool :=
  existsb (fun x => same_value_zero x v) l.

(** The decimal name of an index, as a property key. *)
Definition index_key (i : nat) : string :=
  NilEmpty.string_of_uint (Nat.to_uint i).

Fixpoint indexed {A : Type} (i : nat) (l : list A) : list (string * A) :=
  match l with
  | [] => []
  | x :: l' => (index_key i, x) :: indexed (S i) l'
  end.

Fixpoint chars (s : string) : list value :=
  match s with
  | EmptyString => []
  | String c s' => VStr (String c EmptyString) :: chars s'
  end.

(** [Object.entries(v)] *)
Definition entries (v : value) : list (string * value) :=
  match v with
  | VObj fields => fields
  | VArr items => indexed 0 items
  | VStr s => indexed 0 (chars s)
  | _ => []
  end.

Fixpoint assoc (k : string) (l : list (string * value)) : value :=
  match l with
  | [] => VUndef
  | (k', v) :: l' => if String.eqb k k' then v else assoc k l'
  end.

(** [v[k]] for an own property of a truthy value.  The members the
    runtime finds up the prototype chain are left out. *)
Definition get (v : value) (k : string) : value :=
  match v with
  | VObj fields => assoc k fields
  | VArr items =>
      if String.eqb k "length" then VNum (of_nat (List.length items))
      else assoc k (indexed 0 items)
  | VStr s =>
      if String.eqb k "length" then VNum (of_nat (String.length s))
      else assoc k (indexed 0 (chars s))
  | _ => VUndef
  end.

(** ** Strings *)

(** [s.toLowerCase()] and [s.trim()] on ASCII: the letters A to Z, and
    the blanks 9 to 13 and 32. *)
Definition lower_ascii (c : ascii) : ascii :=
  let n := nat_of_ascii c in
  if (65 <=? n)%nat && (n <=? 90)%nat then ascii_of_nat (n + 32) else c.

Fixpoint toLowerCase (s : string) : string :=
  match s with
  | EmptyString => EmptyString
  | String c s' => String (lower_ascii c) (toLowerCase s')
  end.

Definition is_space (c : ascii) : bool :=
  let n := nat_of_ascii c in
  ((9 <=? n)%nat && (n <=? 13)%nat) || (n =? 32)%nat.

Fixpoint trimStart (s : string) : string :=
  match s with
  | EmptyString => EmptyString
  | String c s' => if is_space c then trimStart s' else s
  end.

(** Drops the trailing blanks: a blank is kept only if something
    that is not blank follows it. *)
Fixpoint trimEnd (s : string) : string :=
  match s with
  | EmptyString => EmptyString
  | String c s' =>
      match trimEnd s' with
      | EmptyString => if is_space c then EmptyString else String c EmptyString
      | t => String c t
      end
  end.

Definition trim (s : string) : string := trimEnd (trimStart s).

Fixpoint join (sep : string) (l : list string) : string :=
  match l with
  | [] => EmptyString
  | [x] => x
  | x :: l' => x ++ sep ++ join sep l'
  end.

(** ** Numbers as text *)

(** A DECIMAL column reaches the handler as the text the server sends
    (node-postgres parses INTEGER and BOOLEAN columns, and leaves NUMERIC
    and DECIMAL as strings), so a handler that adds such a column adds a
    string. *)
Section NumbersAsText.

Local Open Scope string_scope.

(** The decimal digits of a natural number. *)
Definition digits (n : N) : string := NilEmpty.string_of_uint (N.to_uint n).

Definition two_digits (n : N) : string :=
  if (n <? 10)%N then "0" ++ digits n else digits n.

(** A value in hundredths, a tie rounded away from zero. *)
Definition hundredths (x : Q) : Z :=
  let c := Qfloor (Qabs x * inject_Z 100 + (1 # 2)) in
  if Qis_neg x then - c else c.

(** The text of a DECIMAL(5,2) value: sign, digits, a point, two digits. *)
Definition decimal_text (n : number) : string :=
  match n with
  | Fin x =>
      let c := hundredths x in
      (if (c <? 0)%Z then "-" else EmptyString)
      ++ digits (Z.abs_N c / 100) ++ "." ++ two_digits (Z.abs_N c mod 100)
  | NaN => "NaN"
  | Inf true => "Infinity"
  | Inf false => "-Infinity"
  end.

(** The digits after the point of [r / d] for [r < d], at most [fuel]. *)
Fixpoint fraction_digits (fuel : nat) (r d : N) : string :=
  match fuel with
  | O => EmptyString
  | S fuel' =>
      if (r =? 0)%N then EmptyString
      else digits (r * 10 / d) ++ fraction_digits fuel' ((r * 10) mod d) d
  end.

(** [String(n)]: exact for the integers below 10^21.  A fraction prints
    the digits of the exact quotient, 17 at most, where the runtime
    prints the shortest digits that read back as the same double, and
    the exponent forms of very large and very small numbers are left
    out.  The engine only prints 0 this way. *)
Definition number_text (n : number) : string :=
  match n with
  | Fin x =>
      let a := Z.abs_N (Qnum (Qred x)) in
      let d := Npos (Qden (Qred x)) in
      (if Qis_neg x then "-" else EmptyString)
      ++ digits (a / d)
      ++ (if (a mod d =? 0)%N then EmptyString
          else "." ++ fraction_digits 17 (a mod d) d)
  | NaN => "NaN"
  | Inf true => "Infinity"
  | Inf false => "-Infinity"
  end.

Fixpoint split_at_dot (s : string) : string * option string :=
  match s with
  | EmptyString => (EmptyString, None)
  | String c s' =>
      if Ascii.eqb c "."%char then (EmptyString, Some s')
      else let '(a, b) := split_at_dot s' in (String c a, b)
  end.

(** The value of a string of digits; the empty string counts 0. *)
Definition digits_value (s : string) : option Z :=
  option_map Z.of_uint (NilEmpty.uint_of_string s).

(** An unsigned decimal literal: digits, a point and digits, with the
    digits of one side optional. *)
Definition unsigned_decimal (s : string) : option Q :=
  match split_at_dot s with
  | (whole, None) =>
      if String.eqb whole EmptyString then None
      else option_map inject_Z (digits_value whole)
  | (whole, Some fraction) =>
      if String.eqb whole EmptyString && String.eqb fraction EmptyString
      then None
      else
        match digits_value whole, digits_value fraction with
        | Some i, Some f =>
            Some (inject_Z i
                  + inject_Z f
                    / inject_Z (10 ^ Z.of_nat (String.length fraction)))%Q
        | _, _ => None
        end
  end.

(** [Number(s)] for the strings met here, which are made of digits,
    points, signs and the texts of NaN and the infinities: blanks
    around are dropped, the empty string is 0, a signed decimal literal is
    its value, and anything else is NaN.  Exponents and the prefixes 0x,
    0o and 0b are left out. *)
Definition string_to_number (s : string) : number :=
  match trim s with
  | EmptyString => zero
  | String c rest =>
      let '(negative, unsigned) :=
        if Ascii.eqb c "-"%char then (true, rest)
        else if Ascii.eqb c "+"%char then (false, rest)
        else (false, String c rest) in
      if String.eqb unsigned "Infinity" then Inf (negb negative)
      else
        match unsigned_decimal unsigned with
        | Some q => Fin (Qred (if negative then - q else q))
        | None => NaN
        end
  end.

(** A variable that holds a number or a string. *)
Inductive scalar : Type :=
| SNum (n : number)
| SText (s : string).

(** [a + b]: the sum of two numbers, and the concatenation of the texts
    as soon as one side is a string. *)
Definition plus (a b : scalar) : scalar :=
  match a, b with
  | SNum x, SNum y => SNum (add x y)
  | SNum x, SText t => SText (number_text x ++ t)
  | SText s, SNum y => SText (s ++ number_text y)
  | SText s, SText t => SText (s ++ t)
  end.

(** The number an arithmetic operator other than [+] reads. *)
Definition to_number (a : scalar) : number :=
  match a with
  | SNum x => x
  | SText s => string_to_number s
  end.

End NumbersAsText.

(** ** Completions: a call returns normally or throws *)

Inductive completion (A : Type) : Type :=
| Normal (a : A)
| Thrown.
Arguments Normal {A} a.
Arguments Thrown {A}.

Definition cbind {A B : Type} (c : completion A) (k : A -> completion B)
  : completion B :=
  match c with
  | Normal a => k a
  | Thrown => Thrown
  end.

Declare Scope completion_scope.
Delimit Scope completion_scope with completion.
Notation "x <-- c ;; k" := (cbind c (fun x => k))
  (at level 61, c at next level, right associativity) : completion_scope.

(** [v.toLowerCase()]: a TypeError for anything but a string. *)
Definition method_toLowerCase (v : value) : completion string :=
  match v with
  | VStr s => Normal (toLowerCase s)
  | _ => Thrown
  end.

(** [v.trim()] *)
Definition method_trim (v : value) : completion string :=
  match v with
  | VStr s => Normal (trim s)
  | _ => Thrown
  end.

(** [v.length] as a number: undefined, hence NaN in arithmetic, for a
    value that has no length (an options object is taken to have no key
    of that name). *)
Definition length_of (v : value) : number :=
  match v with
  | VArr items => of_nat (List.length items)
  | VStr s => of_nat (String.length s)
  | _ => NaN
  end.

(** ** Questions as the grader sees them *)

(** [question.metadata]: the grading hints. *)
Record hints : Type := {
  requiresManualGrading : value;
  caseSensitive : value;
  alwaysReview : value;
  reviewIncorrect : value;
  hint_type : value;
  similarityThreshold : option number;
  reviewThreshold : option number;
  tolerance : option number
}.

(** [{}] *)
Definition no_hints : hints := {|
  requiresManualGrading := VUndef;
  caseSensitive := VUndef;
  alwaysReview := VUndef;
  reviewIncorrect := VUndef;
  hint_type := VUndef;
  similarityThreshold := None;
  reviewThreshold := None;
  tolerance := None
|}.

(** One row of the questions query, with the [metadata] property the
    strategies read ([None] when the row has no such property). *)
Record question_row : Type := {
  question_id : Z;
  points : Z;
  correct_answer : value;
  options : value;
  question_type : string;
  response_id : option Z;
  response_data : value;
  metadata : option hints
}.

(** [question.metadata || {}] *)
Definition metadata_or_empty (question : question_row) : hints :=
  match metadata question with
  | Some m => m
  | None => no_hints
  end.

(** [hint || fallback] for a numeric hint *)
Definition hint_or (hint : option number) (fallback : number) : number :=
  match hint with
  | Some n => if Num.truthy n then n else fallback
  | None => fallback
  end.

(** What a strategy returns. *)
Record verdict : Type := {
  score : number;
  feedback : string;
  needsManualGrading : value
}.

Definition invalid_format : verdict :=
  {| score := zero; feedback := "Invalid answer format";
     needsManualGrading := VBool false |}.

Definition requires_manual : verdict :=
  {| score := zero; feedback := "This response requires manual grading";
     needsManualGrading := VBool true |}.

(** ** The host: library and runtime functions the engine calls *)

Record host : Type := {
  tokenize : string -> list string;          (* natural.WordTokenizer *)
  stem : string -> string;                   (* natural.PorterStemmer *)
  compareTwoStrings : string -> string -> number;  (* string-similarity *)
  parseFloat : value -> number
}.

(** ** Grading strategies *)

Section Strategies.

Variable env : host.

Local Open Scope completion_scope.
Local Open Scope string_scope.

(** [compareAnswers(studentAnswer, correctAnswer, caseSensitive = false)] *)
Definition compareAnswers (studentAnswer correctAnswer caseSensitive : value)
  : completion bool :=
  if negb (truthy caseSensitive) then
    s <-- method_toLowerCase studentAnswer ;;
    c <-- method_toLowerCase correctAnswer ;;
    Normal (String.eqb (trim s) (trim c))
  else
    s <-- method_trim studentAnswer ;;
    c <-- method_trim correctAnswer ;;
    Normal (String.eqb s c).

(** [calculateTextSimilarity(text1, text2)] *)
Definition calculateTextSimilarity (text1 text2 : value) : completion number :=
  l1 <-- method_toLowerCase text1 ;;
  let tokens1 := map (stem env) (tokenize env l1) in
  l2 <-- method_toLowerCase text2 ;;
  let tokens2 := map (stem env) (tokenize env l2) in
  Normal (compareTwoStrings env (join " " tokens1) (join " " tokens2)).

(** [gradeMultipleChoice(question)]: score and feedback only. *)
Definition gradeMultipleChoice (question : question_row) : number * string :=
  let correctAnswer := correct_answer question in
  let studentAnswer := response_data question in
  let isCorrect := stringify_eqb correctAnswer studentAnswer in
  (if isCorrect then of_Z (points question) else zero,
   if isCorrect then "Correct answer" else "Incorrect answer").

(** The two counters of the selection loop of [gradeMultipleAnswer]. *)
Definition count_selection (correctAnswers : list value)
  (counts : nat * nat) (answer : value) : nat * nat :=
  let '(correctSelections, incorrectSelections) := counts in
  if includes correctAnswers answer
  then (S correctSelections, incorrectSelections)
  else (correctSelections, S incorrectSelections).

(** [gradeMultipleAnswer(question)] *)
Definition gradeMultipleAnswer (question : question_row) : number * string :=
  match correct_answer question, response_data question with
  | VArr correctAnswers, VArr studentAnswers =>
      let '(correctSelections, incorrectSelections) :=
        fold_left (count_selection correctAnswers) studentAnswers (O, O) in
      let missedCorrect :=
        List.length
          (filter (fun answer => negb (includes studentAnswers answer))
                  correctAnswers) in
      let totalOptions :=
        if truthy (options question) then length_of (options question)
        else of_nat (List.length correctAnswers + 2) in
      let totalDecisions := totalOptions in
      let correctDecisions :=
        sub (sub totalOptions (of_nat incorrectSelections))
            (of_nat missedCorrect) in
      let score :=
        Num.max zero
          (mul (div correctDecisions totalDecisions) (of_Z (points question))) in
      let roundedScore := round2 score in
      let feedback :=
        if (correctSelections =? List.length correctAnswers)%nat
           && (incorrectSelections =? 0)%nat
        then "All correct options selected"
        else if (0 <? incorrectSelections)%nat && (0 <? missedCorrect)%nat
        then "Some incorrect options selected and some correct options missed"
        else if (0 <? incorrectSelections)%nat
        then "Some incorrect options selected"
        else if (0 <? missedCorrect)%nat
        then "Some correct options missed"
        else EmptyString in
      (roundedScore, feedback)
  | _, _ => (zero, "Invalid answer format")
  end.

(** [gradeMatching(question)] *)
Definition gradeMatching (question : question_row) : number * string :=
  let correctMatches := correct_answer question in
  let studentMatches := response_data question in
  if negb (truthy correctMatches) || negb (truthy studentMatches)
  then (zero, "Invalid answer format")
  else
    let totalMatches := List.length (entries correctMatches) in
    let correctCount :=
      fold_left
        (fun (correctCount : nat) (kv : string * value) =>
           if strict_eqb (get correctMatches (fst kv)) (snd kv)
           then S correctCount else correctCount)
        (entries studentMatches) O in
    let score :=
      mul (div (of_nat correctCount) (of_nat totalMatches))
          (of_Z (points question)) in
    let roundedScore := round2 score in
    (roundedScore,
     index_key correctCount ++ " out of " ++ index_key totalMatches
       ++ " matches correct").

(** [correctAnswer.some(answer => compareAnswers(studentAnswer, answer, cs))] *)
Fixpoint some_accepted (studentAnswer : value) (alternatives : list value)
  (caseSensitive : value) : completion bool :=
  match alternatives with
  | [] => Normal false
  | answer :: rest =>
      hit <-- compareAnswers studentAnswer answer caseSensitive ;;
      if hit then Normal true
      else some_accepted studentAnswer rest caseSensitive
  end.

(** One blank of [gradeFillInBlank]: is the student's answer accepted? *)
Definition blank_is_correct (studentAnswers : value) (caseSensitive : value)
  (blank : string * value) : completion bool :=
  let '(blankId, correctAnswer) := blank in
  let studentAnswer := get studentAnswers blankId in
  if negb (truthy studentAnswer) then Normal false
  else
    match correctAnswer with
    | VArr alternatives => some_accepted studentAnswer alternatives caseSensitive
    | _ => compareAnswers studentAnswer correctAnswer caseSensitive
    end.

(** The loop of [gradeFillInBlank] over the blanks: [correctCount] and
    the identifiers pushed on [incorrectAnswers]. *)
Fixpoint count_blanks (studentAnswers : value) (caseSensitive : value)
  (blanks : list (string * value)) (correctCount : nat)
  (incorrectAnswers : list string) : completion (nat * list string) :=
  match blanks with
  | [] => Normal (correctCount, incorrectAnswers)
  | blank :: rest =>
      isCorrect <-- blank_is_correct studentAnswers caseSensitive blank ;;
      if isCorrect
      then count_blanks studentAnswers caseSensitive rest (S correctCount)
             incorrectAnswers
      else count_blanks studentAnswers caseSensitive rest correctCount
             (incorrectAnswers ++ [fst blank])
  end.

(** [metadata.alwaysReview === true ||
     (metadata.reviewThreshold && ratio < metadata.reviewThreshold)] *)
Definition review_flag (m : hints) (ratio : number) : value :=
  if is_true (alwaysReview m) then VBool true
  else
    match reviewThreshold m with
    | None => VUndef
    | Some t => if Num.truthy t then VBool (lt ratio t) else VNum t
    end.

(** [gradeFillInBlank(question)] *)
Definition gradeFillInBlank (question : question_row) : completion verdict :=
  let correctAnswers := correct_answer question in
  let studentAnswers := response_data question in
  if negb (truthy correctAnswers) || negb (truthy studentAnswers)
  then Normal invalid_format
  else
    let metadata := metadata_or_empty question in
    if truthy (requiresManualGrading metadata) then Normal requires_manual
    else
      let totalBlanks := List.length (entries correctAnswers) in
      counted <-- count_blanks studentAnswers (caseSensitive metadata)
                    (entries correctAnswers) O [] ;;
      let correctCount := fst counted in
      let ratio := div (of_nat correctCount) (of_nat totalBlanks) in
      let score := mul ratio (of_Z (points question)) in
      let roundedScore := round2 score in
      let feedback :=
        if (correctCount =? totalBlanks)%nat then "All answers correct"
        else if (correctCount =? 0)%nat then "All answers incorrect"
        else index_key correctCount ++ " out of " ++ index_key totalBlanks
               ++ " answers correct" in
      Normal {| score := roundedScore; feedback := feedback;
                needsManualGrading := review_flag metadata ratio |}.

(** [gradeShortAnswer(question)] *)
Definition gradeShortAnswer (question : question_row) : completion verdict :=
  let correctAnswer := correct_answer question in
  let studentAnswer := response_data question in
  if negb (truthy correctAnswer) || negb (truthy studentAnswer)
  then Normal invalid_format
  else
    let metadata := metadata_or_empty question in
    if truthy (requiresManualGrading metadata) then Normal requires_manual
    else
      similarity <-- calculateTextSimilarity studentAnswer correctAnswer ;;
      let threshold := hint_or (similarityThreshold metadata) (Fin (8 # 10)) in
      let '(score, feedback, needsManualGrading) :=
        if ge similarity threshold
        then (of_Z (points question), "Answer matches expected response", false)
        else if ge similarity (mul threshold (Fin (7 # 10)))
        then (mul (of_Z (points question)) (Fin (5 # 10)),
              "Answer partially matches expected response", true)
        else (zero, "Answer does not match expected response", true) in
      Normal {| score := score; feedback := feedback;
                needsManualGrading :=
                  VBool (needsManualGrading || is_true (alwaysReview metadata)) |}.

(** [gradeComputational(question)] *)
Definition gradeComputational (question : question_row) : verdict :=
  let correctAnswer := correct_answer question in
  let studentAnswer := response_data question in
  let metadata := metadata_or_empty question in
  if negb (truthy correctAnswer) || negb (truthy studentAnswer)
  then invalid_format
  else if truthy (requiresManualGrading metadata) then requires_manual
  else if strict_eqb (hint_type metadata) (VStr "numeric") then
    let tolerance := hint_or (tolerance metadata) zero in
    let isCorrect :=
      le (Num.abs (sub (parseFloat env studentAnswer)
                       (parseFloat env correctAnswer)))
         tolerance in
    {| score := if isCorrect then of_Z (points question) else zero;
       feedback := if isCorrect then "Correct answer" else "Incorrect answer";
       needsManualGrading :=
         VBool (negb isCorrect && is_true (reviewIncorrect metadata)) |}
  else if strict_eqb (hint_type metadata) (VStr "formula") then
    {| score := zero;
       feedback := "Formula evaluation requires manual grading";
       needsManualGrading := VBool true |}
  else
    {| score := zero;
       feedback := "This computational question requires manual grading";
       needsManualGrading := VBool true |}.

(** [gradeCoding(question)] *)
Definition gradeCoding (question : question_row) : verdict :=
  {| score := zero;
     feedback := "Code evaluation requires manual grading or test case execution";
     needsManualGrading := VBool true |}.

(** The [switch (question.question_type)] of the grading loop.  The first
    three strategies return no review flag, so the flag keeps the
    [false] it was initialised with. *)
Definition auto_only (graded : number * string) : completion verdict :=
  Normal {| score := fst graded; feedback := snd graded;
            needsManualGrading := VBool false |}.

Definition gradeQuestion (question : question_row) : completion verdict :=
  let t := question_type question in
  if String.eqb t "true_false" || String.eqb t "multiple_choice"
  then auto_only (gradeMultipleChoice question)
  else if String.eqb t "multiple_answer"
  then auto_only (gradeMultipleAnswer question)
  else if String.eqb t "matching"
  then auto_only (gradeMatching question)
  else if String.eqb t "fill_in_blank" then gradeFillInBlank question
  else if String.eqb t "short_answer" then gradeShortAnswer question
  else if String.eqb t "computational"
  then Normal (gradeComputational question)
  else if String.eqb t "coding" then Normal (gradeCoding question)
  else
    Normal {| score := zero;
              feedback := "This question type requires manual grading";
              needsManualGrading := VBool true |}.

End Strategies.

(** ** The store: tables and the queries the engine sends *)

Record submission : Type := {
  submission_id : Z;
  sub_assignment_id : Z;
  sub_student_id : Z;
  status : string;
  total_score : option number;
  sub_graded_at : option Z;
  sub_graded_by : option Z
}.

Record assignment : Type := {
  assignment_id : Z;
  asg_category_id : Z;
  asg_title : string;
  total_points : Z;
  is_published : bool
}.

Record question_type_row : Type := {
  type_id : Z;
  type_name : string
}.

Record question : Type := {
  q_question_id : Z;
  q_assignment_id : Z;
  q_type_id : Z;
  q_points : Z;
  q_options : value;
  q_correct_answer : value;
  q_metadata : option hints;
  q_order_num : option Z
}.

Record question_response : Type := {
  r_response_id : Z;
  r_submission_id : Z;
  r_question_id : Z;
  r_response_data : value;
  r_score : option number;
  r_feedback : option string;
  r_graded_at : option Z;
  r_graded_by : option Z
}.

Record assignment_category : Type := {
  category_id : Z;
  cat_course_id : Z;
  cat_name : string;
  weight : Q
}.

Record grading_scale : Type := {
  scale_id : Z;
  scale_name : string
}.

Record course_grading_scale : Type := {
  cgs_course_id : Z;
  cgs_scale_id : Z
}.

Record grading_scale_threshold : Type := {
  gst_scale_id : Z;
  grade : string;
  min_score : Q;
  max_score : Q
}.

Record enrollment : Type := {
  enr_course_id : Z;
  enr_student_id : Z;
  final_grade : option number
}.

Record database : Type := {
  submissions : list submission;
  assignments : list assignment;
  question_types : list question_type_row;
  questions : list question;
  question_responses : list question_response;
  assignment_categories : list assignment_category;
  grading_scales : list grading_scale;
  course_grading_scales : list course_grading_scale;
  grading_scale_thresholds : list grading_scale_threshold;
  enrollments : list enrollment
}.

Definition with_submissions (d : database) (l : list submission) : database :=
  {| submissions := l;
     assignments := assignments d;
     question_types := question_types d;
     questions := questions d;
     question_responses := question_responses d;
     assignment_categories := assignment_categories d;
     grading_scales := grading_scales d;
     course_grading_scales := course_grading_scales d;
     grading_scale_thresholds := grading_scale_thresholds d;
     enrollments := enrollments d |}.

Definition with_question_responses (d : database)
  (l : list question_response) : database :=
  {| submissions := submissions d;
     assignments := assignments d;
     question_types := question_types d;
     questions := questions d;
     question_responses := l;
     assignment_categories := assignment_categories d;
     grading_scales := grading_scales d;
     course_grading_scales := course_grading_scales d;
     grading_scale_thresholds := grading_scale_thresholds d;
     enrollments := enrollments d |}.

Definition with_enrollments (d : database) (l : list enrollment) : database :=
  {| submissions := submissions d;
     assignments := assignments d;
     question_types := question_types d;
     questions := questions d;
     question_responses := question_responses d;
     assignment_categories := assignment_categories d;
     grading_scales := grading_scales d;
     course_grading_scales := course_grading_scales d;
     grading_scale_thresholds := grading_scale_thresholds d;
     enrollments := l |}.

(** [ORDER BY]: a stable insertion sort on a total preorder. *)
Section OrderBy.

Context {A : Type} (leb : A -> A -> bool).

Fixpoint insert_by (x : A) (l : list A) : list A :=
  match l with
  | [] => [x]
  | y :: l' => if leb x y then x :: l else y :: insert_by x l'
  end.

Fixpoint order_by (l : list A) : list A :=
  match l with
  | [] => []
  | x :: l' => insert_by x (order_by l')
  end.

End OrderBy.

(** Ascending, NULLs last. *)
Definition order_num_leb (a b : option Z) : bool :=
  match a, b with
  | Some x, Some y => x <=? y
  | Some _, None => true
  | None, Some _ => false
  | None, None => true
  end.

Module Sql.

(** [SELECT s.*, a.total_points FROM submissions s JOIN assignments a
     ON s.assignment_id = a.assignment_id WHERE s.submission_id = $1] *)
Definition select_submission (submissionId : Z) (d : database)
  : list (submission * assignment) :=
  flat_map
    (fun s =>
       if submission_id s =? submissionId
       then map (fun a => (s, a))
                (filter (fun a => sub_assignment_id s =? assignment_id a)
                        (assignments d))
       else [])
    (submissions d).

(** The selected columns of one joined row; [q.metadata] is not among
    them, so the row has no [metadata] property. *)
Definition question_columns (q : question) (qt : question_type_row)
  (qr : option question_response) : question_row :=
  {| question_id := q_question_id q;
     points := q_points q;
     correct_answer := q_correct_answer q;
     options := q_options q;
     question_type := type_name qt;
     response_id := option_map r_response_id qr;
     response_data :=
       match qr with Some r => r_response_data r | None => VNull end;
     metadata := None |}.

(** [... LEFT JOIN question_responses qr
     ON q.question_id = qr.question_id AND qr.submission_id = $1] *)
Definition left_join_responses (submissionId : Z) (d : database)
  (q : question) : list (option question_response) :=
  match filter (fun qr => (q_question_id q =? r_question_id qr)
                          && (r_submission_id qr =? submissionId))
               (question_responses d) with
  | [] => [None]
  | matches => map Some matches
  end.

(** [SELECT ... FROM questions q JOIN question_types qt ... LEFT JOIN
     question_responses qr ... WHERE q.assignment_id = $2
     ORDER BY q.order_num] *)
Definition joined_questions (submissionId assignmentId : Z) (d : database)
  : list (question * question_row) :=
  flat_map
    (fun q =>
       flat_map
         (fun qt =>
            map (fun qr => (q, question_columns q qt qr))
                (left_join_responses submissionId d q))
         (filter (fun qt => q_type_id q =? type_id qt) (question_types d)))
    (filter (fun q => q_assignment_id q =? assignmentId) (questions d)).

Definition select_questions (submissionId assignmentId : Z) (d : database)
  : list question_row :=
  map snd
    (order_by (fun a b => order_num_leb (q_order_num (fst a))
                                        (q_order_num (fst b)))
              (joined_questions submissionId assignmentId d)).

(** [UPDATE question_responses SET score = $1, feedback = $2,
     graded_at = CURRENT_TIMESTAMP WHERE response_id = $3] *)
Definition update_response_score (score : number) (feedback : string)
  (responseId : Z) (now : Z) (d : database) : database :=
  with_question_responses d
    (map (fun r =>
            if r_response_id r =? responseId
            then {| r_response_id := r_response_id r;
                    r_submission_id := r_submission_id r;
                    r_question_id := r_question_id r;
                    r_response_data := r_response_data r;
                    r_score := Some score;
                    r_feedback := Some feedback;
                    r_graded_at := Some now;
                    r_graded_by := r_graded_by r |}
            else r)
         (question_responses d)).

(** [UPDATE submissions SET status = 'graded', total_score = $1,
     graded_at = CURRENT_TIMESTAMP WHERE submission_id = $2] *)
Definition finalize_submission (totalScore : number) (submissionId : Z)
  (now : Z) (d : database) : database :=
  with_submissions d
    (map (fun s =>
            if submission_id s =? submissionId
            then {| submission_id := submission_id s;
                    sub_assignment_id := sub_assignment_id s;
                    sub_student_id := sub_student_id s;
                    status := "graded";
                    total_score := Some totalScore;
                    sub_graded_at := Some now;
                    sub_graded_by := sub_graded_by s |}
            else s)
         (submissions d)).

(** [UPDATE question_responses SET score = $1, feedback = $2,
     graded_at = CURRENT_TIMESTAMP, graded_by = $3 WHERE response_id = $4] *)
Definition update_response_manual (score : option number) (feedback : string)
  (graderId : option Z) (responseId : Z) (now : Z) (d : database) : database :=
  with_question_responses d
    (map (fun r =>
            if r_response_id r =? responseId
            then {| r_response_id := r_response_id r;
                    r_submission_id := r_submission_id r;
                    r_question_id := r_question_id r;
                    r_response_data := r_response_data r;
                    r_score := score;
                    r_feedback := Some feedback;
                    r_graded_at := Some now;
                    r_graded_by := graderId |}
            else r)
         (question_responses d)).

(** The rows the progress query groups:
    [FROM submissions s
     JOIN questions q ON s.assignment_id = q.assignment_id
     JOIN question_responses qr ON q.question_id = qr.question_id
                                AND qr.submission_id = s.submission_id
     WHERE qr.response_id = $1] *)
Definition progress_rows (responseId : Z) (d : database)
  : list (submission * question * question_response) :=
  filter
    (fun row => r_response_id (snd row) =? responseId)
    (flat_map
       (fun s =>
          flat_map
            (fun q =>
               map (fun qr => (s, q, qr))
                   (filter (fun qr => (q_question_id q =? r_question_id qr)
                                      && (r_submission_id qr =? submission_id s))
                           (question_responses d)))
            (filter (fun q => sub_assignment_id s =? q_assignment_id q)
                    (questions d)))
       (submissions d)).

(** [GROUP BY s.submission_id, s.assignment_id, s.student_id] *)
Definition same_group (a b : submission) : bool :=
  (submission_id a =? submission_id b)
  && (sub_assignment_id a =? sub_assignment_id b)
  && (sub_student_id a =? sub_student_id b).

Definition group_keys (rows : list (submission * question * question_response))
  : list submission :=
  fold_left
    (fun keys row =>
       if existsb (same_group (fst (fst row))) keys then keys
       else keys ++ [fst (fst row)])
    rows [].

(** [SUM(qr.score)]: NULL when no row has a score. *)
Definition sum_scores (scores : list (option number)) : option number :=
  fold_left
    (fun acc s =>
       match s, acc with
       | None, _ => acc
       | Some x, None => Some x
       | Some x, Some a => Some (add a x)
       end)
    scores None.

Record progress : Type := {
  prog_submission_id : Z;
  total_questions : nat;     (* COUNT(q.question_id) *)
  graded_questions : nat;    (* COUNT(qr.score) *)
  prog_total_score : option number   (* SUM(qr.score) *)
}.

Definition select_progress (responseId : Z) (d : database) : list progress :=
  let rows := progress_rows responseId d in
  map
    (fun key =>
       let group := filter (fun row => same_group key (fst (fst row))) rows in
       let scores := map (fun row => r_score (snd row)) group in
       {| prog_submission_id := submission_id key;
          total_questions := List.length group;
          graded_questions :=
            List.length
              (filter (fun s => match s with Some _ => true | None => false end)
                      scores);
          prog_total_score := sum_scores scores |})
    (group_keys rows).

(** [UPDATE submissions SET status = 'graded', total_score = $1,
     graded_at = CURRENT_TIMESTAMP, graded_by = $2 WHERE submission_id = $3] *)
Definition finalize_submission_by (totalScore : option number)
  (graderId : option Z) (submissionId : Z) (now : Z) (d : database)
  : database :=
  with_submissions d
    (map (fun s =>
            if submission_id s =? submissionId
            then {| submission_id := submission_id s;
                    sub_assignment_id := sub_assignment_id s;
                    sub_student_id := sub_student_id s;
                    status := "graded";
                    total_score := totalScore;
                    sub_graded_at := Some now;
                    sub_graded_by := graderId |}
            else s)
         (submissions d)).

(** [SELECT category_id, name, weight FROM assignment_categories
     WHERE course_id = $1] *)
Definition select_categories (courseId : Z) (d : database)
  : list assignment_category :=
  filter (fun c => cat_course_id c =? courseId) (assignment_categories d).

(** [SELECT a.assignment_id, a.title, a.total_points, s.total_score
     FROM assignments a LEFT JOIN submissions s
       ON a.assignment_id = s.assignment_id AND s.student_id = $1
          AND s.status = 'graded'
     WHERE a.category_id = $2 AND a.is_published = TRUE];
    [s.total_score] is a DECIMAL(5,2) and comes as its text. *)
Definition select_assignments (studentId categoryId : Z) (d : database)
  : list (assignment * option string) :=
  flat_map
    (fun a =>
       match filter (fun s => (assignment_id a =? sub_assignment_id s)
                              && (sub_student_id s =? studentId)
                              && String.eqb (status s) "graded")
                    (submissions d) with
       | [] => [(a, None)]
       | matches =>
           map (fun s => (a, option_map decimal_text (total_score s))) matches
       end)
    (filter (fun a => (asg_category_id a =? categoryId) && is_published a)
            (assignments d)).

(** [SELECT gs.scale_id, gs.name, gst.grade, gst.min_score, gst.max_score
     FROM grading_scales gs
     JOIN course_grading_scales cgs ON gs.scale_id = cgs.scale_id
     JOIN grading_scale_thresholds gst ON gs.scale_id = gst.scale_id
     WHERE cgs.course_id = $1 ORDER BY gst.min_score DESC] *)
Definition joined_scale (courseId : Z) (d : database)
  : list grading_scale_threshold :=
  flat_map
    (fun gs =>
       flat_map
         (fun cgs =>
            if cgs_course_id cgs =? courseId
            then filter (fun gst => scale_id gs =? gst_scale_id gst)
                        (grading_scale_thresholds d)
            else [])
         (filter (fun cgs => scale_id gs =? cgs_scale_id cgs)
                 (course_grading_scales d)))
    (grading_scales d).

Definition min_score_desc (a b : grading_scale_threshold) : bool :=
  Qle_bool (min_score b) (min_score a).

Definition select_scale (courseId : Z) (d : database)
  : list grading_scale_threshold :=
  order_by min_score_desc (joined_scale courseId d).

(** [UPDATE enrollments SET final_grade = $1
     WHERE student_id = $2 AND course_id = $3] *)
Definition update_final_grade (finalGrade : number) (studentId courseId : Z)
  (d : database) : database :=
  with_enrollments d
    (map (fun e =>
            if (enr_student_id e =? studentId) && (enr_course_id e =? courseId)
            then {| enr_course_id := enr_course_id e;
                    enr_student_id := enr_student_id e;
                    final_grade := Some finalGrade |}
            else e)
         (enrollments d)).

End Sql.

(** ** Handlers: state, failure and the [try]/[catch] of a handler *)

Record world : Type := {
  db : database;
  answers_left : option nat;   (* [Some n]: the store fails after [n] queries *)
  store_failed : bool;         (* a query has been refused *)
  now : Z                      (* CURRENT_TIMESTAMP *)
}.

(** The store refuses a query. *)
Definition refuse (w : world) : world :=
  {| db := db w; answers_left := answers_left w; store_failed := true;
     now := now w |}.

Definition io (A : Type) : Type := world -> completion A * world.

Definition ret {A : Type} (a : A) : io A := fun w => (Normal a, w).

Definition bind {A B : Type} (c : io A) (k : A -> io B) : io B :=
  fun w =>
    match c w with
    | (Normal a, w') => k a w'
    | (Thrown, w') => (Thrown, w')
    end.

Declare Scope io_scope.
Delimit Scope io_scope with io.
Notation "x <- c ; k" := (bind c (fun x => k))
  (at level 61, c at next level, right associativity) : io_scope.
Notation "c ;; k" := (bind c (fun _ => k))
  (at level 61, right associativity) : io_scope.

(** A strategy that throws unwinds the handler. *)
Definition lift {A : Type} (c : completion A) : io A := fun w => (c, w).

(** [await pool.query(...)]: the statement runs on the tables, commits on
    its own, and its result comes back; or the store fails and the
    rejected promise throws. *)
Definition pool_query {A : Type} (statement : Z -> database -> A * database)
  : io A :=
  fun w =>
    match answers_left w with
    | Some O => (Thrown, refuse w)
    | remaining =>
        let '(a, d) := statement (now w) (db w) in
        (Normal a,
         {| db := d; answers_left := option_map Nat.pred remaining;
            store_failed := store_failed w; now := now w |})
    end.

Definition select {A : Type} (q : database -> A) : io A :=
  pool_query (fun _ d => (q d, d)).

Definition execute (u : Z -> database -> database) : io unit :=
  pool_query (fun t d => (tt, u t d)).

(** What a handler returns. *)
Record grading_result : Type := {
  res_questionId : Z;
  res_responseId : option Z;
  res_score : number;
  res_feedback : string;
  res_needsManualGrading : value
}.

Record assignment_detail : Type := {
  det_assignmentId : Z;
  det_title : string;
  det_totalPoints : Z;
  det_earnedPoints : scalar;
  det_percentage : number
}.

Record category_grade : Type := {
  cg_categoryId : Z;
  cg_name : string;
  cg_weight : number;
  cg_percentage : number;
  cg_weightedScore : number;
  cg_assignments : list assignment_detail
}.

Inductive response_body : Type :=
| Message (message : string)
| GradeReport (submissionId : Z) (totalScore : number) (maxPoints : Z)
    (needsManualGrading : bool) (gradingResults : list grading_result)
| FinalGradeReport (studentId courseId : Z) (finalGrade : number)
    (letterGrade : option string) (categoryGrades : list category_grade).

Record response : Type := {
  statusCode : Z;
  body : response_body
}.

Definition reply (code : Z) (message : string) : response :=
  {| statusCode := code; body := Message message |}.

(** [try { ... } catch (error) { return 500 }] *)
Definition try_catch (handler : io response) (w : world) : response * world :=
  match handler w with
  | (Normal r, w') => (r, w')
  | (Thrown, w') => (reply 500 "Internal server error", w')
  end.

(** [!id] for an identifier of the request or of a row *)
Definition missing (id : option Z) : bool :=
  match id with
  | None => true
  | Some z => z =? 0
  end.

Section Handlers.

Variable env : host.

Local Open Scope io_scope.
Local Open Scope string_scope.

(** The [for (const question of questions)] loop of [gradeSubmission],
    with its two accumulators. *)
Fixpoint grade_questions (questions : list question_row)
  (totalScore : number) (gradingResults : list grading_result)
  : io (number * list grading_result) :=
  match questions with
  | [] => ret (totalScore, gradingResults)
  | question :: rest =>
      match response_id question with
      | Some responseId =>
          if (responseId =? 0)%Z then
            grade_questions rest totalScore
              (gradingResults ++
               [{| res_questionId := question_id question;
                   res_responseId := None;
                   res_score := zero;
                   res_feedback := "No response provided";
                   res_needsManualGrading := VBool false |}])
          else
            v <- lift (gradeQuestion env question) ;
            let result :=
              {| res_questionId := question_id question;
                 res_responseId := response_id question;
                 res_score := score v;
                 res_feedback := feedback v;
                 res_needsManualGrading := needsManualGrading v |} in
            if negb (truthy (needsManualGrading v)) then
              execute (Sql.update_response_score (score v) (feedback v)
                         responseId) ;;
              grade_questions rest (add totalScore (score v))
                (gradingResults ++ [result])
            else
              grade_questions rest totalScore (gradingResults ++ [result])
      | None =>
          grade_questions rest totalScore
            (gradingResults ++
             [{| res_questionId := question_id question;
                 res_responseId := None;
                 res_score := zero;
                 res_feedback := "No response provided";
                 res_needsManualGrading := VBool false |}])
      end
  end.

(** [exports.gradeSubmission]; the argument is the [submissionId] of the
    request body, [None] when the body has none. *)
Definition gradeSubmission_body (submissionId : option Z) : io response :=
  if missing submissionId then ret (reply 400 "Submission ID is required")
  else
    let id := match submissionId with Some z => z | None => 0 end in
    submissionResult <- select (Sql.select_submission id) ;
    match submissionResult with
    | [] => ret (reply 404 "Submission not found")
    | (submission, asg) :: _ =>
        if String.eqb (status submission) "graded"
        then ret (reply 400 "Submission is already graded")
        else
          questions <- select (Sql.select_questions id
                                 (sub_assignment_id submission)) ;
          graded <- grade_questions questions zero [] ;
          let '(totalScore, gradingResults) := graded in
          let needsManualGrading :=
            existsb (fun result => truthy (res_needsManualGrading result))
                    gradingResults in
          (if negb needsManualGrading
           then execute (Sql.finalize_submission totalScore id)
           else ret tt) ;;
          ret {| statusCode := 200;
                 body := GradeReport id totalScore (total_points asg)
                           needsManualGrading gradingResults |}
    end.

Definition gradeSubmission (submissionId : option Z) (w : world)
  : response * world :=
  try_catch (gradeSubmission_body submissionId) w.

End Handlers.

Section Bookkeeping.

Local Open Scope io_scope.
Local Open Scope string_scope.

(** [exports.manualGradeQuestion].  [score] is [None] when the body has no
    score, [Some None] for a JSON null, [Some (Some n)] for a number;
    [feedback] and [graderId] are [None] when absent. *)
Definition manualGradeQuestion_body (responseId : option Z)
  (score : option (option number)) (feedback : option string)
  (graderId : option Z) : io response :=
  if missing responseId
     || match score with None => true | Some _ => false end
  then ret (reply 400 "Response ID and score are required")
  else
    let id := match responseId with Some z => z | None => 0 end in
    let score := match score with Some s => s | None => None end in
    let feedback := match feedback with Some f => f | None => EmptyString end in
    execute (Sql.update_response_manual score feedback graderId id) ;;
    submissionResult <- select (Sql.select_progress id) ;
    (match submissionResult with
     | submission :: _ =>
         if (Sql.total_questions submission
             =? Sql.graded_questions submission)%nat
         then execute (Sql.finalize_submission_by
                         (Sql.prog_total_score submission) graderId
                         (Sql.prog_submission_id submission))
         else ret tt
     | [] => ret tt
     end) ;;
    ret (reply 200 "Question graded successfully").

Definition manualGradeQuestion (responseId : option Z)
  (score : option (option number)) (feedback : option string)
  (graderId : option Z) (w : world) : response * world :=
  try_catch (manualGradeQuestion_body responseId score feedback graderId) w.

(** [assignment.total_score || 0]: the text of the score, and the number
    0 when there is none. *)
Definition score_or_zero (total_score : option string) : scalar :=
  match total_score with
  | Some s => if String.eqb s EmptyString then SNum zero else SText s
  | None => SNum zero
  end.

(** The loop over the assignments of one category: [totalPoints] adds
    numbers, [earnedPoints += assignment.total_score || 0] adds a string
    as soon as a submission is graded. *)
Definition add_assignment
  (acc : number * scalar * list assignment_detail)
  (row : assignment * option string)
  : number * scalar * list assignment_detail :=
  let '(totalPoints, earnedPoints, assignmentDetails) := acc in
  let '(a, total_score) := row in
  (add totalPoints (of_Z (total_points a)),
   plus earnedPoints (score_or_zero total_score),
   (assignmentDetails ++
   [{| det_assignmentId := assignment_id a;
       det_title := asg_title a;
       det_totalPoints := total_points a;
       det_earnedPoints := score_or_zero total_score;
       det_percentage :=
         match score_or_zero total_score with
         | SText s =>
             mul (div (string_to_number s) (of_Z (total_points a))) (of_Z 100)
         | SNum _ => zero
         end |}])%list).

(** The body of the loop over the categories, after its query. *)
Definition grade_category (category : assignment_category)
  (rows : list (assignment * option string)) : category_grade :=
  match rows with
  | [] =>
      {| cg_categoryId := category_id category;
         cg_name := cat_name category;
         cg_weight := Fin (weight category);
         cg_percentage := zero;
         cg_weightedScore := zero;
         cg_assignments := [] |}
  | _ =>
      let '(totalPoints, earnedPoints, assignmentDetails) :=
        fold_left add_assignment rows (zero, SNum zero, []) in
      let categoryPercentage :=
        if gt totalPoints zero
        then mul (div (to_number earnedPoints) totalPoints) (of_Z 100)
        else zero in
      let weightedScore :=
        mul (div categoryPercentage (of_Z 100)) (Fin (weight category)) in
      {| cg_categoryId := category_id category;
         cg_name := cat_name category;
         cg_weight := Fin (weight category);
         cg_percentage := categoryPercentage;
         cg_weightedScore := weightedScore;
         cg_assignments := assignmentDetails |}
  end.

(** The [for (const category of categories)] loop.  A category without
    rows skips [finalGrade += weightedScore]. *)
Fixpoint grade_categories (studentId : Z)
  (categories : list assignment_category) (finalGrade : number)
  (categoryGrades : list category_grade)
  : io (number * list category_grade) :=
  match categories with
  | [] => ret (finalGrade, categoryGrades)
  | category :: rest =>
      rows <- select (Sql.select_assignments studentId
                        (category_id category)) ;
      let graded := grade_category category rows in
      match rows with
      | [] => grade_categories studentId rest finalGrade
                (categoryGrades ++ [graded])
      | _ => grade_categories studentId rest
               (add finalGrade (cg_weightedScore graded))
               (categoryGrades ++ [graded])
      end
  end.

(** The loop over the thresholds, leaving at the first match. *)
Fixpoint find_letter (finalGrade : number)
  (scale : list grading_scale_threshold) : option string :=
  match scale with
  | [] => None
  | threshold :: rest =>
      if ge finalGrade (Fin (min_score threshold))
         && le finalGrade (Fin (max_score threshold))
      then Some (grade threshold)
      else find_letter finalGrade rest
  end.

(** [exports.calculateFinalGrade] *)
Definition calculateFinalGrade_body (studentId courseId : option Z)
  : io response :=
  if missing studentId || missing courseId
  then ret (reply 400 "Student ID and course ID are required")
  else
    let student := match studentId with Some z => z | None => 0 end in
    let course := match courseId with Some z => z | None => 0 end in
    categories <- select (Sql.select_categories course) ;
    match categories with
    | [] => ret (reply 404 "No assignment categories found for this course")
    | _ =>
        graded <- grade_categories student categories zero [] ;
        let '(finalGrade, categoryGrades) := graded in
        scale <- select (Sql.select_scale course) ;
        let letterGrade := find_letter finalGrade scale in
        execute (fun _ => Sql.update_final_grade finalGrade student course) ;;
        ret {| statusCode := 200;
               body := FinalGradeReport student course finalGrade letterGrade
                         categoryGrades |}
    end.

Definition calculateFinalGrade (studentId courseId : option Z) (w : world)
  : response * world :=
  try_catch (calculateFinalGrade_body studentId courseId) w.

End Bookkeeping.

(** ** A small course, used in the examples *)

Module Sample.

Local Open Scope string_scope.

(** A stand-in host: whitespace-free tokens, no stemming, a similarity
    that only tells equal strings from different ones. *)
Definition sample_host : host :=
  {| tokenize := fun s => [s];
     stem := fun s => s;
     compareTwoStrings :=
       fun a b => if String.eqb a b then of_Z 1 else zero;
     parseFloat := fun v => match v with VNum n => n | _ => NaN end |}.

Definition mk_submission (id asg student : Z) (st : string)
  (total : option number) : submission :=
  {| submission_id := id; sub_assignment_id := asg; sub_student_id := student;
     status := st; total_score := total;
     sub_graded_at := None; sub_graded_by := None |}.

Definition mk_assignment (id cat pts : Z) (title : string) : assignment :=
  {| assignment_id := id; asg_category_id := cat; asg_title := title;
     total_points := pts; is_published := true |}.

Definition mk_question (id asg ty pts : Z) (answer : value) (ord : Z)
  : question :=
  {| q_question_id := id; q_assignment_id := asg; q_type_id := ty;
     q_points := pts; q_options := VNull; q_correct_answer := answer;
     q_metadata := None; q_order_num := Some ord |}.

Definition mk_response (id sub q : Z) (data : value) : question_response :=
  {| r_response_id := id; r_submission_id := sub; r_question_id := q;
     r_response_data := data; r_score := None; r_feedback := None;
     r_graded_at := None; r_graded_by := None |}.

(** Course 1: Homework (weight 40) with two assignments, Exams (weight 60)
    with one.  Student 7 has 10/10, 8/10 and 45/50.  Assignment 4 is a quiz
    of two multiple-choice questions and an essay; submission 4 answers the
    two multiple-choice questions only, submission 5 answers all three. *)
Definition sample_db : database :=
  {| submissions :=
       [ mk_submission 1 1 7 "graded" (Some (of_Z 10));
         mk_submission 2 2 7 "graded" (Some (of_Z 8));
         mk_submission 3 3 7 "graded" (Some (of_Z 45));
         mk_submission 4 4 7 "submitted" None;
         mk_submission 5 4 8 "submitted" None ];
     assignments :=
       [ mk_assignment 1 1 10 "Homework 1";
         mk_assignment 2 1 10 "Homework 2";
         mk_assignment 3 2 50 "Final exam";
         mk_assignment 4 3 10 "Quiz" ];
     question_types :=
       [ {| type_id := 1; type_name := "true_false" |};
         {| type_id := 2; type_name := "multiple_choice" |};
         {| type_id := 5; type_name := "short_answer" |};
         {| type_id := 6; type_name := "essay" |};
         {| type_id := 7; type_name := "fill_in_blank" |} ];
     questions :=
       [ mk_question 11 4 2 5 (VStr "b") 2;
         mk_question 10 4 1 3 (VBool true) 1;
         mk_question 12 4 6 2 VNull 3 ];
     question_responses :=
       [ mk_response 21 4 10 (VBool true);
         mk_response 22 4 11 (VStr "c");
         mk_response 23 5 10 (VBool false);
         mk_response 24 5 11 (VStr "b");
         mk_response 25 5 12 (VStr "An essay.") ];
     assignment_categories :=
       [ {| category_id := 1; cat_course_id := 1; cat_name := "Homework";
            weight := 40 |};
         {| category_id := 2; cat_course_id := 1; cat_name := "Exams";
            weight := 60 |};
         {| category_id := 3; cat_course_id := 2; cat_name := "Quizzes";
            weight := 100 |} ];
     grading_scales := [ {| scale_id := 1; scale_name := "Letters" |} ];
     course_grading_scales := [ {| cgs_course_id := 1; cgs_scale_id := 1 |} ];
     grading_scale_thresholds :=
       [ {| gst_scale_id := 1; grade := "B";
            min_score := 80; max_score := 8999 # 100 |};
         {| gst_scale_id := 1; grade := "A";
            min_score := 90; max_score := 100 |} ];
     enrollments :=
       [ {| enr_course_id := 1; enr_student_id := 7; final_grade := None |} ]
  |}.

(** A store that answers every query. *)
Definition sample_world : world :=
  {| db := sample_db; answers_left := None; store_failed := false;
     now := 1000 |}.

(** The same tables on a store that fails after [n] queries. *)
Definition failing_after (n : nat) : world :=
  {| db := sample_db; answers_left := Some n; store_failed := false;
     now := 1000 |}.

End Sample.

(** ** Vocabulary of the statements *)

(** The row of a submission, by primary key. *)
Definition find_submission (submissionId : Z) (d : database)
  : option submission :=
  find (fun s => submission_id s =? submissionId) (submissions d).

(** The assignment a submission belongs to. *)
Definition find_assignment (assignmentId : Z) (d : database)
  : option assignment :=
  find (fun a => assignmentId =? assignment_id a) (assignments d).

(** The store answers the next query. *)
Definition answers (w : world) : Prop := answers_left w <> Some O.

(** The store answers every query. *)
Definition reliable (w : world) : Prop := answers_left w = None.

(** The world after one answered query that changed no table. *)
Definition after_read (w : world) : world :=
  {| db := db w;
     answers_left := option_map Nat.pred (answers_left w);
     store_failed := store_failed w;
     now := now w |}.

(** A question row with other hints. *)
Definition with_metadata (q : question_row) (m : option hints)
  : question_row :=
  {| question_id := question_id q;
     points := points q;
     correct_answer := correct_answer q;
     options := options q;
     question_type := question_type q;
     response_id := response_id q;
     response_data := response_data q;
     metadata := m |}.

(** Hints that only ask for manual grading. *)
Definition manual_only : hints :=
  {| requiresManualGrading := VBool true;
     caseSensitive := VUndef;
     alwaysReview := VUndef;
     reviewIncorrect := VUndef;
     hint_type := VUndef;
     similarityThreshold := None;
     reviewThreshold := None;
     tolerance := None |}.

(** Hints that only ask for a review of every answer. *)
Definition always_review : hints :=
  {| requiresManualGrading := VUndef;
     caseSensitive := VUndef;
     alwaysReview := VBool true;
     reviewIncorrect := VUndef;
     hint_type := VUndef;
     similarityThreshold := None;
     reviewThreshold := None;
     tolerance := None |}.

(** An answered question, as a strategy receives it. *)
Definition answered (type : string) (pts : Z) (answer data : value)
  (m : option hints) : question_row :=
  {| question_id := 1;
     points := pts;
     correct_answer := answer;
     options := VNull;
     question_type := type;
     response_id := Some 1;
     response_data := data;
     metadata := m |}.


(** A given answer matches an accepted one: equal once trimmed, and
    lower-cased first unless the comparison is case sensitive. *)
Definition matches (caseSensitive : value) (given accepted : string) : bool :=
  if truthy caseSensitive
  then String.eqb (trim given) (trim accepted)
  else String.eqb (trim (toLowerCase given)) (trim (toLowerCase accepted)).
















(** Two fill-in-blank questions: one blank that accepts "Paris" or
    "paris", answered "PARIS", for two points; three capitals for one
    point, of which only the first is answered. *)
Module SampleBlanks.

Local Open Scope string_scope.



End SampleBlanks.

(** The closed interval of a threshold contains a grade. *)
Definition within (t : grading_scale_threshold) (finalGrade : number) : bool :=
  ge finalGrade (Fin (min_score t)) && le finalGrade (Fin (max_score t)).

(** The published assignments of a category. *)
Definition published_in (categoryId : Z) (d : database) : list assignment :=
  filter (fun a => (asg_category_id a =? categoryId) && is_published a)
         (assignments d).

(** *** The weighted grade, as the specification words it

    Totals are numbers here, and are summed; the handler is compared
    with these formulas. *)

(** The total of the student's graded submission for an assignment, when
    there is one. *)
Definition graded_total (studentId : Z) (d : database) (a : assignment)
  : option number :=
  match find (fun s => (assignment_id a =? sub_assignment_id s)
                       && (sub_student_id s =? studentId)
                       && String.eqb (status s) "graded")
             (submissions d) with
  | Some s => total_score s
  | None => None
  end.

(** What an assignment earns the student: the total of the graded
    submission, 0 when there is none. *)
Definition earned (studentId : Z) (d : database) (a : assignment) : number :=
  match graded_total studentId d a with
  | Some total => total
  | None => zero
  end.

Definition totalPoints_of (c : assignment_category) (d : database) : number :=
  Num.sum (map (fun a => of_Z (total_points a))
               (published_in (category_id c) d)).

Definition earnedPoints_of (studentId : Z) (c : assignment_category)
  (d : database) : number :=
  Num.sum (map (earned studentId d) (published_in (category_id c) d)).

(** earnedPoints / totalPoints x 100, and 0 when totalPoints is 0. *)
Definition categoryPercentage_of (studentId : Z) (d : database)
  (c : assignment_category) : number :=
  if Num.eqb (totalPoints_of c d) zero then zero
  else mul (div (earnedPoints_of studentId c d) (totalPoints_of c d))
           (of_Z 100).

(** categoryPercentage x weight / 100 *)
Definition weightedScore_of (studentId : Z) (d : database)
  (c : assignment_category) : number :=
  div (mul (categoryPercentage_of studentId d c) (Fin (weight c))) (of_Z 100).

(** The sum of the weighted scores of the categories of the course. *)
Definition finalGrade_of (studentId courseId : Z) (d : database) : number :=
  Num.sum (map (weightedScore_of studentId d)
               (Sql.select_categories courseId d)).

(** A number in lowest terms. *)
Definition canonical (n : number) : Prop :=
  match n with
  | Fin q => Qred q = q
  | _ => True
  end.

(** *** The run of [gradeSubmission] on its rows *)

(** The row carries a response. *)
Definition has_response (q : question_row) : bool :=
  negb (missing (response_id q)).

Definition response_key (q : question_row) : Z :=
  match response_id q with Some z => z | None => 0 end.

Definition no_response (q : question_row) : grading_result :=
  {| res_questionId := question_id q;
     res_responseId := None;
     res_score := zero;
     res_feedback := "No response provided";
     res_needsManualGrading := VBool false |}.

(** The submission once finalized with a total at a time. *)
Definition finalized (s : submission) (total : number) (t : Z) : submission :=
  {| submission_id := submission_id s;
     sub_assignment_id := sub_assignment_id s;
     sub_student_id := sub_student_id s;
     status := "graded";
     total_score := Some total;
     sub_graded_at := Some t;
     sub_graded_by := sub_graded_by s |}.

(** The submission once finalized by a grader. *)
Definition finalized_by (s : submission) (total : option number)
  (graderId : option Z) (t : Z) : submission :=
  {| submission_id := submission_id s;
     sub_assignment_id := sub_assignment_id s;
     sub_student_id := sub_student_id s;
     status := "graded";
     total_score := total;
     sub_graded_at := Some t;
     sub_graded_by := graderId |}.

(** A response with the score a grader recorded. *)
Definition graded_by_hand (r : question_response) (score : option number)
  (feedback : string) (graderId : option Z) (t : Z) : question_response :=
  {| r_response_id := r_response_id r;
     r_submission_id := r_submission_id r;
     r_question_id := r_question_id r;
     r_response_data := r_response_data r;
     r_score := score;
     r_feedback := Some feedback;
     r_graded_at := Some t;
     r_graded_by := graderId |}.

(** The scores of the responses of a submission, as stored. *)
Definition stored_scores (submissionId : Z) (d : database) : list number :=
  flat_map
    (fun r =>
       if r_submission_id r =? submissionId
       then match r_score r with Some x => [x] | None => [] end
       else [])
    (question_responses d).

(** The row the questions query builds for a response: its question and
    the type of that question, found by their keys. *)
Definition row_of (d : database) (r : question_response)
  : option question_row :=
  match find (fun q => q_question_id q =? r_question_id r) (questions d) with
  | Some q =>
      match find (fun qt => q_type_id q =? type_id qt) (question_types d) with
      | Some qt => Some (Sql.question_columns q qt (Some r))
      | None => None
      end
  | None => None
  end.

(** The store around one submission: the primary keys of responses,
    questions and question types, and, which no constraint of the schema
    enforces, every response of the submission answers a question of the
    submission's assignment. *)
Record consistent (submissionId assignmentId : Z) (d : database) : Prop := {
  response_keys : NoDup (map r_response_id (question_responses d));
  question_keys : NoDup (map q_question_id (questions d));
  type_keys : NoDup (map type_id (question_types d));
  responses_answer_assignment :
    forall r,
      In r (question_responses d) ->
      r_submission_id r = submissionId ->
      r_response_id r <> 0
      /\ exists q qt,
           In q (questions d)
           /\ q_question_id q = r_question_id r
           /\ q_assignment_id q = assignmentId
           /\ In qt (question_types d)
           /\ type_id qt = q_type_id q
}.

(** A response of the submission joins a question. *)
Definition joins (submissionId : Z) (q : question) (r : question_response)
  : bool :=
  (q_question_id q =? r_question_id r)
  && (r_submission_id r =? submissionId).

(** Two states of the store that differ at most in the rows of the
    responses. *)
Definition same_but_responses (d d' : database) : Prop :=
  submissions d' = submissions d
  /\ assignments d' = assignments d
  /\ question_types d' = question_types d
  /\ questions d' = questions d
  /\ assignment_categories d' = assignment_categories d
  /\ grading_scales d' = grading_scales d
  /\ course_grading_scales d' = course_grading_scales d
  /\ grading_scale_thresholds d' = grading_scale_thresholds d
  /\ enrollments d' = enrollments d.

Section RunVocabulary.

Variable env : host.

(** The verdict of the strategy on a row (a placeholder if it throws). *)
Definition verdict_of (q : question_row) : verdict :=
  match gradeQuestion env q with
  | Normal v => v
  | Thrown => invalid_format
  end.

(** The strategy throws on an answered row. *)
Definition throws (q : question_row) : bool :=
  has_response q
  && match gradeQuestion env q with Thrown => true | Normal _ => false end.

(** The question is flagged for manual grading in the run. *)
Definition flagged (q : question_row) : bool :=
  has_response q && truthy (needsManualGrading (verdict_of q)).

(** The score of the row's response is written in the run. *)
Definition written (q : question_row) : bool :=
  has_response q && negb (truthy (needsManualGrading (verdict_of q))).

(** The entry of [gradingResults] for a row. *)
Definition result_of (q : question_row) : grading_result :=
  if has_response q
  then {| res_questionId := question_id q;
          res_responseId := response_id q;
          res_score := score (verdict_of q);
          res_feedback := feedback (verdict_of q);
          res_needsManualGrading := needsManualGrading (verdict_of q) |}
  else no_response q.

(** The score write of one row, when there is one. *)
Definition write_score (t : Z) (d : database) (q : question_row) : database :=
  if written q
  then Sql.update_response_score (score (verdict_of q)) (feedback (verdict_of q))
         (response_key q) t d
  else d.

(** What the score write of a row does to one stored response. *)
Definition rescore (t : Z) (r : question_response) (q : question_row)
  : question_response :=
  if written q && (r_response_id r =? response_key q)
  then {| r_response_id := r_response_id r;
          r_submission_id := r_submission_id r;
          r_question_id := r_question_id r;
          r_response_data := r_response_data r;
          r_score := Some (score (verdict_of q));
          r_feedback := Some (feedback (verdict_of q));
          r_graded_at := Some t;
          r_graded_by := r_graded_by r |}
  else r.

(** The scores the run gives the responses. *)
Definition response_scores (rows : list question_row) : list number :=
  map (fun q => score (verdict_of q)) (filter has_response rows).

End RunVocabulary.

(** A host whose similarity ratio is a given number, and a short-answer
    question for four points without hints. *)
Module SampleSimilarity.

Local Open Scope string_scope.

Definition host_with (ratio : number) : host :=
  {| tokenize := fun s => [s];
     stem := fun s => s;
     compareTwoStrings := fun _ _ => ratio;
     parseFloat := fun _ => NaN |}.

Definition capital : question_row :=
  answered "short_answer" 4 (VStr "Paris") (VStr "Paris, France") None.

End SampleSimilarity.

(** *** Selections, pairs and answer keys *)

(** The options a student ticked that are not right, and the right
    options the student did not tick. *)
Definition wrong_selections (correctAnswers studentAnswers : list value) : nat :=
  List.length (filter (fun answer => negb (includes correctAnswers answer))
                      studentAnswers).

Definition missed_options (correctAnswers studentAnswers : list value) : nat :=
  List.length (filter (fun answer => negb (includes studentAnswers answer))
                      correctAnswers).

(** The question lists its options in an array that is not empty, or
    has no list of options at all. *)
Definition options_listed (q : question_row) : Prop :=
  truthy (options q) = false
  \/ exists items, options q = VArr items /\ items <> [].

(** [totalOptions] of a multiple-answer question. *)
Definition options_count (q : question_row) (correctAnswers : list value)
  : number :=
  if truthy (options q) then length_of (options q)
  else of_nat (List.length correctAnswers + 2).

(** A JSON leaf that [===] compares by value and that equals itself. *)
Definition comparable (v : value) : bool :=
  match v with
  | VNull | VBool _ | VStr _ => true
  | VNum (Fin _) | VNum (Inf _) => true
  | _ => false
  end.

(** [correctCount] and [totalMatches] of a matching question. *)
Definition matched_pairs (q : question_row) : nat :=
  List.length
    (filter (fun kv => strict_eqb (get (correct_answer q) (fst kv)) (snd kv))
            (entries (response_data q))).

Definition total_pairs (q : question_row) : nat :=
  List.length (entries (correct_answer q)).

Definition is_text (v : value) : bool :=
  match v with VStr _ => true | _ => false end.

(** A blank that was answered, where the answer or the accepted answer
    the comparison meets first is not a string. *)
Definition ill_typed_blank (studentAnswers : value) (blank : string * value)
  : bool :=
  let given := get studentAnswers (fst blank) in
  truthy given
  && match snd blank with
     | VArr [] => false
     | VArr (first :: _) => negb (is_text given) || negb (is_text first)
     | accepted => negb (is_text given) || negb (is_text accepted)
     end.

(** Two finite numbers of the same value. *)
Definition same_number (a b : number) : bool :=
  match a, b with
  | Fin x, Fin y => Qeq_bool x y
  | _, _ => false
  end.

(** A parsed JSON payload: no [undefined], and every number is finite. *)
Fixpoint is_json (v : value) : bool :=
  match v with
  | VUndef => false
  | VNull | VBool _ | VStr _ => true
  | VNum (Fin _) => true
  | VNum _ => false
  | VArr items => forallb is_json items
  | VObj fields => forallb (fun kv => is_json (snd kv)) fields
  end.

(** A string of blanks only. *)
Fixpoint all_blank (s : string) : bool :=
  match s with
  | EmptyString => true
  | String c s' => is_space c && all_blank s'
  end.

(** *** Reports and frames *)

(** The sum of the scores of the results that are not flagged. *)
Definition unflagged_total (results : list grading_result) : number :=
  Num.sum (map res_score
               (filter (fun r => negb (truthy (res_needsManualGrading r)))
                       results)).

(** The rows of the other submissions. *)
Definition other_responses (submissionId : Z) (d : database)
  : list question_response :=
  filter (fun r => negb (r_submission_id r =? submissionId))
         (question_responses d).

Definition other_submissions (submissionId : Z) (d : database)
  : list submission :=
  filter (fun s => negb (submission_id s =? submissionId)) (submissions d).

(** Two states of the store that differ at most in the responses and
    the submissions. *)
Definition same_but_grades (d d' : database) : Prop :=
  assignments d' = assignments d
  /\ question_types d' = question_types d
  /\ questions d' = questions d
  /\ assignment_categories d' = assignment_categories d
  /\ grading_scales d' = grading_scales d
  /\ course_grading_scales d' = course_grading_scales d
  /\ grading_scale_thresholds d' = grading_scale_thresholds d
  /\ enrollments d' = enrollments d.

(** A response row after a handler: what the student sent is kept, and a
    row that is not the named one is kept whole. *)
Definition only_graded (responseId : option Z) (r r' : question_response)
  : Prop :=
  r_response_id r' = r_response_id r
  /\ r_submission_id r' = r_submission_id r
  /\ r_question_id r' = r_question_id r
  /\ r_response_data r' = r_response_data r
  /\ (Some (r_response_id r) <> responseId -> r' = r).

(** Two states of the store that differ at most in the enrollments. *)
Definition same_but_enrollments (d d' : database) : Prop :=
  submissions d' = submissions d
  /\ assignments d' = assignments d
  /\ question_types d' = question_types d
  /\ questions d' = questions d
  /\ question_responses d' = question_responses d
  /\ assignment_categories d' = assignment_categories d
  /\ grading_scales d' = grading_scales d
  /\ course_grading_scales d' = course_grading_scales d
  /\ grading_scale_thresholds d' = grading_scale_thresholds d.

(** An enrollment row after a handler: a row of another student or of
    another course is kept whole. *)
Definition only_final_grade (studentId courseId : option Z)
  (e e' : enrollment) : Prop :=
  enr_course_id e' = enr_course_id e
  /\ enr_student_id e' = enr_student_id e
  /\ ((Some (enr_student_id e), Some (enr_course_id e))
      <> (studentId, courseId) -> e' = e).

(** The loop over the categories on tables that do not change: the
    final grade and the breakdown it accumulates. *)
Fixpoint categories_graded (studentId : Z) (d : database)
  (categories : list assignment_category) (finalGrade : number)
  (categoryGrades : list category_grade) : number * list category_grade :=
  match categories with
  | [] => (finalGrade, categoryGrades)
  | category :: rest =>
      let rows := Sql.select_assignments studentId (category_id category) d in
      let graded := grade_category category rows in
      match rows with
      | [] => categories_graded studentId d rest finalGrade
                (categoryGrades ++ [graded])
      | _ => categories_graded studentId d rest
               (add finalGrade (cg_weightedScore graded))
               (categoryGrades ++ [graded])
      end
  end.

Definition final_grade_on (studentId courseId : Z) (d : database)
  : number * list category_grade :=
  categories_graded studentId d (Sql.select_categories courseId d) zero [].

(** The student is enrolled in the course. *)
Definition enrolled (studentId courseId : Z) (d : database) : bool :=
  existsb (fun e => (enr_student_id e =? studentId)
                    && (enr_course_id e =? courseId))
          (enrollments d).

(** *** Totals as text *)

(** The number of points in a string. *)
Fixpoint dots (s : string) : nat :=
  match s with
  | EmptyString => O
  | String c s' => if Ascii.eqb c "."%char then S (dots s') else dots s'
  end.

Definition is_digit (c : ascii) : bool :=
  (48 <=? nat_of_ascii c)%nat && (nat_of_ascii c <=? 57)%nat.

(** A string of digits, points and minus signs. *)
Fixpoint figures (s : string) : bool :=
  match s with
  | EmptyString => true
  | String c s' =>
      (is_digit c || Ascii.eqb c "."%char || Ascii.eqb c "-"%char)
      && figures s'
  end.

(** The text of a finite DECIMAL: figures, with one point. *)
Definition decimal_shaped (s : string) : bool :=
  figures s && (dots s =? 1)%nat.

(** The totals among the rows of a category, as the query returns
    them. *)
Definition totals_read (rows : list (assignment * option string))
  : list string :=
  flat_map (fun r => match snd r with Some s => [s] | None => [] end) rows.

(** [totalPoints] of the rows of a category. *)
Definition points_read (rows : list (assignment * option string)) : number :=
  Num.sum (map (fun r => of_Z (total_points (fst r))) rows).

(** The stored total of a submission is absent or finite. *)
Definition finite_total (s : submission) : bool :=
  match total_score s with
  | Some (Fin _) | None => true
  | Some _ => false
  end.

(** [earnedPoints] after [k] totals were read: the number 0 while none
    was, and then the text of 0 followed by figures with [k] points. *)
Definition appended (k : nat) (earnedPoints : scalar) : Prop :=
  match earnedPoints with
  | SNum n => n = zero /\ k = O
  | SText t =>
      exists s, t = String "0"%char s /\ figures s = true /\ dots s = k
  end.

(** Questions for the examples of the strategies: a selection among the
    options "a" to "d" of which "a" and "b" are right, for four points; a
    matching of two pairs; the hints of a numeric question. *)
Module SampleAnswers.

Local Open Scope string_scope.

Definition four_options : value :=
  VArr [VStr "a"; VStr "b"; VStr "c"; VStr "d"].

Definition selection (listed : value) (given : list value) : question_row :=
  {| question_id := 1;
     points := 4;
     correct_answer := VArr [VStr "a"; VStr "b"];
     options := listed;
     question_type := "multiple_answer";
     response_id := Some 1;
     response_data := VArr given;
     metadata := None |}.

Definition pairs : list (string * value) :=
  [("1", VStr "x"); ("2", VStr "y")].

Definition matching (key given : list (string * value)) : question_row :=
  answered "matching" 4 (VObj key) (VObj given) None.

Definition numeric : hints :=
  {| requiresManualGrading := VUndef;
     caseSensitive := VUndef;
     alwaysReview := VUndef;
     reviewIncorrect := VUndef;
     hint_type := VStr "numeric";
     similarityThreshold := None;
     reviewThreshold := None;
     tolerance := None |}.

(** An exam of a numeric question and a blank.  Submission 6 answers
    both, the blank with a number; submission 7 answers nothing. *)
Definition exam_db : database :=
  {| submissions :=
       [ Sample.mk_submission 6 5 7 "submitted" None;
         Sample.mk_submission 7 5 8 "submitted" None ];
     assignments := [ Sample.mk_assignment 5 3 10 "Exam" ];
     question_types :=
       [ {| type_id := 7; type_name := "fill_in_blank" |};
         {| type_id := 8; type_name := "computational" |} ];
     questions :=
       [ {| q_question_id := 20; q_assignment_id := 5; q_type_id := 8;
            q_points := 4; q_options := VNull;
            q_correct_answer := VNum (of_Z 10);
            q_metadata := Some numeric; q_order_num := Some 1 |};
         Sample.mk_question 21 5 7 6 (VObj [("1", VStr "Paris")]) 2 ];
     question_responses :=
       [ Sample.mk_response 31 6 20 (VNum (of_Z 10));
         Sample.mk_response 32 6 21 (VObj [("1", VNum (of_Z 42))]) ];
     assignment_categories := [];
     grading_scales := [];
     course_grading_scales := [];
     grading_scale_thresholds := [];
     enrollments := [] |}.

Definition exam_world : world :=
  {| db := exam_db; answers_left := None; store_failed := false;
     now := 2000 |}.

End SampleAnswers.

(** A response after a run for its submission: rescored by its own row
    when it is a response of the submission, kept otherwise. *)
Definition graded_in_run (env : host) (submissionId t : Z) (d : database)
  (r : question_response) : question_response :=
  if r_submission_id r =? submissionId
  then match row_of d r with
       | Some x => rescore env t r x
       | None => r
       end
  else r.

(** The entry of the breakdown for a category without assignments. *)
Definition nothing_published (category : assignment_category) : category_grade :=
  {| cg_categoryId := category_id category;
     cg_name := cat_name category;
     cg_weight := Fin (weight category);
     cg_percentage := zero;
     cg_weightedScore := zero;
     cg_assignments := [] |}.

(** A course whose only category has no assignment yet. *)
Module SampleCourse.

Local Open Scope string_scope.

Definition labs : assignment_category :=
  {| category_id := 9; cat_course_id := 3; cat_name := "Labs"; weight := 100 |}.

Definition new_course_db : database :=
  {| submissions := [];
     assignments := [];
     question_types := [];
     questions := [];
     question_responses := [];
     assignment_categories := [labs];
     grading_scales := [];
     course_grading_scales := [];
     grading_scale_thresholds := [];
     enrollments :=
       [ {| enr_course_id := 3; enr_student_id := 7; final_grade := None |} ]
  |}.

Definition new_course_world : world :=
  {| db := new_course_db; answers_left := None; store_failed := false;
     now := 3000 |}.

End SampleCourse.

(** Two stores that the schema admits and the claims about a run do not
    expect.  In the first, submission 8 answers a true-or-false question
    rightly and then a blank with the number 42.  In the second,
    submission 9 is for quiz 7 and also holds an answer, which a grader
    has scored 5, to the question of quiz 8. *)
Module SampleIrregular.

Local Open Scope string_scope.

Definition mistyped_db : database :=
  {| submissions := [ Sample.mk_submission 8 6 7 "submitted" None ];
     assignments := [ Sample.mk_assignment 6 3 9 "Capitals" ];
     question_types :=
       [ {| type_id := 1; type_name := "true_false" |};
         {| type_id := 7; type_name := "fill_in_blank" |} ];
     questions :=
       [ Sample.mk_question 30 6 1 3 (VBool true) 1;
         Sample.mk_question 31 6 7 6 (VObj [("1", VStr "Paris")]) 2 ];
     question_responses :=
       [ Sample.mk_response 41 8 30 (VBool true);
         Sample.mk_response 42 8 31 (VObj [("1", VNum (of_Z 42))]) ];
     assignment_categories := [];
     grading_scales := [];
     course_grading_scales := [];
     grading_scale_thresholds := [];
     enrollments := [] |}.

Definition mistyped_world : world :=
  {| db := mistyped_db; answers_left := None; store_failed := false;
     now := 3000 |}.

Definition stray_db : database :=
  {| submissions := [ Sample.mk_submission 9 7 7 "submitted" None ];
     assignments :=
       [ Sample.mk_assignment 7 3 3 "Quiz 1";
         Sample.mk_assignment 8 3 5 "Quiz 2" ];
     question_types := [ {| type_id := 1; type_name := "true_false" |} ];
     questions :=
       [ Sample.mk_question 40 7 1 3 (VBool true) 1;
         Sample.mk_question 41 8 1 5 (VBool true) 1 ];
     question_responses :=
       [ Sample.mk_response 51 9 40 (VBool true);
         {| r_response_id := 52; r_submission_id := 9; r_question_id := 41;
            r_response_data := VBool true; r_score := Some (of_Z 5);
            r_feedback := Some "Good"; r_graded_at := Some 900;
            r_graded_by := Some 2 |} ];
     assignment_categories := [];
     grading_scales := [];
     course_grading_scales := [];
     grading_scale_thresholds := [];
     enrollments := [] |}.

Definition stray_world : world :=
  {| db := stray_db; answers_left := None; store_failed := false;
     now := 3000 |}.

End SampleIrregular.

(** ** Queries and the handler's state *)

Lemma select_answered {A : Type} (q : database -> A) (w : world) :
  answers w -> select q w = (Normal (q (db w)), after_read w).
Proof.
  unfold answers, select, pool_query, after_read.
  destruct (answers_left w) as [[|n]|]; intro H; try reflexivity.
  now elim H.
Qed.

Lemma select_failed {A : Type} (q : database -> A) (w : world) :
  answers_left w = Some O -> select q w = (Thrown, refuse w).
Proof.
  unfold select, pool_query. now intros ->.
Qed.

Lemma execute_answered (u : Z -> database -> database) (w : world) :
  answers w ->
  execute u w =
  (Normal tt,
   {| db := u (now w) (db w);
      answers_left := option_map Nat.pred (answers_left w);
      store_failed := store_failed w;
      now := now w |}).
Proof.
  unfold answers, execute, pool_query.
  destruct (answers_left w) as [[|n]|]; intro H; try reflexivity.
  now elim H.
Qed.

Lemma execute_failed (u : Z -> database -> database) (w : world) :
  answers_left w = Some O -> execute u w = (Thrown, refuse w).
Proof.
  unfold execute, pool_query. now intros ->.
Qed.

Lemma bind_select {A B : Type} (q : database -> A) (k : A -> io B)
  (w : world) :
  answers w -> bind (select q) k w = k (q (db w)) (after_read w).
Proof. intro H. unfold bind. now rewrite (select_answered q w H). Qed.

Lemma bind_execute {B : Type} (u : Z -> database -> database)
  (k : unit -> io B) (w : world) :
  answers w ->
  bind (execute u) k w =
  k tt {| db := u (now w) (db w);
          answers_left := option_map Nat.pred (answers_left w);
          store_failed := store_failed w;
          now := now w |}.
Proof. intro H. unfold bind. now rewrite (execute_answered u w H). Qed.

Lemma bind_ret {A B : Type} (a : A) (k : A -> io B) (w : world) :
  bind (ret a) k w = k a w.
Proof. reflexivity. Qed.

Lemma reliable_answers (w : world) : reliable w -> answers w.
Proof. unfold reliable, answers. now intros ->. Qed.

Lemma reliable_after_read (w : world) : reliable w -> after_read w = w.
Proof.
  destruct w as [d l f t]. unfold reliable, after_read. simpl. now intros ->.
Qed.

(** The submission query returns the first row with the key, joined with
    its assignment. *)
Lemma select_submission_none (submissionId : Z) (d : database) :
  find_submission submissionId d = None ->
  Sql.select_submission submissionId d = [].
Proof.
  unfold find_submission, Sql.select_submission.
  induction (submissions d) as [|s l IH]; simpl; [reflexivity|].
  destruct (submission_id s =? submissionId); [discriminate|exact IH].
Qed.

Lemma find_filter_head {A : Type} (f : A -> bool) (l : list A) (a : A) :
  find f l = Some a -> exists rest, filter f l = a :: rest.
Proof.
  induction l as [|x l IH]; simpl; [discriminate|].
  destruct (f x); [intros [= ->]; eauto | exact IH].
Qed.

Lemma select_submission_some (submissionId : Z) (d : database)
  (s : submission) (a : assignment) :
  find_submission submissionId d = Some s ->
  find_assignment (sub_assignment_id s) d = Some a ->
  exists rest, Sql.select_submission submissionId d = (s, a) :: rest.
Proof.
  unfold find_submission, find_assignment, Sql.select_submission.
  intros Hs Ha. apply find_filter_head in Ha. destruct Ha as [la Ha].
  induction (submissions d) as [|s0 l IH]; simpl in *; [discriminate|].
  destruct (submission_id s0 =? submissionId).
  - injection Hs as ->. rewrite Ha. simpl. eauto.
  - destruct (IH Hs) as [rest ->]. simpl. eauto.
Qed.

(** ** Rejections of [gradeSubmission] *)

Section Rejections.

Variable env : host.

Local Open Scope string_scope.

(** A request for a key that no submission has. *)
Lemma gradeSubmission_unknown_key (submissionId : Z) (w : world) :
  submissionId <> 0 ->
  answers w ->
  find_submission submissionId (db w) = None ->
  gradeSubmission env (Some submissionId) w
  = (reply 404 "Submission not found", after_read w).
Proof.
  intros Hid Hw Hnone.
  assert (Hm : missing (Some submissionId) = false).
  { simpl. now apply Z.eqb_neq. }
  unfold gradeSubmission, try_catch, gradeSubmission_body. rewrite Hm.
  rewrite (bind_select _ _ w Hw).
  now rewrite (select_submission_none _ _ Hnone).
Qed.

(** A request for a submission that is graded already. *)
Lemma gradeSubmission_already_graded (submissionId : Z) (w : world)
  (s : submission) (a : assignment) :
  submissionId <> 0 ->
  answers w ->
  find_submission submissionId (db w) = Some s ->
  find_assignment (sub_assignment_id s) (db w) = Some a ->
  status s = "graded" ->
  gradeSubmission env (Some submissionId) w
  = (reply 400 "Submission is already graded", after_read w).
Proof.
  intros Hid Hw Hs Ha Hst.
  assert (Hm : missing (Some submissionId) = false).
  { simpl. now apply Z.eqb_neq. }
  unfold gradeSubmission, try_catch, gradeSubmission_body. rewrite Hm.
  rewrite (bind_select _ _ w Hw).
  destruct (select_submission_some _ _ _ _ Hs Ha) as [rest ->].
  now rewrite Hst.
Qed.

(** C6.  When the store answers and the request names a submission:
    if no row has that key, [gradeSubmission] fails with 404 "Submission
    not found"; if the row's status is already 'graded', it fails with
    the conflict reply "Submission is already graded".  In both cases no
    table is modified: a finalized submission is rejected, never graded
    again or overwritten. *)
Theorem gradeSubmission_rejects_missing_and_graded
  (submissionId : Z) (w : world) :
  submissionId <> 0 ->
  answers w ->
  (find_submission submissionId (db w) = None ->
   fst (gradeSubmission env (Some submissionId) w)
     = reply 404 "Submission not found"
   /\ db (snd (gradeSubmission env (Some submissionId) w)) = db w)
  /\
  (forall s a,
     find_submission submissionId (db w) = Some s ->
     find_assignment (sub_assignment_id s) (db w) = Some a ->
     status s = "graded" ->
     fst (gradeSubmission env (Some submissionId) w)
       = reply 400 "Submission is already graded"
     /\ db (snd (gradeSubmission env (Some submissionId) w)) = db w).
Proof.
  intros Hid Hw. split.
  - intros Hnone.
    rewrite (gradeSubmission_unknown_key submissionId w Hid Hw Hnone).
    now split.
  - intros s a Hs Ha Hst.
    rewrite (gradeSubmission_already_graded submissionId w s a Hid Hw Hs Ha
               Hst).
    now split.
Qed.

End Rejections.

(** The rejections on the sample course: no submission 9; submission 1 is
    already graded. *)
Lemma gradeSubmission_rejects_witness :
  (fst (gradeSubmission Sample.sample_host (Some 9) Sample.sample_world)
     = reply 404 "Submission not found"
   /\ db (snd (gradeSubmission Sample.sample_host (Some 9) Sample.sample_world))
      = Sample.sample_db)
  /\
  (fst (gradeSubmission Sample.sample_host (Some 1) Sample.sample_world)
     = reply 400 "Submission is already graded"
   /\ db (snd (gradeSubmission Sample.sample_host (Some 1) Sample.sample_world))
      = Sample.sample_db).
Proof.
  split.
  - apply (proj1 (gradeSubmission_rejects_missing_and_graded
                    Sample.sample_host 9 Sample.sample_world
                    ltac:(discriminate) ltac:(discriminate))).
    reflexivity.
  - apply (proj2 (gradeSubmission_rejects_missing_and_graded
                    Sample.sample_host 1 Sample.sample_world
                    ltac:(discriminate) ltac:(discriminate))
             (Sample.mk_submission 1 1 7 "graded" (Some (of_Z 10)))
             (Sample.mk_assignment 1 1 10 "Homework 1"));
      reflexivity.
Defined.

(** ** A course without categories *)

Lemma select_categories_none (courseId : Z) (d : database) :
  (forall c, In c (assignment_categories d) -> cat_course_id c <> courseId) ->
  Sql.select_categories courseId d = [].
Proof.
  unfold Sql.select_categories.
  induction (assignment_categories d) as [|c l IH]; simpl; intros H;
    [reflexivity|].
  destruct (Z.eqb_spec (cat_course_id c) courseId) as [E|_].
  - elim (H c (or_introl eq_refl) E).
  - apply IH. intros c' Hc'. apply H. now right.
Qed.

(** C10.  When the request names a student and a course, the store
    answers, and the course has no assignment category,
    [calculateFinalGrade] replies 404 "No assignment categories found for
    this course": no final grade (in particular no 0) is returned and no
    table is written. *)
Theorem calculateFinalGrade_without_categories
  (studentId courseId : Z) (w : world) :
  studentId <> 0 ->
  courseId <> 0 ->
  answers w ->
  (forall c, In c (assignment_categories (db w)) ->
             cat_course_id c <> courseId) ->
  fst (calculateFinalGrade (Some studentId) (Some courseId) w)
    = reply 404 "No assignment categories found for this course"
  /\ db (snd (calculateFinalGrade (Some studentId) (Some courseId) w)) = db w.
Proof.
  intros Hs Hc Hw Hnone.
  unfold calculateFinalGrade, try_catch, calculateFinalGrade_body, missing.
  apply Z.eqb_neq in Hs, Hc. rewrite Hs, Hc. cbn [orb].
  rewrite (bind_select _ _ w Hw).
  rewrite (select_categories_none _ _ Hnone). now simpl.
Qed.

(** Course 5 of the sample has no category. *)
Lemma calculateFinalGrade_without_categories_witness :
  fst (calculateFinalGrade (Some 7) (Some 5) Sample.sample_world)
    = reply 404 "No assignment categories found for this course"
  /\ db (snd (calculateFinalGrade (Some 7) (Some 5) Sample.sample_world))
     = Sample.sample_db.
Proof.
  apply (calculateFinalGrade_without_categories 7 5 Sample.sample_world).
  - discriminate.
  - discriminate.
  - discriminate.
  - intros c Hc. simpl in Hc.
    repeat (destruct Hc as [<-|Hc]; [discriminate|]). contradiction.
Defined.

(** ** The manual-only hint *)

Section ManualOnly.

Variable env : host.

Local Open Scope string_scope.

(** C4, as the code has it.  A set [metadata.requiresManualGrading]
    short-circuits the fill_in_blank, short_answer and computational
    strategies, before their own algorithm runs, to score 0 with
    [needsManualGrading = true], provided the correct answer and the
    response data are both present.  The true_false, multiple_choice,
    multiple_answer and matching strategies never read the hints: the
    question is graded as it would be without them, and is not flagged.
    Every other type (coding, essay, diagram, oral, ...) gets score 0
    and the flag with or without the hint. *)
Theorem requiresManualGrading_by_type (q : question_row) (m : hints) :
  metadata q = Some m ->
  truthy (requiresManualGrading m) = true ->
  (In (question_type q) ["fill_in_blank"; "short_answer"; "computational"] ->
   truthy (correct_answer q) = true ->
   truthy (response_data q) = true ->
   exists v, gradeQuestion env q = Normal v
             /\ score v = zero /\ needsManualGrading v = VBool true)
  /\
  (In (question_type q)
      ["true_false"; "multiple_choice"; "multiple_answer"; "matching"] ->
   gradeQuestion env q = gradeQuestion env (with_metadata q None)
   /\ exists v, gradeQuestion env q = Normal v
                /\ needsManualGrading v = VBool false)
  /\
  (~ In (question_type q)
        ["true_false"; "multiple_choice"; "multiple_answer"; "matching";
         "fill_in_blank"; "short_answer"; "computational"] ->
   exists v, gradeQuestion env q = Normal v
             /\ score v = zero /\ needsManualGrading v = VBool true).
Proof.
  intros Hm Hflag. repeat split.
  - intros Hty Hc Hr. exists requires_manual.
    assert (Hmeta : metadata_or_empty q = m)
      by (unfold metadata_or_empty; now rewrite Hm).
    simpl in Hty.
    destruct Hty as [E|[E|[E|[]]]]; unfold gradeQuestion; rewrite <- E; simpl;
      [ unfold gradeFillInBlank | unfold gradeShortAnswer
      | unfold gradeComputational ];
      rewrite Hc, Hr, Hmeta, Hflag; simpl; auto.
  - simpl in H.
    destruct H as [E|[E|[E|[E|[]]]]]; unfold gradeQuestion; simpl;
      rewrite <- E; reflexivity.
  - simpl in H.
    destruct H as [E|[E|[E|[E|[]]]]]; unfold gradeQuestion; rewrite <- E;
      simpl; eexists; split; reflexivity.
  - intros Hty. simpl in Hty. unfold gradeQuestion.
    destruct (String.eqb_spec (question_type q) "true_false") as [E|_];
      [elim Hty; rewrite E; tauto|].
    destruct (String.eqb_spec (question_type q) "multiple_choice") as [E|_];
      [elim Hty; rewrite E; tauto|].
    destruct (String.eqb_spec (question_type q) "multiple_answer") as [E|_];
      [elim Hty; rewrite E; tauto|].
    destruct (String.eqb_spec (question_type q) "matching") as [E|_];
      [elim Hty; rewrite E; tauto|].
    destruct (String.eqb_spec (question_type q) "fill_in_blank") as [E|_];
      [elim Hty; rewrite E; tauto|].
    destruct (String.eqb_spec (question_type q) "short_answer") as [E|_];
      [elim Hty; rewrite E; tauto|].
    destruct (String.eqb_spec (question_type q) "computational") as [E|_];
      [elim Hty; rewrite E; tauto|].
    simpl.
    destruct (String.eqb (question_type q) "coding");
      eexists; repeat split; reflexivity.
Qed.

End ManualOnly.

(** A short-answer question under the manual-only hint. *)
Lemma requiresManualGrading_by_type_witness :
  exists v,
    gradeQuestion Sample.sample_host
      (answered "short_answer" 4 (VStr "Paris") (VStr "Rome")
                (Some manual_only))
    = Normal v
    /\ score v = zero /\ needsManualGrading v = VBool true.
Proof.
  apply (proj1 (requiresManualGrading_by_type Sample.sample_host
                  (answered "short_answer" 4 (VStr "Paris") (VStr "Rome")
                            (Some manual_only))
                  manual_only eq_refl eq_refl)).
  - simpl. tauto.
  - reflexivity.
  - reflexivity.
Defined.

(** C4, as stated, fails: a multiple-choice question that carries the
    manual-only hint and is answered correctly gets its full points and
    no flag. *)
Lemma requiresManualGrading_not_for_every_type :
  ~ (forall (env : host) (q : question_row) (m : hints),
       metadata q = Some m ->
       truthy (requiresManualGrading m) = true ->
       exists v, gradeQuestion env q = Normal v
                 /\ score v = zero
                 /\ truthy (needsManualGrading v) = true).
Proof.
  intro claim.
  destruct (claim Sample.sample_host
              (answered "multiple_choice" 5 (VStr "b") (VStr "b")
                        (Some manual_only))
              manual_only eq_refl eq_refl) as [v [Hv [Hscore _]]].
  vm_compute in Hv. injection Hv as <-. discriminate Hscore.
Qed.

(** ** Manual grading of one response *)

(** C9 (failing input).  Submission 5 of the sample answers three
    questions and none has a score.  Recording the score 2 for the essay
    (response 25) finalizes the submission with that score as its total,
    although the responses 23 and 24 of the same submission still have
    no score. *)
Theorem manualGradeQuestion_finalizes_too_early :
  let run :=
    manualGradeQuestion (Some 25) (Some (Some (of_Z 2))) None (Some 99)
                        Sample.sample_world in
  statusCode (fst run) = 200
  /\ find_submission 5 (db (snd run))
     = Some {| submission_id := 5; sub_assignment_id := 4;
               sub_student_id := 8; status := "graded";
               total_score := Some (of_Z 2);
               sub_graded_at := Some 1000; sub_graded_by := Some 99 |}
  /\ map (fun r => (r_response_id r, r_score r))
         (filter (fun r => r_submission_id r =? 5)
                 (question_responses (db (snd run))))
     = [(23, None); (24, None); (25, Some (of_Z 2))].
Proof. vm_compute. repeat split. Qed.

(** The same shows in the ordinary sequence: [gradeSubmission] scores the
    two choice questions of submission 5 (0 and 5) and leaves the flagged
    essay; the manual score 2 for the essay then finalizes the submission
    with the total 2, not 7. *)
Example manualGradeQuestion_total_is_one_score :
  let graded :=
    snd (gradeSubmission Sample.sample_host (Some 5) Sample.sample_world) in
  let run :=
    manualGradeQuestion (Some 25) (Some (Some (of_Z 2))) None (Some 99)
                        graded in
  map (fun r => (r_response_id r, r_score r))
      (filter (fun r => r_submission_id r =? 5)
              (question_responses (db (snd run))))
  = [(23, Some (of_Z 0)); (24, Some (of_Z 5)); (25, Some (of_Z 2))]
  /\ option_map total_score (find_submission 5 (db (snd run)))
     = Some (Some (of_Z 2)).
Proof. vm_compute. split; reflexivity. Qed.

(** ** Comparisons of numbers *)

#[local] Arguments Qred : simpl never.



(** ** Short answers *)

Section ShortAnswer.

Variable env : host.

Local Open Scope string_scope.


End ShortAnswer.


(** A similarity of exactly 0.8 gets the full four points and no flag;
    0.75 gets two points and the flag; 0.5 gets nothing and the flag. *)
Example gradeShortAnswer_at_threshold :
  gradeShortAnswer (SampleSimilarity.host_with (Fin (8 # 10)))
                   SampleSimilarity.capital
  = Normal {| score := of_Z 4;
              feedback := "Answer matches expected response";
              needsManualGrading := VBool false |}
  /\ gradeShortAnswer (SampleSimilarity.host_with (Fin (75 # 100)))
                      SampleSimilarity.capital
     = Normal {| score := of_Z 2;
                 feedback := "Answer partially matches expected response";
                 needsManualGrading := VBool true |}
  /\ gradeShortAnswer (SampleSimilarity.host_with (Fin (5 # 10)))
                      SampleSimilarity.capital
     = Normal {| score := zero;
                 feedback := "Answer does not match expected response";
                 needsManualGrading := VBool true |}.
Proof. repeat split. Qed.


(** ** Fill in the blank *)

Section FillInBlank.

Variable env : host.

Local Open Scope string_scope.





End FillInBlank.



(** ** Arithmetic of numbers *)

Lemma Qred_idempotent (q : Q) : Qred (Qred q) = Qred q.
Proof. apply Qred_complete, Qred_correct. Qed.

Lemma add_canonical (a b : number) : canonical (add a b).
Proof.
  destruct a as [x| |p], b as [y| |q]; simpl; auto using Qred_idempotent.
  now destruct (Bool.eqb p q).
Qed.

Lemma zero_canonical : canonical zero.
Proof. reflexivity. Qed.

Lemma add_zero_r (a : number) : canonical a -> add a zero = a.
Proof.
  destruct a as [x| |p]; simpl; auto. intros H. f_equal.
  rewrite <- H at 2. apply Qred_complete. unfold inject_Z. lra.
Qed.

Lemma add_comm (a b : number) : add a b = add b a.
Proof.
  destruct a as [x| |p], b as [y| |q]; simpl; auto.
  - f_equal. apply Qred_complete. lra.
  - now destruct p, q.
Qed.

Lemma add_assoc (a b c : number) : add (add a b) c = add a (add b c).
Proof.
  destruct a as [x| |p], b as [y| |q], c as [z| |r]; simpl; auto;
    try (now destruct p); try (now destruct q); try (now destruct p, q);
    try (now destruct q, r); try (now destruct p, q, r).
  - f_equal. apply Qred_complete.
    pose proof (Qred_correct (x + y)). pose proof (Qred_correct (y + z)). lra.
Qed.

Lemma Qred_inject_Z (z : Z) : Qred (inject_Z z) = inject_Z z.
Proof.
  unfold Qred, inject_Z.
  generalize (Z.ggcd_gcd z 1) (Z.ggcd_correct_divisors z 1).
  destruct (Z.ggcd z 1) as [g [aa bb]]. simpl.
  rewrite Z.gcd_1_r. intros -> [H1 H2].
  rewrite Z.mul_1_l in H1, H2. now subst.
Qed.

Lemma add_of_Z (a b : Z) : add (of_Z a) (of_Z b) = of_Z (a + b).
Proof.
  unfold of_Z. simpl. f_equal.
  rewrite <- (Qred_inject_Z (a + b)).
  apply Qred_complete. now rewrite inject_Z_plus.
Qed.

(** The sum of a list from a running total. *)
Lemma sum_from (l : list number) (acc : number) :
  canonical acc -> fold_left add l acc = add acc (Num.sum l).
Proof.
  unfold Num.sum. revert acc.
  induction l as [|x l IH]; cbn [fold_left]; intros acc Hacc.
  - now rewrite add_zero_r.
  - rewrite (IH (add acc x)) by apply add_canonical.
    rewrite (IH (add zero x)) by apply add_canonical.
    rewrite add_assoc. f_equal.
    rewrite (add_assoc zero x). rewrite (add_comm zero).
    now rewrite add_zero_r by apply add_canonical.
Qed.

(** ** ORDER BY *)

Section OrderByFacts.

Context {A : Type} (leb : A -> A -> bool).

Lemma insert_by_perm (x : A) (l : list A) :
  Permutation (x :: l) (insert_by leb x l).
Proof.
  induction l as [|y l IH]; simpl; [reflexivity|].
  destruct (leb x y); [reflexivity|].
  rewrite perm_swap. now apply perm_skip.
Qed.

Lemma order_by_perm (l : list A) : Permutation l (order_by leb l).
Proof.
  induction l as [|x l IH]; simpl; [reflexivity|].
  rewrite <- insert_by_perm. now apply perm_skip.
Qed.

Hypothesis leb_total : forall a b, leb a b = false -> leb b a = true.

Lemma insert_by_sorted (x : A) (l : list A) :
  Sorted (fun a b => leb a b = true) l ->
  Sorted (fun a b => leb a b = true) (insert_by leb x l).
Proof.
  induction l as [|y l IH]; simpl; intros Hs.
  - repeat constructor.
  - destruct (leb x y) eqn:E.
    + constructor; [exact Hs|]. now constructor.
    + inversion Hs as [|? ? Hl Hhd]; subst.
      constructor; [now apply IH|].
      destruct l as [|z l]; simpl.
      * constructor. now apply leb_total.
      * destruct (leb x z); constructor; [now apply leb_total|].
        now inversion Hhd.
Qed.

Lemma order_by_sorted (l : list A) :
  Sorted (fun a b => leb a b = true) (order_by leb l).
Proof.
  induction l as [|x l IH]; simpl; [constructor|].
  now apply insert_by_sorted.
Qed.

End OrderByFacts.


(** ** The letter grade *)

Lemma min_score_desc_total (a b : grading_scale_threshold) :
  Sql.min_score_desc a b = false -> Sql.min_score_desc b a = true.
Proof.
  unfold Sql.min_score_desc. intros H.
  apply Qle_bool_iff. apply not_true_iff_false in H.
  rewrite Qle_bool_iff in H. lra.
Qed.

(** The loop stops at the first threshold whose interval contains the
    grade. *)
Lemma find_letter_first (finalGrade : number) :
  forall scale : list grading_scale_threshold,
    match find_letter finalGrade scale with
    | Some letter =>
        exists before t after,
          scale = before ++ t :: after
          /\ Forall (fun u => within u finalGrade = false) before
          /\ within t finalGrade = true
          /\ grade t = letter
    | None => Forall (fun u => within u finalGrade = false) scale
    end.
Proof.
  induction scale as [|t scale IH]; cbn [find_letter]; [constructor|].
  change (ge finalGrade (Fin (min_score t))
          && le finalGrade (Fin (max_score t)))
    with (within t finalGrade).
  destruct (within t finalGrade) eqn:W.
  - exists [], t, scale. repeat split; auto.
  - destruct (find_letter finalGrade scale) as [letter|].
    + destruct IH as [before [u [after [-> [Hb [Hu Hg]]]]]].
      exists (t :: before), u, after. repeat split; auto.
    + now constructor.
Qed.

(** C7.  The thresholds of the course's scale reach the resolver sorted
    by descending [min]; the letter it resolves is the grade of the first
    of them whose closed interval [min, max] contains the final grade,
    both ends included, and there is no letter when no interval contains
    it (no scale, or a gap).  On the sample scale, A = [90, 100] and
    B = [80, 89.99], the grade 90 resolves to A. *)
Theorem letter_grade_first_match (finalGrade : number) (courseId : Z)
  (d : database) :
  let scale := Sql.select_scale courseId d in
  Permutation (Sql.joined_scale courseId d) scale
  /\ Sorted (fun a b => (min_score b <= min_score a)%Q) scale
  /\ match find_letter finalGrade scale with
     | Some letter =>
         exists before t after,
           scale = before ++ t :: after
           /\ Forall (fun u => within u finalGrade = false) before
           /\ within t finalGrade = true
           /\ grade t = letter
     | None => Forall (fun u => within u finalGrade = false) scale
     end
  /\ find_letter (of_Z 90) (Sql.select_scale 1 Sample.sample_db)
     = Some "A"%string.
Proof.
  intros scale. split; [apply order_by_perm|].
  split.
  - pose proof (order_by_sorted Sql.min_score_desc min_score_desc_total
                  (Sql.joined_scale courseId d)) as S.
    fold (Sql.select_scale courseId d) in S. fold scale in S.
    induction S as [|t l Sl IH Hd]; constructor; auto.
    destruct Hd as [|u l Hu]; constructor.
    now apply Qle_bool_iff.
  - split; [apply find_letter_first | reflexivity].
Qed.

(** ** The final grade *)

(** Under a UNIQUE constraint a filter on the key finds at most the row
    [find] finds. *)
Lemma filter_unique {A K : Type} (key : A -> K) (f : A -> bool) (k : K)
  (l : list A) :
  NoDup (map key l) ->
  (forall x, f x = true -> key x = k) ->
  filter f l = match find f l with Some x => [x] | None => [] end.
Proof.
  intros Hnd Hkey. induction l as [|x l IH]; simpl; [reflexivity|].
  inversion Hnd as [|? ? Hx Hl]; subst.
  destruct (f x) eqn:Fx; [|now apply IH].
  f_equal. rewrite (IH Hl).
  destruct (find f l) as [y|] eqn:Fy; [|reflexivity].
  exfalso. apply Hx.
  apply find_some in Fy. destruct Fy as [Hin Hy].
  rewrite (Hkey x Fx), <- (Hkey y Hy). now apply in_map.
Qed.

Lemma sum_canonical (l : list number) : canonical (Num.sum l).
Proof.
  unfold Num.sum. generalize zero_canonical. generalize zero.
  induction l as [|x l IH]; simpl; intros acc Hacc; [exact Hacc|].
  apply IH, add_canonical.
Qed.

Lemma add_zero_l (a : number) : canonical a -> add zero a = a.
Proof. intros H. rewrite add_comm. now apply add_zero_r. Qed.

Lemma sum_cons (x : number) (l : list number) :
  Num.sum (x :: l) = add x (Num.sum l).
Proof.
  unfold Num.sum at 1. cbn [fold_left].
  rewrite sum_from by apply add_canonical.
  rewrite add_assoc. apply add_zero_l, add_canonical.
Qed.

(** What the loop over the assignments of the sample's Homework category
    reads and accumulates: the two totals come as text, and [+=] appends
    them to the running total. *)
Lemma homework_totals_as_text :
  map snd (Sql.select_assignments 7 1 Sample.sample_db)
  = [Some "10.00"%string; Some "8.00"%string].
Proof. vm_compute. reflexivity. Qed.

Lemma homework_earnedPoints :
  let '(_, earnedPoints, _) :=
    fold_left add_assignment (Sql.select_assignments 7 1 Sample.sample_db)
              (zero, SNum zero, []) in
  earnedPoints = SText "010.008.00"
  /\ to_number earnedPoints = NaN.
Proof. vm_compute. split; reflexivity. Qed.

(** One total on its own still reads back as its number: the sample's
    Exams category, 45 of 50. *)
Lemma exams_earnedPoints :
  let '(_, earnedPoints, _) :=
    fold_left add_assignment (Sql.select_assignments 7 2 Sample.sample_db)
              (zero, SNum zero, []) in
  earnedPoints = SText "045.00"
  /\ to_number earnedPoints = of_Z 45.
Proof. vm_compute. split; reflexivity. Qed.

(** C2.  On the course of the specification's example (Homework of weight
    40 with 10/10 and 8/10, Exams of weight 60 with 45/50) the weighted
    formula gives 90, which is the letter A, and [calculateFinalGrade]
    does not: the two Homework totals are read as the texts "10.00" and
    "8.00", [earnedPoints +=] appends them, the percentage and the
    weighted score of the category are not numbers, and the handler
    answers 200 with a final grade that is not a number and no letter. *)
Theorem calculateFinalGrade_concatenates_totals :
  finalGrade_of 7 1 Sample.sample_db = of_Z 90
  /\ find_letter (of_Z 90) (Sql.select_scale 1 Sample.sample_db)
     = Some "A"%string
  /\ let r := fst (calculateFinalGrade (Some 7) (Some 1) Sample.sample_world) in
     statusCode r = 200
     /\ match body r with
        | FinalGradeReport _ _ finalGrade letterGrade categoryGrades =>
            finalGrade = NaN
            /\ letterGrade = None
            /\ map cg_name categoryGrades = ["Homework"; "Exams"]%string
            /\ option_map cg_percentage (hd_error categoryGrades) = Some NaN
            /\ option_map cg_weightedScore (hd_error categoryGrades)
               = Some NaN
        | _ => False
        end.
Proof.
  split; [vm_compute; reflexivity|].
  split; [vm_compute; reflexivity|].
  vm_compute. repeat split.
Qed.

(** ** The grading loop *)

Section GradingLoop.

Variable env : host.

(** On a store that answers, and when no strategy throws, the loop
    returns the running total of the scores it wrote and one result for
    each row; the tables are those after the score writes, in order. *)
Lemma grade_questions_run (t : Z) (f : bool) :
  forall (rows : list question_row) (totalScore : number)
         (gradingResults : list grading_result) (d : database),
    existsb (throws env) rows = false ->
    grade_questions env rows totalScore gradingResults
      {| db := d; answers_left := None; store_failed := f; now := t |}
    = (Normal
         (fold_left add
            (map (fun q => score (verdict_of env q))
                 (filter (written env) rows))
            totalScore,
          gradingResults ++ map (result_of env) rows),
       {| db := fold_left (write_score env t) rows d;
          answers_left := None; store_failed := f; now := t |}).
Proof.
  induction rows as [|q rows IH]; intros totalScore gradingResults d Hthrow.
  - simpl. unfold ret. now rewrite app_nil_r.
  - cbn [existsb] in Hthrow. apply orb_false_iff in Hthrow.
    destruct Hthrow as [Hq Hrows].
    cbn [grade_questions filter map fold_left].
    destruct (has_response q) eqn:Hhas.
    + (* an answered row *)
      assert (Hrid : exists rid, response_id q = Some rid /\ (rid =? 0) = false).
      { unfold has_response, missing in Hhas.
        destruct (response_id q) as [rid|]; [|discriminate].
        exists rid. split; [reflexivity|]. now apply negb_true_iff. }
      destruct Hrid as [rid [R Z0]].
      assert (Hv : gradeQuestion env q = Normal (verdict_of env q)).
      { unfold throws in Hq. rewrite Hhas in Hq. unfold verdict_of.
        now destruct (gradeQuestion env q). }
      assert (Hres : result_of env q
                     = {| res_questionId := question_id q;
                          res_responseId := response_id q;
                          res_score := score (verdict_of env q);
                          res_feedback := feedback (verdict_of env q);
                          res_needsManualGrading :=
                            needsManualGrading (verdict_of env q) |}).
      { unfold result_of. now rewrite Hhas. }
      assert (Hkey : response_key q = rid)
        by (unfold response_key; now rewrite R).
      unfold write_score at 2. unfold written. rewrite Hhas. cbn [andb].
      rewrite Hres, Hkey. rewrite R. rewrite Z0. rewrite Hv.
      unfold bind at 1, lift.
      destruct (truthy (needsManualGrading (verdict_of env q))); cbn [negb].
      * rewrite IH by exact Hrows. now rewrite <- app_assoc.
      * rewrite bind_execute by discriminate.
        cbn [db now answers_left store_failed option_map map fold_left].
        rewrite IH by exact Hrows. now rewrite <- app_assoc.
    + (* no response *)
      assert (Hres : result_of env q = no_response q)
        by (unfold result_of; now rewrite Hhas).
      unfold write_score at 2. unfold written. rewrite Hhas. cbn [andb].
      rewrite Hres.
      unfold has_response, missing in Hhas.
      destruct (response_id q) as [rid|].
      * apply negb_false_iff in Hhas. rewrite Hhas.
        rewrite IH by exact Hrows. now rewrite <- app_assoc.
      * rewrite IH by exact Hrows. now rewrite <- app_assoc.
Qed.

End GradingLoop.

(** ** What a run changes *)

Section RunEffects.

Variable env : host.

Lemma write_score_submissions (t : Z) (rows : list question_row)
  (d : database) :
  submissions (fold_left (write_score env t) rows d) = submissions d.
Proof.
  revert d. induction rows as [|q rows IH]; intros d; [reflexivity|].
  cbn [fold_left]. rewrite IH. unfold write_score.
  now destruct (written env q).
Qed.

Lemma find_finalized (total : number) (submissionId t : Z) (d : database) :
  find_submission submissionId (Sql.finalize_submission total submissionId t d)
  = option_map (fun s => finalized s total t)
               (find_submission submissionId d).
Proof.
  unfold find_submission, Sql.finalize_submission. simpl.
  induction (submissions d) as [|s l IH]; [reflexivity|].
  cbn [map find].
  destruct (submission_id s =? submissionId) eqn:E; simpl; rewrite E;
    [reflexivity | exact IH].
Qed.

Lemma results_flagged (rows : list question_row) :
  existsb (fun result => truthy (res_needsManualGrading result))
          (map (result_of env) rows)
  = existsb (flagged env) rows.
Proof.
  induction rows as [|q rows IH]; [reflexivity|].
  cbn [map existsb]. rewrite IH. f_equal.
  unfold result_of, flagged. now destruct (has_response q).
Qed.

Lemma written_unflagged (rows : list question_row) :
  existsb (flagged env) rows = false ->
  filter (written env) rows = filter has_response rows.
Proof.
  induction rows as [|q rows IH]; [reflexivity|].
  cbn [existsb filter]. intros H. apply orb_false_iff in H.
  destruct H as [Hq Hrows]. rewrite (IH Hrows).
  unfold flagged in Hq. unfold written.
  destruct (has_response q); [|reflexivity].
  cbn [andb] in *. now rewrite Hq.
Qed.

(** The whole run on a store that answers, for an existing submission
    that is not graded yet, when no strategy throws. *)
Lemma gradeSubmission_run (submissionId : Z) (w : world) (s : submission)
  (a : assignment) :
  submissionId <> 0 ->
  reliable w ->
  find_submission submissionId (db w) = Some s ->
  find_assignment (sub_assignment_id s) (db w) = Some a ->
  status s <> "graded"%string ->
  let rows := Sql.select_questions submissionId (sub_assignment_id s) (db w) in
  existsb (throws env) rows = false ->
  let total :=
    Num.sum (map (fun q => score (verdict_of env q))
                 (filter (written env) rows)) in
  let scored := fold_left (write_score env (now w)) rows (db w) in
  gradeSubmission env (Some submissionId) w
  = ({| statusCode := 200;
        body := GradeReport submissionId total (total_points a)
                  (existsb (flagged env) rows) (map (result_of env) rows) |},
     {| db := if existsb (flagged env) rows then scored
              else Sql.finalize_submission total submissionId (now w) scored;
        answers_left := None;
        store_failed := store_failed w;
        now := now w |}).
Proof.
  intros Hid Hw Hs Ha Hst rows Hthrow total scored.
  assert (Hm : missing (Some submissionId) = false).
  { simpl. now apply Z.eqb_neq. }
  pose proof (reliable_answers w Hw) as Hans.
  unfold gradeSubmission, try_catch, gradeSubmission_body. rewrite Hm.
  rewrite (bind_select _ _ w Hans). rewrite (reliable_after_read w Hw).
  destruct (select_submission_some _ _ _ _ Hs Ha) as [rest ->].
  apply String.eqb_neq in Hst. rewrite Hst.
  rewrite (bind_select _ _ w Hans). rewrite (reliable_after_read w Hw).
  fold rows. unfold bind at 1.
  destruct w as [d left failed t]. unfold reliable in Hw. simpl in Hw.
  subst left. cbn [db now store_failed] in *.
  rewrite (grade_questions_run env t failed rows zero [] d Hthrow).
  cbn [app]. rewrite results_flagged. fold total. fold scored.
  destruct (existsb (flagged env) rows); cbn [negb].
  - reflexivity.
  - rewrite bind_execute by discriminate. reflexivity.
Qed.

End RunEffects.

(** ** Joins as lists *)

Lemma flat_map_nil {X Y : Type} (l : list X) :
  flat_map (fun _ => @nil Y) l = [].
Proof. induction l; simpl; auto. Qed.

Lemma flat_map_pointwise_perm {A B : Type} (f g : A -> list B) (l : list A) :
  (forall x, In x l -> Permutation (f x) (g x)) ->
  Permutation (flat_map f l) (flat_map g l).
Proof.
  induction l as [|x l IH]; simpl; intros H; [constructor|].
  apply Permutation_app; [apply H; now left|].
  apply IH. intros y Hy. apply H. now right.
Qed.

Lemma flat_map_app_perm {A B : Type} (f g : A -> list B) (l : list A) :
  Permutation (flat_map (fun x => f x ++ g x) l)
              (flat_map f l ++ flat_map g l).
Proof.
  induction l as [|x l IH]; simpl; [constructor|].
  rewrite IH. rewrite <- !app_assoc. apply Permutation_app_head.
  rewrite !app_assoc. apply Permutation_app_tail.
  apply Permutation_app_comm.
Qed.

Lemma flat_map_swap {A B C : Type} (f : A -> B -> list C) (xs : list A) (ys : list B) :
  Permutation (flat_map (fun x => flat_map (f x) ys) xs)
              (flat_map (fun y => flat_map (fun x => f x y) xs) ys).
Proof.
  induction xs as [|x xs IH]; simpl.
  - now rewrite flat_map_nil.
  - rewrite IH. symmetry.
    apply (flat_map_app_perm (f x) (fun y => flat_map (fun x0 => f x0 y) xs)).
Qed.

Lemma filter_perm {A : Type} (p : A -> bool) (l l' : list A) :
  Permutation l l' -> Permutation (filter p l) (filter p l').
Proof.
  induction 1 as [|x l l' _ IH|x y l|l l' l'' _ IH1 _ IH2]; simpl.
  - constructor.
  - destruct (p x); [now constructor | exact IH].
  - destruct (p x), (p y); try reflexivity. apply perm_swap.
  - now transitivity (filter p l').
Qed.

Lemma filter_over_flat_map {X Y : Type} (keep : Y -> bool)
  (rows : X -> list Y) (xs : list X) :
  flat_map (fun x => filter keep (rows x)) xs = filter keep (flat_map rows xs).
Proof.
  induction xs as [|x xs IH]; simpl; [reflexivity|].
  now rewrite filter_app, IH.
Qed.

Lemma map_flat_map {A B C : Type} (g : B -> C) (f : A -> list B) (l : list A) :
  map g (flat_map f l) = flat_map (fun x => map g (f x)) l.
Proof.
  induction l as [|x l IH]; simpl; [reflexivity|].
  now rewrite map_app, IH.
Qed.

Lemma map_filter_flat_map {A B : Type} (g : A -> B) (p : A -> bool) (l : list A) :
  map g (filter p l) = flat_map (fun x => if p x then [g x] else []) l.
Proof.
  induction l as [|x l IH]; simpl; [reflexivity|].
  destruct (p x); simpl; now rewrite IH.
Qed.


(** A sum does not depend on the order of its terms. *)
Lemma sum_perm (l l' : list number) :
  Permutation l l' -> Num.sum l = Num.sum l'.
Proof.
  induction 1 as [|x l l' _ IH|x y l|l l' l'' _ IH1 _ IH2].
  - reflexivity.
  - now rewrite !sum_cons, IH.
  - rewrite !sum_cons. rewrite <- !add_assoc. now rewrite (add_comm y x).
  - now transitivity (Num.sum l').
Qed.

Lemma find_unique {A K : Type} (key : A -> K) (f : A -> bool) (l : list A)
  (x : A) :
  NoDup (map key l) ->
  (forall y, f y = true -> key y = key x) ->
  In x l -> f x = true -> find f l = Some x.
Proof.
  intros Hnd Hkey. induction l as [|y l IH]; simpl; intros Hin Hx;
    [contradiction|].
  inversion Hnd as [|? ? Hy Hl]; subst.
  destruct (f y) eqn:Fy.
  - destruct Hin as [->|Hin]; [reflexivity|].
    exfalso. apply Hy. rewrite (Hkey y Fy). now apply in_map.
  - destruct Hin as [->|Hin]; [congruence|]. now apply IH.
Qed.

Lemma NoDup_map_filter {A K : Type} (key : A -> K) (p : A -> bool)
  (l : list A) :
  NoDup (map key l) -> NoDup (map key (filter p l)).
Proof.
  induction l as [|x l IH]; simpl; intros Hnd; [constructor|].
  inversion Hnd as [|? ? Hx Hl]; subst.
  destruct (p x); simpl; [|now apply IH].
  constructor; [|now apply IH].
  intros Hin. apply Hx. apply in_map_iff in Hin.
  destruct Hin as [y [Hy Hin]]. apply filter_In in Hin.
  rewrite <- Hy. apply in_map. tauto.
Qed.

Lemma flat_map_if_filter {A B : Type} (p : A -> bool) (h : A -> list B)
  (l : list A) :
  flat_map (fun x => if p x then h x else []) l = flat_map h (filter p l).
Proof.
  induction l as [|x l IH]; simpl; [reflexivity|].
  destruct (p x); simpl; now rewrite IH.
Qed.

(** ** The rows of the questions query *)

Section JoinedRows.

Variables (submissionId assignmentId : Z) (d : database).

Hypothesis schema : consistent submissionId assignmentId d.

Lemma has_response_columns (q : question) (qt : question_type_row)
  (r : question_response) :
  r_response_id r <> 0 ->
  has_response (Sql.question_columns q qt (Some r)) = true.
Proof.
  intros H. unfold has_response, missing. simpl.
  apply negb_true_iff. now apply Z.eqb_neq.
Qed.

(** The answered rows among those a question and a type contribute. *)
Lemma answered_of_left_join (q : question) (qt : question_type_row) :
  filter has_response
    (map (fun qr => Sql.question_columns q qt qr)
         (Sql.left_join_responses submissionId d q))
  = flat_map
      (fun r => if joins submissionId q r
                then [Sql.question_columns q qt (Some r)] else [])
      (question_responses d).
Proof.
  rewrite <- (map_filter_flat_map
                (fun r => Sql.question_columns q qt (Some r)) (joins submissionId q)).
  unfold Sql.left_join_responses. fold (joins submissionId q).
  assert (Hall : forall r, In r (filter (joins submissionId q) (question_responses d)) ->
                           r_response_id r <> 0).
  { intros r Hr. apply filter_In in Hr. destruct Hr as [Hin Hj].
    unfold joins in Hj. apply andb_true_iff in Hj. destruct Hj as [_ Hs].
    apply Z.eqb_eq in Hs.
    now destruct (responses_answer_assignment _ _ _ schema r Hin Hs). }
  induction (filter (joins submissionId q) (question_responses d)) as [|r l IH];
    [reflexivity|].
  assert (Hl : forall l', (forall r', In r' l' -> r_response_id r' <> 0) ->
               filter has_response
                 (map (fun qr => Sql.question_columns q qt qr) (map Some l'))
               = map (fun r' => Sql.question_columns q qt (Some r')) l').
  { clear. induction l' as [|r' l' IH']; intros H; [reflexivity|].
    cbn [map filter]. rewrite has_response_columns by (apply H; now left).
    f_equal. apply IH'. intros x Hx. apply H. now right. }
  now apply Hl.
Qed.

(** The rows a response contributes, over all questions of the assignment
    and their types: its own row, if it is of the submission. *)
Lemma rows_of_response (r : question_response) :
  In r (question_responses d) ->
  flat_map
    (fun q =>
       flat_map
         (fun qt => if joins submissionId q r
                    then [Sql.question_columns q qt (Some r)] else [])
         (filter (fun qt => q_type_id q =? type_id qt) (question_types d)))
    (filter (fun q => q_assignment_id q =? assignmentId) (questions d))
  = if r_submission_id r =? submissionId
    then match row_of d r with Some x => [x] | None => [] end
    else [].
Proof.
  intros Hin.
  destruct (r_submission_id r =? submissionId) eqn:S.
  - apply Z.eqb_eq in S.
    destruct (responses_answer_assignment _ _ _ schema r Hin S)
      as [_ [q0 [qt0 [Hq [Hid [Hasg [Hqt Hty]]]]]]].
    rewrite (flat_map_ext _
               (fun q => if q_question_id q =? r_question_id r
                         then map (fun qt => Sql.question_columns q qt (Some r))
                                  (filter (fun qt => q_type_id q =? type_id qt)
                                          (question_types d))
                         else [])).
    2:{ intros q. unfold joins. apply Z.eqb_eq in S. rewrite S, andb_true_r.
        destruct (q_question_id q =? r_question_id r).
        - induction (filter _ (question_types d)) as [|x l IH]; simpl;
            [reflexivity | now rewrite IH].
        - apply flat_map_nil. }
    rewrite flat_map_if_filter.
    assert (Hfq : find (fun q => q_question_id q =? r_question_id r)
                       (questions d) = Some q0).
    { apply (find_unique q_question_id).
      - apply (question_keys _ _ _ schema).
      - intros y Hy. apply Z.eqb_eq in Hy. congruence.
      - exact Hq.
      - now apply Z.eqb_eq. }
    assert (Hfqa : find (fun q => q_question_id q =? r_question_id r)
                     (filter (fun q => q_assignment_id q =? assignmentId)
                             (questions d)) = Some q0).
    { apply (find_unique q_question_id).
      - apply NoDup_map_filter, (question_keys _ _ _ schema).
      - intros y Hy. apply Z.eqb_eq in Hy. congruence.
      - apply filter_In. split; [exact Hq|]. now apply Z.eqb_eq.
      - now apply Z.eqb_eq. }
    assert (Hft : find (fun qt => q_type_id q0 =? type_id qt)
                       (question_types d) = Some qt0).
    { apply (find_unique type_id).
      - apply (type_keys _ _ _ schema).
      - intros y Hy. apply Z.eqb_eq in Hy. congruence.
      - exact Hqt.
      - now apply Z.eqb_eq. }
    rewrite (filter_unique q_question_id _ (r_question_id r)).
    + rewrite Hfqa. cbn [flat_map]. rewrite app_nil_r.
      rewrite (filter_unique type_id _ (q_type_id q0)).
      * rewrite Hft. unfold row_of. now rewrite Hfq, Hft.
      * apply (type_keys _ _ _ schema).
      * intros y Hy. apply Z.eqb_eq in Hy. congruence.
    + apply NoDup_map_filter, (question_keys _ _ _ schema).
    + intros y Hy. now apply Z.eqb_eq in Hy.
  - rewrite (flat_map_ext _ (fun _ => [])); [apply flat_map_nil|].
    intros q. unfold joins. rewrite S, andb_false_r. apply flat_map_nil.
Qed.

(** The answered rows of the questions query are the rows of the
    responses of the submission, in some order. *)
Lemma answered_rows_perm :
  Permutation
    (filter has_response
            (Sql.select_questions submissionId assignmentId d))
    (flat_map
       (fun r => if r_submission_id r =? submissionId
                 then match row_of d r with Some x => [x] | None => [] end
                 else [])
       (question_responses d)).
Proof.
  unfold Sql.select_questions.
  transitivity
    (filter has_response
            (map snd (Sql.joined_questions submissionId assignmentId d))).
  { apply filter_perm, Permutation_map. symmetry. apply order_by_perm. }
  unfold Sql.joined_questions.
  rewrite map_flat_map, <- filter_over_flat_map.
  rewrite (flat_map_ext _
             (fun q =>
                flat_map
                  (fun qt =>
                     flat_map
                       (fun r => if joins submissionId q r
                                 then [Sql.question_columns q qt (Some r)]
                                 else [])
                       (question_responses d))
                  (filter (fun qt => q_type_id q =? type_id qt)
                          (question_types d)))).
  2:{ intros q. rewrite map_flat_map, <- filter_over_flat_map.
      apply flat_map_ext. intros qt. rewrite map_map. cbn [snd].
      apply answered_of_left_join. }
  transitivity
    (flat_map
       (fun q =>
          flat_map
            (fun r =>
               flat_map
                 (fun qt => if joins submissionId q r
                            then [Sql.question_columns q qt (Some r)]
                            else [])
                 (filter (fun qt => q_type_id q =? type_id qt)
                         (question_types d)))
            (question_responses d))
       (filter (fun q => q_assignment_id q =? assignmentId) (questions d))).
  { apply flat_map_pointwise_perm. intros q _.
    apply (flat_map_swap
             (fun qt r => if joins submissionId q r
                          then [Sql.question_columns q qt (Some r)]
                          else [])). }
  transitivity
    (flat_map
       (fun r =>
          flat_map
            (fun q =>
               flat_map
                 (fun qt => if joins submissionId q r
                            then [Sql.question_columns q qt (Some r)]
                            else [])
                 (filter (fun qt => q_type_id q =? type_id qt)
                         (question_types d)))
            (filter (fun q => q_assignment_id q =? assignmentId)
                    (questions d)))
       (question_responses d)).
  { apply (flat_map_swap
             (fun q r =>
                flat_map
                  (fun qt => if joins submissionId q r
                             then [Sql.question_columns q qt (Some r)]
                             else [])
                  (filter (fun qt => q_type_id q =? type_id qt)
                          (question_types d)))). }
  apply flat_map_pointwise_perm. intros r Hr.
  now rewrite rows_of_response.
Qed.

End JoinedRows.

(** ** The stored scores after a run *)

Section StoredScores.

Variable env : host.
Variable t : Z.

Lemma write_score_responses (rows : list question_row) :
  forall d : database,
    question_responses (fold_left (write_score env t) rows d)
    = map (fun r => fold_left (rescore env t) rows r) (question_responses d).
Proof.
  induction rows as [|q rows IH]; intros d; cbn [fold_left].
  - now rewrite map_id.
  - rewrite IH. unfold write_score. destruct (written env q) eqn:W.
    + unfold Sql.update_response_score.
      cbn [question_responses with_question_responses]. rewrite map_map.
      apply map_ext. intros r. f_equal. unfold rescore. rewrite W.
      cbn [andb]. now destruct (r_response_id r =? response_key q).
    + apply map_ext. intros r. f_equal. unfold rescore. now rewrite W.
Qed.

(** A response keeps its keys; its score is the one of the rows that
    write it, when they agree. *)
Lemma rescore_fold (sc : number) (rows : list question_row) :
  forall r : question_response,
    (forall q, In q rows -> written env q = true ->
               response_key q = r_response_id r ->
               score (verdict_of env q) = sc) ->
    let r' := fold_left (rescore env t) rows r in
    r_response_id r' = r_response_id r
    /\ r_submission_id r' = r_submission_id r
    /\ r_score r'
       = if existsb (fun q => written env q
                              && (r_response_id r =? response_key q)) rows
         then Some sc else r_score r.
Proof.
  induction rows as [|q rows IH]; intros r Hsc; cbn [fold_left existsb];
    cbv zeta.
  - auto.
  - destruct (written env q && (r_response_id r =? response_key q)) eqn:W.
    + pose proof W as W'. apply andb_true_iff in W'. destruct W' as [Hw Hk].
      apply Z.eqb_eq in Hk.
      assert (Hq : score (verdict_of env q) = sc)
        by (apply Hsc; auto; now left).
      assert (E : rescore env t r q
                  = {| r_response_id := r_response_id r;
                       r_submission_id := r_submission_id r;
                       r_question_id := r_question_id r;
                       r_response_data := r_response_data r;
                       r_score := Some (score (verdict_of env q));
                       r_feedback := Some (feedback (verdict_of env q));
                       r_graded_at := Some t;
                       r_graded_by := r_graded_by r |})
        by (unfold rescore; now rewrite W).
      rewrite E. cbn [orb].
      match goal with
      | |- context [fold_left _ rows ?x] => destruct (IH x) as [H1 [H2 H3]]
      end.
      { cbn [r_response_id]. intros q' Hq' Hw' Hk'. apply Hsc; auto.
        now right. }
      cbn [r_response_id r_submission_id r_score] in *.
      split; [exact H1|]. split; [exact H2|].
      rewrite H3. rewrite Hq.
      now destruct (existsb _ rows).
    + assert (E : rescore env t r q = r) by (unfold rescore; now rewrite W).
      rewrite E. cbn [orb].
      apply IH. intros q' Hq' Hw' Hk'. apply Hsc; auto. now right.
Qed.

End StoredScores.

Lemma NoDup_key_inj {A K : Type} (key : A -> K) (l : list A) (a b : A) :
  NoDup (map key l) -> In a l -> In b l -> key a = key b -> a = b.
Proof.
  induction l as [|x l IH]; simpl; intros Hnd Ha Hb Hk; [contradiction|].
  inversion Hnd as [|? ? Hx Hl]; subst.
  destruct Ha as [->|Ha], Hb as [->|Hb]; auto.
  - exfalso. apply Hx. rewrite Hk. now apply in_map.
  - exfalso. apply Hx. rewrite <- Hk. now apply in_map.
Qed.

Lemma existsb_none {A : Type} (f : A -> bool) (l : list A) :
  existsb f l = false -> forall x, In x l -> f x = false.
Proof.
  intros H x Hx. destruct (f x) eqn:F; [|reflexivity].
  rewrite <- H. symmetry. apply existsb_exists. eauto.
Qed.

Lemma flat_map_map {A B C : Type} (f : B -> list C) (g : A -> B)
  (l : list A) :
  flat_map f (map g l) = flat_map (fun x => f (g x)) l.
Proof.
  induction l as [|x l IH]; simpl; [reflexivity | now rewrite IH].
Qed.

Lemma flat_map_ext_in {A B : Type} (f g : A -> list B) (l : list A) :
  (forall x, In x l -> f x = g x) -> flat_map f l = flat_map g l.
Proof.
  induction l as [|x l IH]; simpl; intros H; [reflexivity|].
  rewrite (H x) by now left. f_equal. apply IH. intros y Hy. apply H.
  now right.
Qed.

Section StoredTotal.

Variable env : host.
Variables (submissionId assignmentId t : Z) (d : database).

Hypothesis schema : consistent submissionId assignmentId d.

Lemma row_of_key (r : question_response) (x : question_row) :
  row_of d r = Some x -> response_key x = r_response_id r.
Proof.
  unfold row_of. destruct (find _ (questions d)) as [q|]; [|discriminate].
  destruct (find _ (question_types d)) as [qt|]; [|discriminate].
  now intros [= <-].
Qed.

Lemma rescore_submission (rows : list question_row) :
  forall r, r_submission_id (fold_left (rescore env t) rows r)
            = r_submission_id r.
Proof.
  induction rows as [|q rows IH]; intros r; cbn [fold_left]; [reflexivity|].
  rewrite IH. unfold rescore.
  now destruct (written env q && (r_response_id r =? response_key q)).
Qed.

(** The rows of the responses of the submission. *)
Lemma in_rows_of_responses (x : question_row) :
  In x (flat_map
          (fun r => if r_submission_id r =? submissionId
                    then match row_of d r with Some y => [y] | None => [] end
                    else [])
          (question_responses d))
  <-> exists r, In r (question_responses d)
                /\ r_submission_id r = submissionId
                /\ row_of d r = Some x.
Proof.
  rewrite in_flat_map. split.
  - intros [r [Hr Hx]]. exists r.
    destruct (Z.eqb_spec (r_submission_id r) submissionId); [|contradiction].
    destruct (row_of d r) as [y|]; [|contradiction].
    destruct Hx as [->|[]]. auto.
  - intros [r [Hr [Hs Hx]]]. exists r. split; [exact Hr|].
    apply Z.eqb_eq in Hs. rewrite Hs, Hx. now left.
Qed.

(** When nothing is flagged, the stored scores of the submission add up
    to the sum of the scores the run gave its responses. *)
Lemma stored_scores_total :
  let rows := Sql.select_questions submissionId assignmentId d in
  existsb (flagged env) rows = false ->
  forall d' : database,
    question_responses d'
    = question_responses (fold_left (write_score env t) rows d) ->
    Num.sum (stored_scores submissionId d')
    = Num.sum (response_scores env rows).
Proof.
  intros rows Hflag d' Hd'.
  pose proof (answered_rows_perm submissionId assignmentId d schema) as P.
  fold rows in P.
  unfold stored_scores. rewrite Hd', write_score_responses, flat_map_map.
  unfold response_scores.
  rewrite (sum_perm _ _ (Permutation_map _ P)).
  rewrite map_flat_map. f_equal.
  apply flat_map_ext_in. intros r Hr.
  rewrite rescore_submission.
  destruct (Z.eqb_spec (r_submission_id r) submissionId) as [Hs|_];
    [|reflexivity].
  destruct (responses_answer_assignment _ _ _ schema r Hr Hs)
    as [Hnz [q [qt [Hq [Hid [Hasg [Hqt Hty]]]]]]].
  destruct (row_of d r) as [x|] eqn:X.
  - (* the row of the response is among the rows and is written *)
    assert (Hx : In x (filter has_response rows)).
    { apply (Permutation_in _ (Permutation_sym P)).
      apply in_rows_of_responses. eauto. }
    apply filter_In in Hx. destruct Hx as [Hxin Hxhas].
    assert (Hxw : written env x = true).
    { unfold written. rewrite Hxhas. cbn [andb]. apply negb_true_iff.
      pose proof (existsb_none _ _ Hflag x Hxin) as Hfx.
      unfold flagged in Hfx. now rewrite Hxhas in Hfx. }
    destruct (rescore_fold env t (score (verdict_of env x)) rows r)
      as [_ [_ Hsc]].
    { intros q' Hq' Hw' Hk'.
      assert (Hq'' : In q' (filter has_response rows)).
      { apply filter_In. split; [exact Hq'|].
        unfold written in Hw'. now apply andb_true_iff in Hw'. }
      apply (Permutation_in _ P) in Hq''.
      apply in_rows_of_responses in Hq''.
      destruct Hq'' as [r' [Hr' [Hs' Hrow']]].
      assert (r' = r).
      { apply (NoDup_key_inj r_response_id (question_responses d)).
        - apply (response_keys _ _ _ schema).
        - exact Hr'.
        - exact Hr.
        - rewrite <- (row_of_key _ _ Hrow'). exact Hk'. }
      subst r'. congruence. }
    rewrite Hsc.
    replace (existsb _ rows) with true; [reflexivity|].
    symmetry. apply existsb_exists. exists x. split; [exact Hxin|].
    rewrite Hxw. cbn [andb]. apply Z.eqb_eq. symmetry.
    now apply row_of_key.
  - (* a response of the submission always has a row *)
    exfalso. unfold row_of in X.
    rewrite (find_unique q_question_id _ (questions d) q) in X.
    + rewrite (find_unique type_id _ (question_types d) qt) in X;
        [discriminate| | |exact Hqt|].
      * apply (type_keys _ _ _ schema).
      * intros y Hy. apply Z.eqb_eq in Hy. congruence.
      * now apply Z.eqb_eq.
    + apply (question_keys _ _ _ schema).
    + intros y Hy. apply Z.eqb_eq in Hy. congruence.
    + exact Hq.
    + now apply Z.eqb_eq.
Qed.

End StoredTotal.

(** ** Grading a submission *)

Section GradeSubmission.

Variable env : host.

(** C1, as the code has it.  For a run of [gradeSubmission] on an
    existing submission that is not graded yet and has no total, on a
    store that answers, keeps its primary keys and holds for the
    submission only responses to questions of its assignment, and in
    which no strategy throws: the run succeeds; if no question of the run was flagged, the
    submission is set to 'graded' with [totalScore] the sum of the scores
    of its responses; if a question was flagged, the submissions are left
    as they were (status and total unchanged); and afterwards a total
    that is present equals the sum of the stored scores of the responses
    of the submission. *)
Theorem gradeSubmission_finalizes_iff_unflagged
  (submissionId : Z) (w : world) (s : submission) (a : assignment) :
  submissionId <> 0 ->
  reliable w ->
  find_submission submissionId (db w) = Some s ->
  find_assignment (sub_assignment_id s) (db w) = Some a ->
  status s <> "graded"%string ->
  total_score s = None ->
  consistent submissionId (sub_assignment_id s) (db w) ->
  let rows := Sql.select_questions submissionId (sub_assignment_id s) (db w) in
  existsb (throws env) rows = false ->
  let after := db (snd (gradeSubmission env (Some submissionId) w)) in
  let total := Num.sum (response_scores env rows) in
  statusCode (fst (gradeSubmission env (Some submissionId) w)) = 200
  /\ (existsb (flagged env) rows = false ->
      find_submission submissionId after
      = Some (finalized s total (now w)))
  /\ (existsb (flagged env) rows = true ->
      submissions after = submissions (db w))
  /\ (forall s' x,
        find_submission submissionId after = Some s' ->
        total_score s' = Some x ->
        Num.sum (stored_scores submissionId after) = x).
Proof.
  intros Hid Hw Hs Ha Hst Hnone Hschema rows Hthrow after total.
  subst after.
  rewrite (gradeSubmission_run env submissionId w s a Hid Hw Hs Ha Hst Hthrow).
  fold rows. cbn [fst snd db statusCode].
  assert (Hfind : forall rows',
             find_submission submissionId
               (fold_left (write_score env (now w)) rows' (db w)) = Some s).
  { intros rows'. unfold find_submission.
    rewrite write_score_submissions. exact Hs. }
  split; [reflexivity|].
  destruct (existsb (flagged env) rows) eqn:Hflag.
  - split; [discriminate|]. split.
    + intros _. apply write_score_submissions.
    + intros s' x Hs'. rewrite Hfind in Hs'. injection Hs' as <-. congruence.
  - assert (Htotal :
      Num.sum (map (fun q => score (verdict_of env q))
                   (filter (written env) rows)) = total).
    { unfold total, response_scores. now rewrite written_unflagged. }
    rewrite Htotal. rewrite find_finalized, Hfind. cbn [option_map].
    split; [reflexivity|]. split; [discriminate|].
    intros s' x [= <-]. cbn [finalized total_score]. intros [= <-].
    apply (stored_scores_total env submissionId (sub_assignment_id s)
             (now w) (db w) Hschema Hflag).
    reflexivity.
Qed.

End GradeSubmission.

(** The sample is consistent around the submissions of the quiz. *)
Lemma sample_consistent (submissionId : Z) :
  submissionId = 4 \/ submissionId = 5 ->
  consistent submissionId 4 Sample.sample_db.
Proof.
  intros Hsub. constructor.
  - simpl. repeat constructor; simpl; intuition congruence.
  - simpl. repeat constructor; simpl; intuition congruence.
  - simpl. repeat constructor; simpl; intuition congruence.
  - intros r Hr Hs. simpl in Hr.
    destruct Hr as [<-|[<-|[<-|[<-|[<-|[]]]]]]; simpl in *;
      (split; [discriminate|]).
    + exists (Sample.mk_question 10 4 1 3 (VBool true) 1),
        {| type_id := 1; type_name := "true_false" |}. simpl. tauto.
    + exists (Sample.mk_question 11 4 2 5 (VStr "b") 2),
        {| type_id := 2; type_name := "multiple_choice" |}. simpl. tauto.
    + exists (Sample.mk_question 10 4 1 3 (VBool true) 1),
        {| type_id := 1; type_name := "true_false" |}. simpl. tauto.
    + exists (Sample.mk_question 11 4 2 5 (VStr "b") 2),
        {| type_id := 2; type_name := "multiple_choice" |}. simpl. tauto.
    + exists (Sample.mk_question 12 4 6 2 VNull 3),
        {| type_id := 6; type_name := "essay" |}. simpl. tauto.
Defined.

(** Submission 4 of the sample answers the two choice questions and
    nothing is flagged: it is finalized with the total 3, the sum of its
    stored scores.  Submission 5 also answers the essay, which is flagged:
    the submissions are left as they were. *)
Lemma gradeSubmission_finalizes_iff_unflagged_witness :
  (statusCode (fst (gradeSubmission Sample.sample_host (Some 4)
                      Sample.sample_world)) = 200
   /\ find_submission 4
        (db (snd (gradeSubmission Sample.sample_host (Some 4)
                    Sample.sample_world)))
      = Some (finalized (Sample.mk_submission 4 4 7 "submitted" None)
                        (of_Z 3) 1000)
   /\ Num.sum (stored_scores 4
                 (db (snd (gradeSubmission Sample.sample_host (Some 4)
                             Sample.sample_world))))
      = of_Z 3)
  /\ submissions
       (db (snd (gradeSubmission Sample.sample_host (Some 5)
                   Sample.sample_world)))
     = submissions Sample.sample_db.
Proof.
  split.
  - destruct (gradeSubmission_finalizes_iff_unflagged Sample.sample_host
                4 Sample.sample_world
                (Sample.mk_submission 4 4 7 "submitted" None)
                (Sample.mk_assignment 4 3 10 "Quiz")
                ltac:(discriminate) eq_refl eq_refl eq_refl
                ltac:(discriminate) eq_refl
                (sample_consistent 4 (or_introl eq_refl)) eq_refl)
      as [Hok [Hfinal [_ Hsum]]].
    split; [exact Hok|]. split; [exact (Hfinal eq_refl)|].
    exact (Hsum _ _ (Hfinal eq_refl) eq_refl).
  - destruct (gradeSubmission_finalizes_iff_unflagged Sample.sample_host
                5 Sample.sample_world
                (Sample.mk_submission 5 4 8 "submitted" None)
                (Sample.mk_assignment 4 3 10 "Quiz")
                ltac:(discriminate) eq_refl eq_refl eq_refl
                ltac:(discriminate) eq_refl
                (sample_consistent 5 (or_intror eq_refl)) eq_refl)
      as [_ [_ [Hkept _]]].
    exact (Hkept eq_refl).
Defined.

(** The run on the mistyped blank: the first question is scored 3 and the
    score is stored, the strategy of the second throws, the call answers
    500, and the submission is as it was.  No question was flagged. *)
Lemma mistyped_run :
  let rows := Sql.select_questions 8 6 SampleIrregular.mistyped_db in
  let run := gradeSubmission Sample.sample_host (Some 8)
               SampleIrregular.mistyped_world in
  map (throws Sample.sample_host) rows = [false; true]
  /\ map (flagged Sample.sample_host) rows = [false; false]
  /\ fst run = reply 500 "Internal server error"
  /\ find_submission 8 (db (snd run))
     = Some (Sample.mk_submission 8 6 7 "submitted" None)
  /\ map r_score (question_responses (db (snd run)))
     = [Some (of_Z 3); None].
Proof. vm_compute. repeat split. Qed.

(** The run on the stray response: the one question of the assignment is
    scored 3 and the submission is finalized with the total 3, while the
    stored scores of its responses sum to 8. *)
Lemma stray_run :
  let rows := Sql.select_questions 9 7 SampleIrregular.stray_db in
  let run := gradeSubmission Sample.sample_host (Some 9)
               SampleIrregular.stray_world in
  map (throws Sample.sample_host) rows = [false]
  /\ map (flagged Sample.sample_host) rows = [false]
  /\ statusCode (fst run) = 200
  /\ find_submission 9 (db (snd run))
     = Some (finalized (Sample.mk_submission 9 7 7 "submitted" None)
                       (of_Z 3) 3000)
  /\ stored_scores 9 (db (snd run)) = [of_Z 3; of_Z 5].
Proof. vm_compute. repeat split. Qed.

(** C1, as stated, fails for two kinds of run.  A strategy may throw:
    on the mistyped blank nothing is flagged, and the submission is not
    finalized.  And the total only counts the questions of the
    submission's assignment: on the stray response no strategy throws,
    the total is 3 and the stored scores of the submission sum to 8. *)
Lemma gradeSubmission_not_for_every_run :
  ~ (forall (submissionId : Z) (w : world) (s : submission) (a : assignment),
       submissionId <> 0 ->
       reliable w ->
       find_submission submissionId (db w) = Some s ->
       find_assignment (sub_assignment_id s) (db w) = Some a ->
       status s <> "graded"%string ->
       total_score s = None ->
       let rows :=
         Sql.select_questions submissionId (sub_assignment_id s) (db w) in
       let after :=
         db (snd (gradeSubmission Sample.sample_host (Some submissionId) w)) in
       existsb (flagged Sample.sample_host) rows = false ->
       find_submission submissionId after
       = Some (finalized s (Num.sum (response_scores Sample.sample_host rows))
                         (now w)))
  /\ ~ (forall (submissionId : Z) (w : world) (s : submission)
               (a : assignment),
          submissionId <> 0 ->
          reliable w ->
          find_submission submissionId (db w) = Some s ->
          find_assignment (sub_assignment_id s) (db w) = Some a ->
          status s <> "graded"%string ->
          total_score s = None ->
          let rows :=
            Sql.select_questions submissionId (sub_assignment_id s) (db w) in
          let after :=
            db (snd (gradeSubmission Sample.sample_host (Some submissionId)
                       w)) in
          existsb (throws Sample.sample_host) rows = false ->
          forall (s' : submission) (x : number),
            find_submission submissionId after = Some s' ->
            total_score s' = Some x ->
            Num.sum (stored_scores submissionId after) = x).
Proof.
  split.
  - intros claim.
    pose proof (claim 8 SampleIrregular.mistyped_world
                  (Sample.mk_submission 8 6 7 "submitted" None)
                  (Sample.mk_assignment 6 3 9 "Capitals")
                  ltac:(discriminate) eq_refl eq_refl eq_refl
                  ltac:(discriminate) eq_refl eq_refl) as H.
    vm_compute in H. discriminate H.
  - intros claim.
    pose proof (claim 9 SampleIrregular.stray_world
                  (Sample.mk_submission 9 7 7 "submitted" None)
                  (Sample.mk_assignment 7 3 3 "Quiz 1")
                  ltac:(discriminate) eq_refl eq_refl eq_refl
                  ltac:(discriminate) eq_refl eq_refl
                  (finalized (Sample.mk_submission 9 7 7 "submitted" None)
                             (of_Z 3) 3000)
                  (of_Z 3) eq_refl eq_refl) as H.
    vm_compute in H. discriminate H.
Qed.

(** ** A store that fails during the run *)

Lemma same_but_responses_refl (d : database) : same_but_responses d d.
Proof. unfold same_but_responses. tauto. Qed.

Lemma same_but_responses_trans (d1 d2 d3 : database) :
  same_but_responses d1 d2 -> same_but_responses d2 d3 ->
  same_but_responses d1 d3.
Proof. unfold same_but_responses. intuition congruence. Qed.

Lemma select_outcome {A : Type} (q : database -> A) (w : world) :
  select q w = (Thrown, refuse w)
  \/ exists w', select q w = (Normal (q (db w)), w')
                /\ db w' = db w
                /\ store_failed w' = store_failed w
                /\ now w' = now w.
Proof.
  unfold select, pool_query.
  destruct (answers_left w) as [[|n]|]; [now left| |]; right; eauto.
Qed.

Lemma execute_outcome (u : Z -> database -> database) (w : world) :
  execute u w = (Thrown, refuse w)
  \/ exists w', execute u w = (Normal tt, w')
                /\ db w' = u (now w) (db w)
                /\ store_failed w' = store_failed w
                /\ now w' = now w.
Proof.
  unfold execute, pool_query.
  destruct (answers_left w) as [[|n]|]; [now left| |]; right; eauto.
Qed.

Section StoreFailure.

Variable env : host.

(** The loop writes response rows only; it throws when the store refuses
    a write, and otherwise the store has not failed in it. *)
Lemma grade_questions_outcome :
  forall (rows : list question_row) (totalScore : number)
         (gradingResults : list grading_result) (w : world),
    same_but_responses (db w)
      (db (snd (grade_questions env rows totalScore gradingResults w)))
    /\ (fst (grade_questions env rows totalScore gradingResults w) = Thrown
        \/ store_failed
             (snd (grade_questions env rows totalScore gradingResults w))
           = store_failed w).
Proof.
  induction rows as [|q rows IH]; intros totalScore gradingResults w.
  - simpl. split; [apply same_but_responses_refl | now right].
  - cbn [grade_questions].
    destruct (response_id q) as [rid|]; [|apply IH].
    destruct (rid =? 0); [apply IH|].
    unfold bind at 1 3 5, lift.
    destruct (gradeQuestion env q) as [v|];
      [|simpl; split; [apply same_but_responses_refl | now left]].
    destruct (negb (truthy (needsManualGrading v))); [|apply IH].
    unfold bind.
    destruct (execute_outcome
                (Sql.update_response_score (score v) (feedback v) rid) w)
      as [E|[w' [E [Hdb [Hf Hn]]]]]; rewrite E.
    + simpl. split; [apply same_but_responses_refl | now left].
    + match goal with
      | |- context [grade_questions env rows ?ts ?gr w'] =>
          destruct (IH ts gr w') as [Hsame Hflag]
      end.
      split.
      * eapply same_but_responses_trans; [|exact Hsame].
        rewrite Hdb. unfold same_but_responses. simpl. tauto.
      * rewrite <- Hf. exact Hflag.
Qed.

End StoreFailure.

Section StoreFailureOfRun.

Variable env : host.

Lemma gradeSubmission_body_outcome (submissionId : option Z) (w : world)
  (c : completion response) (w' : world) :
  gradeSubmission_body env submissionId w = (c, w') ->
  (c = Thrown /\ same_but_responses (db w) (db w'))
  \/ store_failed w' = store_failed w.
Proof.
  unfold gradeSubmission_body.
  destruct (missing submissionId); [intros [= <- <-]; now right|].
  set (id := match submissionId with Some z => z | None => 0 end).
  unfold bind at 1.
  destruct (select_outcome (Sql.select_submission id) w)
    as [E|[w1 [E [Hdb1 [Hf1 Hn1]]]]]; rewrite E.
  { intros [= <- <-]. left. split; [reflexivity|].
    apply same_but_responses_refl. }
  destruct (Sql.select_submission id (db w)) as [|[s a] rest];
    [intros [= <- <-]; now right|].
  destruct (String.eqb (status s) "graded");
    [intros [= <- <-]; now right|].
  unfold bind at 1.
  destruct (select_outcome
              (Sql.select_questions id (sub_assignment_id s)) w1)
    as [E2|[w2 [E2 [Hdb2 [Hf2 Hn2]]]]]; rewrite E2.
  { intros [= <- <-]. left. split; [reflexivity|]. simpl. rewrite Hdb1.
    apply same_but_responses_refl. }
  unfold bind at 1.
  destruct (grade_questions_outcome env
              (Sql.select_questions id (sub_assignment_id s) (db w1))
              zero [] w2) as [Hsame Hflag].
  destruct (grade_questions env
              (Sql.select_questions id (sub_assignment_id s) (db w1))
              zero [] w2) as [[[totalScore gradingResults]|] w3].
  2:{ intros [= <- <-]. left. split; [reflexivity|]. simpl in Hsame.
      now rewrite <- Hdb1, <- Hdb2. }
  cbn [fst snd] in Hsame, Hflag.
  destruct Hflag as [Hflag|Hflag]; [discriminate|].
  destruct (negb (existsb
                    (fun result => truthy (res_needsManualGrading result))
                    gradingResults)).
  - unfold bind.
    destruct (execute_outcome (Sql.finalize_submission totalScore id) w3)
      as [E3|[w4 [E3 [Hdb4 [Hf4 Hn4]]]]]; rewrite E3.
    + intros [= <- <-]. left. split; [reflexivity|]. simpl.
      now rewrite <- Hdb1, <- Hdb2.
    + intros [= <- <-]. right. congruence.
  - unfold bind, ret. intros [= <- <-]. right. congruence.
Qed.

(** C5, as the code has it.  [gradeSubmission] is not transactional: each
    query commits on its own.  If the store fails at any point of the
    run, the caller receives the generic internal error and no table but
    the responses has changed, so the submission keeps its prior status
    and total; scores written before the failure stay written. *)
Theorem gradeSubmission_store_failure (submissionId : option Z) (w : world) :
  store_failed w = false ->
  store_failed (snd (gradeSubmission env submissionId w)) = true ->
  fst (gradeSubmission env submissionId w)
    = reply 500 "Internal server error"
  /\ same_but_responses (db w)
       (db (snd (gradeSubmission env submissionId w))).
Proof.
  unfold gradeSubmission, try_catch. intros Hw Hfailed.
  destruct (gradeSubmission_body env submissionId w) as [c w'] eqn:R.
  destruct (gradeSubmission_body_outcome submissionId w c w' R)
    as [[-> Hsame]|Hf].
  - now split.
  - destruct c; simpl in *; congruence.
Qed.

End StoreFailureOfRun.

(** The store of the sample fails at the fourth query of the run on
    submission 4, the write of the second score. *)
Lemma gradeSubmission_store_failure_witness :
  fst (gradeSubmission Sample.sample_host (Some 4) (Sample.failing_after 3))
    = reply 500 "Internal server error"
  /\ same_but_responses Sample.sample_db
       (db (snd (gradeSubmission Sample.sample_host (Some 4)
                   (Sample.failing_after 3)))).
Proof.
  apply (gradeSubmission_store_failure Sample.sample_host (Some 4)
           (Sample.failing_after 3)); reflexivity.
Defined.

(** C5, as stated, fails: in that run the score 3 of the first response
    is committed although the run ends in the internal error; the
    submission itself is untouched. *)
Lemma gradeSubmission_commits_partial_scores :
  let run := gradeSubmission Sample.sample_host (Some 4)
               (Sample.failing_after 3) in
  fst run = reply 500 "Internal server error"
  /\ map (fun r => (r_response_id r, r_score r))
         (filter (fun r => r_submission_id r =? 4)
                 (question_responses (db (snd run))))
     = [(21, Some (of_Z 3)); (22, None)]
  /\ db (snd run) <> Sample.sample_db.
Proof.
  vm_compute. repeat split. discriminate.
Qed.

(** ** Grading twice *)

Section GradingTwice.

Variable env : host.

Lemma write_score_assignments (t : Z) (rows : list question_row)
  (d : database) :
  assignments (fold_left (write_score env t) rows d) = assignments d.
Proof.
  revert d. induction rows as [|q rows IH]; intros d; [reflexivity|].
  cbn [fold_left]. rewrite IH. unfold write_score.
  now destruct (written env q).
Qed.

(** X18.  Once a run has finalized a submission, the next call for it
    is rejected and changes nothing. *)
Lemma gradeSubmission_again_is_rejected
  (submissionId : Z) (w : world) (s : submission) (a : assignment) :
  submissionId <> 0 ->
  reliable w ->
  find_submission submissionId (db w) = Some s ->
  find_assignment (sub_assignment_id s) (db w) = Some a ->
  status s <> "graded"%string ->
  let rows := Sql.select_questions submissionId (sub_assignment_id s) (db w) in
  existsb (throws env) rows = false ->
  existsb (flagged env) rows = false ->
  let once := snd (gradeSubmission env (Some submissionId) w) in
  fst (gradeSubmission env (Some submissionId) once)
    = reply 400 "Submission is already graded"
  /\ db (snd (gradeSubmission env (Some submissionId) once)) = db once.
Proof.
  intros Hid Hw Hs Ha Hst rows Hthrow Hflag once.
  assert (Honce : answers once
                  /\ exists total,
                       find_submission submissionId (db once)
                       = Some (finalized s total (now w))
                       /\ find_assignment (sub_assignment_id s) (db once)
                          = Some a).
  { subst once.
    rewrite (gradeSubmission_run env submissionId w s a Hid Hw Hs Ha Hst
               Hthrow).
    fold rows. rewrite Hflag. cbn [snd db]. split; [discriminate|].
    eexists. split.
    - rewrite find_finalized. unfold find_submission.
      rewrite write_score_submissions. fold (find_submission submissionId (db w)).
      rewrite Hs. reflexivity.
    - unfold find_assignment, Sql.finalize_submission. cbn [assignments
        with_submissions]. rewrite write_score_assignments. exact Ha. }
  destruct Honce as [Hans [total [Hs' Ha']]].
  rewrite (gradeSubmission_already_graded env submissionId once
             (finalized s total (now w)) a Hid Hans Hs' Ha' eq_refl).
  now split.
Qed.

End GradingTwice.

(** ** The progress query of [manualGradeQuestion] *)

Lemma Permutation_singleton {A : Type} (x : A) (l : list A) :
  Permutation l [x] -> l = [x].
Proof.
  intros P. apply Permutation_sym in P.
  now apply Permutation_length_1_inv in P.
Qed.

Lemma filter_map_filter {A B : Type} (P : B -> bool) (h : A -> B)
  (J : A -> bool) (l : list A) :
  filter P (map h (filter J l))
  = flat_map (fun r => if J r && P (h r) then [h r] else []) l.
Proof.
  induction l as [|x l IH]; simpl; [reflexivity|].
  destruct (J x); simpl; [|exact IH].
  destruct (P (h x)); simpl; now rewrite IH.
Qed.

Section ProgressQuery.

Variables (d : database) (responseId : Z).
Variables (s0 : submission) (q0 : question) (r0 : question_response).

Hypothesis response_keys : NoDup (map r_response_id (question_responses d)).
Hypothesis submission_keys : NoDup (map submission_id (submissions d)).
Hypothesis question_keys : NoDup (map q_question_id (questions d)).
Hypothesis the_response :
  In r0 (question_responses d) /\ r_response_id r0 = responseId.
Hypothesis the_submission :
  In s0 (submissions d) /\ submission_id s0 = r_submission_id r0.
Hypothesis the_question :
  In q0 (questions d) /\ q_question_id q0 = r_question_id r0
  /\ q_assignment_id q0 = sub_assignment_id s0.

(** The join keeps one row, whatever the other questions and responses
    of the submission are: the one of the response named in the WHERE
    clause. *)
Lemma progress_rows_one : Sql.progress_rows responseId d = [(s0, q0, r0)].
Proof.
  destruct the_response as [Hr Hrid].
  destruct the_submission as [Hs Hsid].
  destruct the_question as [Hq [Hqid Hasg]].
  apply Permutation_singleton.
  unfold Sql.progress_rows.
  set (F := fun (r : question_response) (s : submission) (q : question) =>
              if (r_response_id r =? responseId)
                 && ((sub_assignment_id s =? q_assignment_id q)
                     && ((q_question_id q =? r_question_id r)
                         && (r_submission_id r =? submission_id s)))
              then [(s, q, r)] else []).
  transitivity
    (flat_map
       (fun s => flat_map
                   (fun q => flat_map (fun r => F r s q) (question_responses d))
                   (questions d))
       (submissions d)).
  { rewrite <- filter_over_flat_map.
    apply flat_map_pointwise_perm. intros s _.
    rewrite <- filter_over_flat_map, <- flat_map_if_filter.
    apply flat_map_pointwise_perm. intros q _.
    rewrite filter_map_filter. unfold F. cbn [snd].
    destruct (sub_assignment_id s =? q_assignment_id q).
    - apply flat_map_pointwise_perm. intros r _. cbn [andb].
      rewrite (andb_comm (r_response_id r =? responseId)). reflexivity.
    - rewrite (flat_map_ext
                 (fun r => if (r_response_id r =? responseId)
                              && (false
                                  && ((q_question_id q =? r_question_id r)
                                      && (r_submission_id r =? submission_id s)))
                           then [(s, q, r)] else [])
                 (fun _ => [])); [now rewrite flat_map_nil|].
      intros r. cbn [andb]. now rewrite andb_false_r. }
  transitivity
    (flat_map
       (fun r => flat_map
                   (fun s => flat_map (fun q => F r s q) (questions d))
                   (submissions d))
       (question_responses d)).
  { transitivity
      (flat_map
         (fun s => flat_map
                     (fun r => flat_map (fun q => F r s q) (questions d))
                     (question_responses d))
         (submissions d)).
    - apply flat_map_pointwise_perm. intros s _.
      apply (flat_map_swap (fun q r => F r s q)).
    - apply (flat_map_swap
               (fun s r => flat_map (fun q => F r s q) (questions d))). }
  (* only the named response contributes *)
  rewrite (flat_map_ext _
             (fun r => if r_response_id r =? responseId
                       then flat_map
                              (fun s => flat_map (fun q => F r s q)
                                                 (questions d))
                              (submissions d)
                       else [])).
  2:{ intros r. destruct (r_response_id r =? responseId) eqn:E;
        [reflexivity|].
      rewrite (flat_map_ext _ (fun _ => [])); [apply flat_map_nil|].
      intros s. rewrite (flat_map_ext _ (fun _ => []));
        [apply flat_map_nil|].
      intros q. unfold F. now rewrite E. }
  rewrite flat_map_if_filter.
  rewrite (filter_unique r_response_id _ responseId _ response_keys)
    by (intros y Hy; now apply Z.eqb_eq in Hy).
  rewrite (find_unique r_response_id _ _ r0 response_keys);
    [ | intros y Hy; apply Z.eqb_eq in Hy; congruence | exact Hr
      | now apply Z.eqb_eq ].
  cbn [flat_map]. rewrite app_nil_r.
  (* only its submission *)
  rewrite (flat_map_ext _
             (fun s => if submission_id s =? r_submission_id r0
                       then flat_map (fun q => F r0 s q) (questions d)
                       else [])).
  2:{ intros s. destruct (submission_id s =? r_submission_id r0) eqn:E;
        [reflexivity|].
      rewrite (flat_map_ext _ (fun _ => [])); [apply flat_map_nil|].
      intros q. unfold F. rewrite (Z.eqb_sym (r_submission_id r0)), E.
      now rewrite !andb_false_r. }
  rewrite flat_map_if_filter.
  rewrite (filter_unique submission_id _ (r_submission_id r0) _
             submission_keys)
    by (intros y Hy; now apply Z.eqb_eq in Hy).
  rewrite (find_unique submission_id _ _ s0 submission_keys);
    [ | intros y Hy; apply Z.eqb_eq in Hy; congruence | exact Hs
      | now apply Z.eqb_eq ].
  cbn [flat_map]. rewrite app_nil_r.
  (* only its question *)
  rewrite (flat_map_ext _
             (fun q => if q_question_id q =? r_question_id r0
                       then F r0 s0 q else [])).
  2:{ intros q. destruct (q_question_id q =? r_question_id r0) eqn:E;
        [reflexivity|].
      unfold F. rewrite E. now rewrite !andb_false_r. }
  rewrite flat_map_if_filter.
  rewrite (filter_unique q_question_id _ (r_question_id r0) _ question_keys)
    by (intros y Hy; now apply Z.eqb_eq in Hy).
  rewrite (find_unique q_question_id _ _ q0 question_keys);
    [ | intros y Hy; apply Z.eqb_eq in Hy; congruence | exact Hq
      | now apply Z.eqb_eq ].
  cbn [flat_map]. rewrite app_nil_r. unfold F.
  rewrite Hrid, Hqid, Hasg, Hsid, !Z.eqb_refl. reflexivity.
Qed.

End ProgressQuery.

Lemma find_finalized_by (total : option number) (graderId : option Z)
  (submissionId t : Z) (d : database) :
  find_submission submissionId
    (Sql.finalize_submission_by total graderId submissionId t d)
  = option_map (fun s => finalized_by s total graderId t)
               (find_submission submissionId d).
Proof.
  unfold find_submission, Sql.finalize_submission_by. simpl.
  induction (submissions d) as [|s l IH]; [reflexivity|].
  cbn [map find].
  destruct (submission_id s =? submissionId) eqn:E; simpl; rewrite E;
    [reflexivity | exact IH].
Qed.

(** Whatever the store holds, recording a score for one response
    finalizes its submission with that score as the total: the other
    questions of the assignment are never looked at. *)
Lemma manualGradeQuestion_finalizes_on_any_score
  (w : world) (responseId : Z) (n : number) (feedback : option string)
  (graderId : option Z)
  (s0 : submission) (q0 : question) (r0 : question_response) :
  responseId <> 0 ->
  reliable w ->
  NoDup (map r_response_id (question_responses (db w))) ->
  NoDup (map submission_id (submissions (db w))) ->
  NoDup (map q_question_id (questions (db w))) ->
  In r0 (question_responses (db w)) /\ r_response_id r0 = responseId ->
  In s0 (submissions (db w)) /\ submission_id s0 = r_submission_id r0 ->
  In q0 (questions (db w)) /\ q_question_id q0 = r_question_id r0
  /\ q_assignment_id q0 = sub_assignment_id s0 ->
  find_submission (submission_id s0)
    (db (snd (manualGradeQuestion (Some responseId) (Some (Some n)) feedback
                graderId w)))
  = Some (finalized_by s0 (Some n) graderId (now w)).
Proof.
  intros Hid Hw Hrk Hsk Hqk [Hr Hrid] Hs Hq.
  set (text := match feedback with Some f => f | None => EmptyString end).
  set (r1 := graded_by_hand r0 (Some n) text graderId (now w)).
  set (d1 := Sql.update_response_manual (Some n) text graderId responseId
               (now w) (db w)).
  assert (Hkeys : map r_response_id (question_responses d1)
                  = map r_response_id (question_responses (db w))).
  { unfold d1, Sql.update_response_manual. simpl. rewrite map_map.
    apply map_ext. intros r. now destruct (r_response_id r =? responseId). }
  assert (Hr1 : In r1 (question_responses d1)).
  { unfold d1, Sql.update_response_manual. simpl. apply in_map_iff.
    exists r0. split; [|exact Hr].
    apply Z.eqb_eq in Hrid. now rewrite Hrid. }
  assert (Hrows : Sql.progress_rows responseId d1 = [(s0, q0, r1)]).
  { apply progress_rows_one; auto.
    now rewrite Hkeys. }
  assert (Hprogress :
    Sql.select_progress responseId d1
    = [{| Sql.prog_submission_id := submission_id s0;
          Sql.total_questions := 1;
          Sql.graded_questions := 1;
          Sql.prog_total_score := Some n |}]).
  { unfold Sql.select_progress. rewrite Hrows.
    cbn [Sql.group_keys fold_left existsb app map fst snd filter].
    unfold Sql.same_group. rewrite !Z.eqb_refl. reflexivity. }
  assert (Hm : missing (Some responseId) = false).
  { simpl. now apply Z.eqb_neq. }
  unfold manualGradeQuestion, try_catch, manualGradeQuestion_body.
  rewrite Hm. cbn [orb]. fold text.
  destruct w as [d left failed t]. unfold reliable in Hw. simpl in Hw.
  subst left. cbn [db now] in *.
  rewrite bind_execute by discriminate.
  cbn [db now answers_left store_failed option_map].
  fold d1. rewrite bind_select by discriminate.
  cbn [db now answers_left store_failed option_map after_read].
  rewrite Hprogress. cbn [Sql.total_questions Sql.graded_questions Nat.eqb
                            Sql.prog_total_score Sql.prog_submission_id].
  rewrite bind_execute by discriminate.
  cbn [db now answers_left store_failed option_map].
  unfold bind, ret. cbn [snd db].
  rewrite find_finalized_by.
  unfold find_submission.
  rewrite (find_unique submission_id _ (submissions d1) s0);
    [reflexivity | exact Hsk | | exact (proj1 Hs) | apply Z.eqb_refl].
  intros y Hy. now apply Z.eqb_eq in Hy.
Qed.

(** ** Rounding to two decimals *)

Lemma Qfloor_half (z : Z) : Qfloor (inject_Z z + (1 # 2)) = z.
Proof.
  pose proof (Qfloor_le (inject_Z z + (1 # 2))) as Hle.
  pose proof (Qlt_floor (inject_Z z + (1 # 2))) as Hlt.
  set (f := Qfloor (inject_Z z + (1 # 2))) in *.
  assert (H1 : (inject_Z f < inject_Z (z + 1))%Q).
  { rewrite inject_Z_plus. change (inject_Z 1) with 1%Q. lra. }
  assert (H2 : (inject_Z z < inject_Z (f + 1))%Q) by (rewrite inject_Z_plus in *; change (inject_Z 1) with 1%Q in *; lra).
  rewrite <- Zlt_Qlt in H1, H2. lia.
Qed.

Lemma round2_fin (y : Q) :
  round2 (Fin y)
  = Fin (Qred (inject_Z (Qfloor (Qred (y * inject_Z 100) + (1 # 2)))
               / inject_Z 100)).
Proof. reflexivity. Qed.

Lemma round2_of_Z (p : Z) : round2 (of_Z p) = of_Z p.
Proof.
  unfold of_Z. rewrite round2_fin. f_equal.
  assert (E : Qfloor (Qred (inject_Z p * inject_Z 100) + (1 # 2)) = p * 100).
  { rewrite <- (Qfloor_half (p * 100)). apply Qfloor_comp.
    rewrite Qred_correct, inject_Z_mult. reflexivity. }
  rewrite E. rewrite <- (Qred_inject_Z p). apply Qred_complete.
  rewrite inject_Z_mult. field.
Qed.

Lemma round2_between (y : Q) (p : Z) :
  (0 <= y)%Q -> (y <= inject_Z p)%Q ->
  exists x, round2 (Fin y) = Fin x /\ (0 <= x)%Q /\ (x <= inject_Z p)%Q.
Proof.
  intros H0 Hp. rewrite round2_fin. eexists. split; [reflexivity|].
  set (f := Qfloor (Qred (y * inject_Z 100) + (1 # 2))).
  assert (Hf0 : 0 <= f).
  { change 0 with (Qfloor (inject_Z 0)). apply Qfloor_resp_le.
    rewrite Qred_correct. change (inject_Z 0) with 0%Q.
    change (inject_Z 100) with 100%Q. lra. }
  assert (Hfp : f <= p * 100).
  { rewrite <- (Qfloor_half (p * 100)). apply Qfloor_resp_le.
    rewrite Qred_correct, inject_Z_mult. change (inject_Z 100) with 100%Q. lra. }
  rewrite Qred_correct.
  rewrite Zle_Qle in Hf0, Hfp. rewrite inject_Z_mult in Hfp.
  change (inject_Z 0) with 0%Q in Hf0. change (inject_Z 100) with 100%Q in *.
  split.
  - apply Qle_shift_div_l; lra.
  - apply Qle_shift_div_r; lra.
Qed.

Lemma Qis_zero_inject (z : Z) : Qis_zero (inject_Z z) = (z =? 0).
Proof. reflexivity. Qed.

Lemma Qis_zero_spec (c : Q) : Qis_zero c = true <-> (c == 0)%Q.
Proof.
  unfold Qis_zero, Qeq. cbn [Qnum Qden]. rewrite Z.eqb_eq. lia.
Qed.

Lemma Qis_neg_spec (c : Q) : Qis_neg c = true <-> (c < 0)%Q.
Proof.
  unfold Qis_neg, Qlt. cbn [Qnum Qden]. rewrite Z.ltb_lt. lia.
Qed.

Lemma of_nat_nonzero (n : nat) :
  (0 < n)%nat -> Qis_zero (inject_Z (Z.of_nat n)) = false.
Proof.
  intros H. rewrite Qis_zero_inject. apply Z.eqb_neq. lia.
Qed.

Lemma share_range (c n : nat) (p : Z) :
  (0 < n)%nat -> (c <= n)%nat -> 0 <= p ->
  exists x,
    round2 (mul (div (of_nat c) (of_nat n)) (of_Z p)) = Fin x
    /\ (0 <= x)%Q /\ (x <= inject_Z p)%Q.
Proof.
  intros Hn Hc Hp. unfold of_nat, of_Z, div. rewrite (of_nat_nonzero n Hn).
  unfold mul.
  assert (Hn' : (0 < inject_Z (Z.of_nat n))%Q).
  { change 0%Q with (inject_Z 0). rewrite <- Zlt_Qlt. lia. }
  assert (Hc0 : (0 <= inject_Z (Z.of_nat c))%Q).
  { change 0%Q with (inject_Z 0). rewrite <- Zle_Qle. lia. }
  assert (Hcn : (inject_Z (Z.of_nat c) <= inject_Z (Z.of_nat n))%Q).
  { rewrite <- Zle_Qle. lia. }
  assert (Hp' : (0 <= inject_Z p)%Q).
  { change 0%Q with (inject_Z 0). now rewrite <- Zle_Qle. }
  assert (Hr0 : (0 <= inject_Z (Z.of_nat c) / inject_Z (Z.of_nat n))%Q).
  { apply Qle_shift_div_l; [exact Hn'|]. lra. }
  assert (Hr1 : (inject_Z (Z.of_nat c) / inject_Z (Z.of_nat n) <= 1)%Q).
  { apply Qle_shift_div_r; [exact Hn'|]. lra. }
  apply round2_between; rewrite !Qred_correct; nra.
Qed.

Lemma share_full (n : nat) (p : Z) :
  (0 < n)%nat ->
  round2 (mul (div (of_nat n) (of_nat n)) (of_Z p)) = of_Z p.
Proof.
  intros Hn. unfold of_nat, of_Z at 1 2 3, div. rewrite (of_nat_nonzero n Hn).
  unfold mul.
  assert (Hn' : (0 < inject_Z (Z.of_nat n))%Q).
  { change 0%Q with (inject_Z 0). rewrite <- Zlt_Qlt. lia. }
  assert (Hy : Qred (Qred (inject_Z (Z.of_nat n) / inject_Z (Z.of_nat n))
                     * inject_Z p) = inject_Z p).
  { rewrite <- (Qred_inject_Z p) at 2. apply Qred_complete.
    rewrite Qred_correct. field. lra. }
  rewrite Hy. apply round2_of_Z.
Qed.

Lemma filter_nothing {A : Type} (f : A -> bool) (l : list A) :
  (forall x, In x l -> f x = false) -> filter f l = [].
Proof.
  induction l as [|x l IH]; intros H; [reflexivity|]. cbn [filter].
  rewrite (H x (or_introl eq_refl)). apply IH. intros y Hy. apply H. now right.
Qed.

Lemma count_by_fold {A : Type} (p : A -> bool) (l : list A) :
  forall a : nat,
    fold_left (fun (c : nat) (x : A) => if p x then S c else c) l a
    = (a + List.length (filter p l))%nat.
Proof.
  induction l as [|x l IH]; intros a; cbn [fold_left filter List.length];
    [lia|].
  rewrite IH. destruct (p x); cbn [List.length]; lia.
Qed.

(** ** Fill in the blank, as the code computes it *)






(** ** Choice questions *)

Lemma stringify_eqb_refl : forall v : value, is_json v = true -> stringify_eqb v v = true.
Proof.
  fix IH 1. intros [| |b|[x| |s]|s|items|fields]; cbn [is_json stringify_eqb];
    try discriminate; try reflexivity.
  - intros _. now destruct b.
  - intros _. cbn. now apply Qeq_bool_iff.
  - intros _. apply String.eqb_refl.
  - induction items as [|x xs IHxs]; [reflexivity|].
    cbn [forallb]. intros H. apply andb_prop in H. destruct H as [Hx Hxs].
    rewrite (IH x Hx). cbn [andb]. now apply IHxs.
  - induction fields as [|[k x] xs IHxs]; [reflexivity|].
    cbn [forallb snd]. intros H. apply andb_prop in H. destruct H as [Hx Hxs].
    rewrite String.eqb_refl, (IH x Hx). cbn [andb]. now apply IHxs.
Qed.

Section ExactChoice.

Local Open Scope string_scope.

Theorem gradeMultipleChoice_exact_answer (q : question_row) :
  is_json (correct_answer q) = true ->
  response_data q = correct_answer q ->
  gradeMultipleChoice q = (of_Z (points q), "Correct answer").
Proof.
  intros Hj Hs. unfold gradeMultipleChoice. rewrite Hs.
  now rewrite (stringify_eqb_refl _ Hj).
Qed.

(** X1.  A true/false or multiple-choice response that is the stored
    answer itself earns the points of the question, with the feedback
    "Correct answer", and is never flagged. *)
Theorem gradeQuestion_exact_choice (env : host) (q : question_row) :
  question_type q = "true_false" \/ question_type q = "multiple_choice" ->
  is_json (correct_answer q) = true ->
  response_data q = correct_answer q ->
  gradeQuestion env q
  = Normal {| score := of_Z (points q); feedback := "Correct answer";
              needsManualGrading := VBool false |}.
Proof.
  intros Hty Hj Hs. unfold gradeQuestion.
  assert (E : String.eqb (question_type q) "true_false"
              || String.eqb (question_type q) "multiple_choice" = true).
  { destruct Hty as [-> | ->]; reflexivity. }
  rewrite E. unfold auto_only.
  now rewrite (gradeMultipleChoice_exact_answer q Hj Hs).
Qed.

Lemma gradeQuestion_exact_choice_witness :
  gradeQuestion Sample.sample_host
    (answered "true_false" 3 (VBool true) (VBool true) None)
  = Normal {| score := of_Z 3; feedback := "Correct answer";
              needsManualGrading := VBool false |}.
Proof.
  apply (gradeQuestion_exact_choice Sample.sample_host
           (answered "true_false" 3 (VBool true) (VBool true) None));
    [left; reflexivity | reflexivity | reflexivity].
Defined.

End ExactChoice.

(** ** Selections of several options *)

Lemma count_selection_counts (cs : list value) :
  forall (ss : list value) (a b : nat),
    fold_left (count_selection cs) ss (a, b)
    = ((a + List.length (filter (includes cs) ss))%nat,
       (b + wrong_selections cs ss)%nat).
Proof.
  unfold wrong_selections.
  induction ss as [|s ss IH]; intros a b; cbn [fold_left filter List.length].
  - now rewrite !Nat.add_0_r.
  - unfold count_selection at 2. destruct (includes cs s); cbn [negb];
      rewrite IH; cbn [List.length]; f_equal; lia.
Qed.

Lemma decisions_value (n : Z) (i m : nat) :
  exists c,
    sub (sub (of_Z n) (of_nat i)) (of_nat m) = Fin c
    /\ (c == inject_Z n - inject_Z (Z.of_nat i) - inject_Z (Z.of_nat m))%Q.
Proof.
  eexists. split; [reflexivity|].
  rewrite !Qred_correct. ring.
Qed.

Lemma partial_credit_range (n p : Z) (i m : nat) :
  0 < n -> 0 <= p ->
  exists x,
    round2 (Num.max zero
              (mul (div (sub (sub (of_Z n) (of_nat i)) (of_nat m)) (of_Z n))
                   (of_Z p)))
    = Fin x /\ (0 <= x)%Q /\ (x <= inject_Z p)%Q.
Proof.
  intros Hn Hp.
  destruct (decisions_value n i m) as [c [-> Hc]].
  unfold of_Z at 1 2. unfold div. rewrite Qis_zero_inject.
  destruct (Z.eqb_spec n 0) as [E|_]; [lia|].
  unfold mul.
  set (y := Qred (Qred (c / inject_Z n) * inject_Z p)).
  assert (Hy : (y == c / inject_Z n * inject_Z p)%Q).
  { unfold y. now rewrite !Qred_correct. }
  assert (Hn' : (0 < inject_Z n)%Q).
  { change 0%Q with (inject_Z 0). now rewrite <- Zlt_Qlt. }
  assert (Hp' : (0 <= inject_Z p)%Q).
  { change 0%Q with (inject_Z 0). now rewrite <- Zle_Qle. }
  assert (Hi : (0 <= inject_Z (Z.of_nat i))%Q).
  { change 0%Q with (inject_Z 0). rewrite <- Zle_Qle. lia. }
  assert (Hm : (0 <= inject_Z (Z.of_nat m))%Q).
  { change 0%Q with (inject_Z 0). rewrite <- Zle_Qle. lia. }
  unfold Num.max, zero, of_Z, le.
  destruct (Qle_bool (inject_Z 0) y) eqn:E.
  - apply Qle_bool_iff in E. change (inject_Z 0) with 0%Q in E.
    apply round2_between; [exact E|].
    rewrite Hy.
    assert (Hr : (c / inject_Z n <= 1)%Q).
    { apply Qle_shift_div_r; [exact Hn'|]. lra. }
    nra.
  - change (Fin (inject_Z 0)) with (of_Z 0). rewrite round2_of_Z.
    exists (inject_Z 0). split; [reflexivity|].
    change (inject_Z 0) with 0%Q. split; lra.
Qed.

Lemma gradeMultipleAnswer_score (q : question_row) (cs ss : list value) :
  correct_answer q = VArr cs ->
  response_data q = VArr ss ->
  fst (gradeMultipleAnswer q)
  = round2
      (Num.max zero
         (mul (div (sub (sub (options_count q cs)
                             (of_nat (wrong_selections cs ss)))
                        (of_nat (missed_options cs ss)))
                   (options_count q cs))
              (of_Z (points q)))).
Proof.
  intros Hc Hs. unfold gradeMultipleAnswer. rewrite Hc, Hs.
  rewrite count_selection_counts. reflexivity.
Qed.

Lemma options_count_positive (q : question_row) (cs : list value) :
  options_listed q -> exists n, 0 < n /\ options_count q cs = of_Z n.
Proof.
  unfold options_count. intros [H | [items [H Hne]]].
  - rewrite H. exists (Z.of_nat (List.length cs + 2)). split; [lia|reflexivity].
  - rewrite H. cbn [truthy length_of]. exists (Z.of_nat (List.length items)).
    split; [|reflexivity]. destruct items; [congruence|cbn [List.length]; lia].
Qed.

(** X2.  When the answers are arrays, the options are listed (or absent)
    and the points are not negative, the partial credit of a
    multiple-answer question is a number between 0 and the points of the
    question: wrong ticks and missed options never push it below 0. *)
Theorem gradeMultipleAnswer_score_range (q : question_row)
  (cs ss : list value) :
  correct_answer q = VArr cs ->
  response_data q = VArr ss ->
  options_listed q ->
  0 <= points q ->
  exists x,
    fst (gradeMultipleAnswer q) = Fin x
    /\ (0 <= x)%Q /\ (x <= inject_Z (points q))%Q.
Proof.
  intros Hc Hs Ho Hp.
  rewrite (gradeMultipleAnswer_score q cs ss Hc Hs).
  destruct (options_count_positive q cs Ho) as [n [Hn ->]].
  now apply partial_credit_range.
Qed.

(** X3.  Ticking exactly the right options, in any order, earns the
    points of the question. *)
Theorem gradeMultipleAnswer_exact_selection (q : question_row)
  (cs ss : list value) :
  correct_answer q = VArr cs ->
  response_data q = VArr ss ->
  options_listed q ->
  0 <= points q ->
  (forall a, In a ss -> includes cs a = true) ->
  (forall c, In c cs -> includes ss c = true) ->
  fst (gradeMultipleAnswer q) = of_Z (points q).
Proof.
  intros Hc Hs Ho Hp Hsel Hall.
  rewrite (gradeMultipleAnswer_score q cs ss Hc Hs).
  destruct (options_count_positive q cs Ho) as [n [Hn ->]].
  assert (Hw : wrong_selections cs ss = O).
  { unfold wrong_selections.
    rewrite filter_nothing; [reflexivity|].
    intros a Ha. now rewrite (Hsel a Ha). }
  assert (Hm : missed_options cs ss = O).
  { unfold missed_options.
    rewrite filter_nothing; [reflexivity|].
    intros a Ha. now rewrite (Hall a Ha). }
  rewrite Hw, Hm.
  destruct (decisions_value n 0 0) as [c [-> Hc']].
  unfold of_Z at 1 2. unfold div. rewrite Qis_zero_inject.
  destruct (Z.eqb_spec n 0) as [E|_]; [lia|].
  unfold mul.
  assert (Hn' : (0 < inject_Z n)%Q).
  { change 0%Q with (inject_Z 0). now rewrite <- Zlt_Qlt. }
  assert (Hy : Qred (Qred (c / inject_Z n) * inject_Z (points q))
               = inject_Z (points q)).
  { rewrite <- (Qred_inject_Z (points q)) at 2. apply Qred_complete.
    rewrite Qred_correct, Hc'. change (inject_Z (Z.of_nat 0)) with 0%Q.
    field. lra. }
  rewrite Hy. unfold Num.max, zero, of_Z, le.
  assert (Hle : Qle_bool (inject_Z 0) (inject_Z (points q)) = true).
  { apply Qle_bool_iff. now rewrite <- Zle_Qle. }
  rewrite Hle. apply round2_of_Z.
Qed.

(** X4.  When the list of options is the empty array, the count of
    options is 0 and the fallback [correctAnswers.length + 2] is not
    used: the score is NaN when every decision is right and 0 as soon as
    one is wrong. *)
Theorem gradeMultipleAnswer_without_options (q : question_row)
  (cs ss : list value) :
  correct_answer q = VArr cs ->
  response_data q = VArr ss ->
  options q = VArr [] ->
  0 < points q ->
  fst (gradeMultipleAnswer q)
  = if (wrong_selections cs ss + missed_options cs ss =? 0)%nat
    then NaN else zero.
Proof.
  intros Hc Hs Ho Hp.
  rewrite (gradeMultipleAnswer_score q cs ss Hc Hs).
  unfold options_count. rewrite Ho. cbn [truthy length_of List.length].
  change (of_nat 0) with (of_Z 0).
  destruct (decisions_value 0 (wrong_selections cs ss) (missed_options cs ss))
    as [c [-> Hc']].
  change (inject_Z 0) with 0%Q in Hc'.
  unfold of_Z at 1. unfold div. rewrite Qis_zero_inject. cbn [Z.eqb].
  assert (Hi : (0 <= inject_Z (Z.of_nat (wrong_selections cs ss)))%Q).
  { change 0%Q with (inject_Z 0). rewrite <- Zle_Qle. lia. }
  assert (Hm : (0 <= inject_Z (Z.of_nat (missed_options cs ss)))%Q).
  { change 0%Q with (inject_Z 0). rewrite <- Zle_Qle. lia. }
  destruct (wrong_selections cs ss + missed_options cs ss =? 0)%nat eqn:E.
  - apply Nat.eqb_eq in E.
    assert (E1 : wrong_selections cs ss = O) by lia.
    assert (E2 : missed_options cs ss = O) by lia.
    rewrite E1, E2 in Hc'. change (inject_Z (Z.of_nat 0)) with 0%Q in Hc'.
    assert (Hz : Qis_zero c = true) by (apply Qis_zero_spec; rewrite Hc'; ring).
    rewrite Hz. reflexivity.
  - apply Nat.eqb_neq in E.
    assert (Hneg : (c < 0)%Q).
    { rewrite Hc'.
      assert (H1 : (0 < inject_Z (Z.of_nat (wrong_selections cs ss
                                            + missed_options cs ss)))%Q).
      { change 0%Q with (inject_Z 0). rewrite <- Zlt_Qlt. lia. }
      rewrite Nat2Z.inj_add, inject_Z_plus in H1. lra. }
    assert (Hz : Qis_zero c = false).
    { destruct (Qis_zero c) eqn:Z0; [|reflexivity].
      apply Qis_zero_spec in Z0. lra. }
    rewrite Hz, (proj2 (Qis_neg_spec c) Hneg). cbn [negb].
    unfold mul, of_Z. rewrite Qis_zero_inject.
    destruct (Z.eqb_spec (points q) 0) as [E0|_]; [lia|].
    assert (Hpn : Qis_neg (inject_Z (points q)) = false).
    { destruct (Qis_neg (inject_Z (points q))) eqn:N0; [|reflexivity].
      apply Qis_neg_spec in N0. change 0%Q with (inject_Z 0) in N0.
      rewrite <- Zlt_Qlt in N0. lia. }
    rewrite Hpn. cbn. apply (round2_of_Z 0).
Qed.

Section SelectionExamples.

Local Open Scope string_scope.

Lemma gradeMultipleAnswer_score_range_witness :
  exists x,
    fst (gradeMultipleAnswer
           (SampleAnswers.selection SampleAnswers.four_options
              [VStr "a"; VStr "c"])) = Fin x
    /\ (0 <= x)%Q /\ (x <= inject_Z 4)%Q.
Proof.
  apply (gradeMultipleAnswer_score_range
           (SampleAnswers.selection SampleAnswers.four_options
              [VStr "a"; VStr "c"])
           [VStr "a"; VStr "b"] [VStr "a"; VStr "c"]);
    [ reflexivity | reflexivity
    | right; eexists; split; [reflexivity|discriminate]
    | discriminate ].
Defined.

Lemma gradeMultipleAnswer_exact_selection_witness :
  fst (gradeMultipleAnswer
         (SampleAnswers.selection VNull [VStr "b"; VStr "a"])) = of_Z 4.
Proof.
  apply (gradeMultipleAnswer_exact_selection
           (SampleAnswers.selection VNull [VStr "b"; VStr "a"])
           [VStr "a"; VStr "b"] [VStr "b"; VStr "a"]);
    [ reflexivity | reflexivity | left; reflexivity | discriminate
    | intros a [<-|[<-|[]]]; reflexivity
    | intros a [<-|[<-|[]]]; reflexivity ].
Defined.

Lemma gradeMultipleAnswer_without_options_witness :
  fst (gradeMultipleAnswer
         (SampleAnswers.selection (VArr []) [VStr "a"; VStr "b"])) = NaN
  /\ fst (gradeMultipleAnswer
            (SampleAnswers.selection (VArr []) [VStr "a"])) = zero.
Proof.
  split.
  - exact (gradeMultipleAnswer_without_options
             (SampleAnswers.selection (VArr []) [VStr "a"; VStr "b"])
             [VStr "a"; VStr "b"] [VStr "a"; VStr "b"]
             eq_refl eq_refl eq_refl eq_refl).
  - exact (gradeMultipleAnswer_without_options
             (SampleAnswers.selection (VArr []) [VStr "a"])
             [VStr "a"; VStr "b"] [VStr "a"]
             eq_refl eq_refl eq_refl eq_refl).
Defined.

End SelectionExamples.

(** ** Matching *)

Lemma strict_eqb_refl (v : value) : comparable v = true -> strict_eqb v v = true.
Proof.
  destruct v as [| |b|[x| |s]|s|l|l]; cbn; try discriminate; intros _;
    try reflexivity.
  - now destruct b.
  - now apply Qeq_bool_iff.
  - now destruct s.
  - apply String.eqb_refl.
Qed.

Lemma gradeMatching_score (q : question_row) :
  truthy (correct_answer q) = true ->
  truthy (response_data q) = true ->
  fst (gradeMatching q)
  = round2 (mul (div (of_nat (matched_pairs q)) (of_nat (total_pairs q)))
                (of_Z (points q))).
Proof.
  intros Hc Hs. unfold gradeMatching. rewrite Hc, Hs. cbn [negb orb fst].
  rewrite (count_by_fold
             (fun kv => strict_eqb (get (correct_answer q) (fst kv)) (snd kv))).
  reflexivity.
Qed.

Lemma assoc_absent (k : string) (l : list (string * value)) :
  ~ In k (map fst l) -> assoc k l = VUndef.
Proof.
  induction l as [|[k' v] l IH]; intros H; [reflexivity|]. cbn [assoc].
  destruct (String.eqb_spec k k') as [->|_].
  - elim H. now left.
  - apply IH. intros Hin. apply H. now right.
Qed.

Lemma assoc_present (k : string) (v : value) (l : list (string * value)) :
  NoDup (map fst l) -> In (k, v) l -> assoc k l = v.
Proof.
  induction l as [|[k' v'] l IH]; intros Hnd Hin; [contradiction|].
  cbn [assoc]. cbn [map fst] in Hnd. inversion Hnd as [|? ? Hk Hl]; subst.
  destruct Hin as [[= -> ->]|Hin].
  - now rewrite String.eqb_refl.
  - destruct (String.eqb_spec k k') as [->|_]; [|now apply IH].
    elim Hk. apply (in_map fst) in Hin. exact Hin.
Qed.

Lemma strict_eqb_undef (v : value) :
  strict_eqb VUndef v = true -> v = VUndef.
Proof. now destruct v. Qed.

(** X5.  When the key is an object that is not empty and the response
    is an object, the score of a matching question is a number between 0
    and the points of the question. *)
Theorem gradeMatching_score_range (q : question_row)
  (fields given : list (string * value)) :
  correct_answer q = VObj fields ->
  fields <> [] ->
  response_data q = VObj given ->
  NoDup (map fst given) ->
  Forall (fun kv => snd kv <> VUndef) given ->
  0 <= points q ->
  exists x,
    fst (gradeMatching q) = Fin x
    /\ (0 <= x)%Q /\ (x <= inject_Z (points q))%Q.
Proof.
  intros Hc Hne Hs Hnd Hdef Hp.
  rewrite gradeMatching_score by (rewrite ?Hc, ?Hs; reflexivity).
  apply share_range; [ | | exact Hp].
  - unfold total_pairs. rewrite Hc. cbn [entries].
    destruct fields; [congruence|cbn [List.length]; lia].
  - unfold matched_pairs, total_pairs. rewrite Hc, Hs. cbn [entries get].
    set (hit := fun kv : string * value =>
                  strict_eqb (assoc (fst kv) fields) (snd kv)).
    rewrite <- (length_map fst (filter hit given)).
    rewrite <- (length_map fst fields).
    apply NoDup_incl_length.
    + now apply NoDup_map_filter.
    + intros k Hk. apply in_map_iff in Hk. destruct Hk as [[k' v] [<- Hkv]].
      apply filter_In in Hkv. destruct Hkv as [Hin Hhit]. cbn [fst].
      destruct (in_dec string_dec k' (map fst fields)) as [Hyes|Hno];
        [exact Hyes|].
      unfold hit in Hhit. cbn [fst snd] in Hhit.
      rewrite (assoc_absent k' fields Hno) in Hhit.
      apply strict_eqb_undef in Hhit.
      rewrite Forall_forall in Hdef. now elim (Hdef (k', v) Hin).
Qed.

(** X6.  A response that holds the pairs of the key, in any order of
    its keys, earns the points of the question, when the partners are
    strings, finite numbers, booleans or null. *)
Theorem gradeMatching_every_pair_right (q : question_row)
  (fields given : list (string * value)) :
  correct_answer q = VObj fields ->
  fields <> [] ->
  NoDup (map fst fields) ->
  Forall (fun kv => comparable (snd kv) = true) fields ->
  response_data q = VObj given ->
  Permutation given fields ->
  fst (gradeMatching q) = of_Z (points q).
Proof.
  intros Hc Hne Hnd Hcmp Hs Hperm.
  rewrite gradeMatching_score by (rewrite ?Hc, ?Hs; reflexivity).
  assert (Hall : matched_pairs q = total_pairs q).
  { unfold matched_pairs, total_pairs. rewrite Hc, Hs. cbn [entries get].
    rewrite <- (Permutation_length Hperm). f_equal.
    apply forallb_filter_id. apply forallb_forall. intros [k v] Hin. cbn [fst snd].
    assert (Hin' : In (k, v) fields) by (now apply (Permutation_in _ Hperm)).
    rewrite (assoc_present k v fields Hnd Hin').
    apply strict_eqb_refl. rewrite Forall_forall in Hcmp.
    exact (Hcmp (k, v) Hin'). }
  rewrite Hall. apply share_full.
  unfold total_pairs. rewrite Hc. cbn [entries].
  destruct fields; [congruence|cbn [List.length]; lia].
Qed.

Section MatchingExamples.

Local Open Scope string_scope.

Lemma gradeMatching_score_range_witness :
  exists x,
    fst (gradeMatching
           (SampleAnswers.matching SampleAnswers.pairs
              [("1", VStr "x"); ("2", VStr "z")])) = Fin x
    /\ (0 <= x)%Q /\ (x <= inject_Z 4)%Q.
Proof.
  apply (gradeMatching_score_range
           (SampleAnswers.matching SampleAnswers.pairs
              [("1", VStr "x"); ("2", VStr "z")])
           SampleAnswers.pairs [("1", VStr "x"); ("2", VStr "z")]);
    [ reflexivity | discriminate | reflexivity
    | repeat constructor; simpl; intuition congruence
    | repeat constructor; discriminate
    | discriminate ].
Defined.

Lemma gradeMatching_every_pair_right_witness :
  fst (gradeMatching
         (SampleAnswers.matching SampleAnswers.pairs
            [("2", VStr "y"); ("1", VStr "x")])) = of_Z 4.
Proof.
  apply (gradeMatching_every_pair_right
           (SampleAnswers.matching SampleAnswers.pairs
              [("2", VStr "y"); ("1", VStr "x")])
           SampleAnswers.pairs [("2", VStr "y"); ("1", VStr "x")]);
    [ reflexivity | discriminate
    | repeat constructor; simpl; intuition congruence
    | repeat constructor
    | reflexivity
    | apply perm_swap ].
Defined.

End MatchingExamples.

(** ** Empty answer keys and answers of the wrong shape *)

Section AnswerKeys.

Local Open Scope string_scope.

(** X7.  An empty object as the answer key passes the format guard, and
    the division by its size gives NaN: matching reports
    "0 out of 0 matches correct", fill-in-blank "All answers correct",
    both with the score NaN. *)
Theorem empty_answer_key_is_not_a_number (q : question_row) :
  correct_answer q = VObj [] ->
  truthy (response_data q) = true ->
  Forall (fun kv => snd kv <> VUndef) (entries (response_data q)) ->
  gradeMatching q = (NaN, "0 out of 0 matches correct")
  /\ (truthy (requiresManualGrading (metadata_or_empty q)) = false ->
      gradeFillInBlank q
      = Normal {| score := NaN;
                  feedback := "All answers correct";
                  needsManualGrading :=
                    review_flag (metadata_or_empty q) NaN |}).
Proof.
  intros Hc Hs Hdef. split.
  - unfold gradeMatching. rewrite Hc, Hs. cbn [truthy negb orb entries get].
    rewrite (count_by_fold
               (fun kv : string * value => strict_eqb (assoc (fst kv) []) (snd kv))).
    rewrite filter_nothing; [reflexivity|].
    intros [k v] Hin. cbn [assoc fst snd].
    destruct (strict_eqb VUndef v) eqn:E; [|reflexivity].
    apply strict_eqb_undef in E. rewrite Forall_forall in Hdef.
    now elim (Hdef (k, v) Hin).
  - intros Hm. unfold gradeFillInBlank. rewrite Hc, Hs, Hm. reflexivity.
Qed.

Lemma empty_answer_key_is_not_a_number_witness :
  gradeMatching (answered "matching" 4 (VObj []) (VObj [("1", VStr "x")]) None)
  = (NaN, "0 out of 0 matches correct")
  /\ gradeFillInBlank
       (answered "fill_in_blank" 4 (VObj []) (VObj [("1", VStr "x")]) None)
     = Normal {| score := NaN; feedback := "All answers correct";
                 needsManualGrading := VUndef |}.
Proof.
  split.
  - apply (empty_answer_key_is_not_a_number
             (answered "matching" 4 (VObj []) (VObj [("1", VStr "x")]) None));
      [reflexivity | reflexivity | repeat constructor; discriminate].
  - apply (empty_answer_key_is_not_a_number
             (answered "fill_in_blank" 4 (VObj []) (VObj [("1", VStr "x")])
                None));
      [reflexivity | reflexivity | repeat constructor; discriminate
      | reflexivity].
Defined.



Lemma count_blanks_throws (studentAnswers cs : value) :
  forall (blanks : list (string * value)) (n : nat) (wrong : list string),
    (exists blank, In blank blanks
                   /\ blank_is_correct studentAnswers cs blank = Thrown) ->
    count_blanks studentAnswers cs blanks n wrong = Thrown.
Proof.
  induction blanks as [|b blanks IH]; intros n wrong [blank [Hin Hthrow]];
    [contradiction|].
  cbn [count_blanks].
  destruct (blank_is_correct studentAnswers cs b) as [hit|] eqn:E;
    [|reflexivity].
  assert (Hrest : exists blank, In blank blanks
                    /\ blank_is_correct studentAnswers cs blank = Thrown).
  { exists blank. split; [|exact Hthrow].
    destruct Hin as [->|Hin]; [congruence|exact Hin]. }
  cbn [cbind]. destruct hit; now apply IH.
Qed.

Lemma compareAnswers_not_text (given accepted cs : value) :
  negb (is_text given) || negb (is_text accepted) = true ->
  compareAnswers given accepted cs = Thrown.
Proof.
  unfold compareAnswers.
  destruct given, accepted; cbn; try discriminate;
    destruct (negb (truthy cs)); reflexivity.
Qed.

Lemma ill_typed_blank_throws (studentAnswers cs : value)
  (blank : string * value) :
  ill_typed_blank studentAnswers blank = true ->
  blank_is_correct studentAnswers cs blank = Thrown.
Proof.
  destruct blank as [k accepted]. unfold ill_typed_blank, blank_is_correct.
  cbn [fst snd]. intros H. apply andb_prop in H. destruct H as [Ht H].
  rewrite Ht. cbn [negb].
  destruct accepted as [| |b|n|s|[|first rest]|l];
    try (now apply compareAnswers_not_text); [discriminate|].
  cbn [some_accepted]. now rewrite compareAnswers_not_text.
Qed.

(** X9.  A blank answered with something that is not a string (a number,
    say), or whose accepted answer is not a string, makes the comparison
    throw: [gradeFillInBlank] does not return. *)
Theorem gradeFillInBlank_ill_typed_blank (q : question_row) :
  truthy (correct_answer q) = true ->
  truthy (response_data q) = true ->
  truthy (requiresManualGrading (metadata_or_empty q)) = false ->
  existsb (ill_typed_blank (response_data q)) (entries (correct_answer q))
    = true ->
  gradeFillInBlank q = Thrown.
Proof.
  intros Hc Hs Hm Hill. unfold gradeFillInBlank. rewrite Hc, Hs, Hm.
  cbn [negb orb]. rewrite count_blanks_throws; [reflexivity|].
  apply existsb_exists in Hill. destruct Hill as [blank [Hin Hb]].
  exists blank. split; [exact Hin|]. now apply ill_typed_blank_throws.
Qed.

Lemma gradeFillInBlank_ill_typed_blank_witness :
  gradeFillInBlank
    (answered "fill_in_blank" 6 (VObj [("1", VStr "Paris")])
       (VObj [("1", VNum (of_Z 42))]) None)
  = Thrown.
Proof.
  apply (gradeFillInBlank_ill_typed_blank
           (answered "fill_in_blank" 6 (VObj [("1", VStr "Paris")])
              (VObj [("1", VNum (of_Z 42))]) None));
    reflexivity.
Defined.

(** X10.  Past its guards, [gradeShortAnswer] throws exactly when the
    response or the stored answer is not a string. *)
Theorem gradeShortAnswer_throws_iff (env : host) (q : question_row) :
  truthy (correct_answer q) = true ->
  truthy (response_data q) = true ->
  truthy (requiresManualGrading (metadata_or_empty q)) = false ->
  gradeShortAnswer env q = Thrown
  <-> is_text (response_data q) && is_text (correct_answer q) = false.
Proof.
  intros Hc Hs Hm. unfold gradeShortAnswer. rewrite Hc, Hs, Hm.
  cbn [negb orb]. unfold calculateTextSimilarity.
  destruct (response_data q), (correct_answer q); cbn;
    try (split; [reflexivity | reflexivity]).
  split; [|discriminate].
  match goal with
  | |- context [if ?c then _ else _] => destruct c
  end; [discriminate|].
  match goal with
  | |- context [if ?c then _ else _] => destruct c
  end; discriminate.
Qed.

Lemma gradeShortAnswer_throws_iff_witness :
  gradeShortAnswer Sample.sample_host
    (answered "short_answer" 4 (VStr "Paris") (VNum (of_Z 42)) None)
  = Thrown.
Proof.
  apply (gradeShortAnswer_throws_iff Sample.sample_host
           (answered "short_answer" 4 (VStr "Paris") (VNum (of_Z 42)) None)
           eq_refl eq_refl eq_refl).
  reflexivity.
Defined.

Lemma Qabs_zero_iff (x : Q) : (Qabs x <= 0)%Q <-> (x == 0)%Q.
Proof.
  rewrite Qabs_Qle_condition. split.
  - intros [H1 H2]. lra.
  - intros ->. split; lra.
Qed.

Lemma exact_comparison (a b : number) :
  le (Num.abs (sub a b)) zero = same_number a b.
Proof.
  destruct a as [x| |s], b as [y| |s']; try reflexivity.
  - cbn [sub neg add Num.abs le zero of_Z same_number].
    apply eq_true_iff_eq. rewrite Qle_bool_iff, Qeq_bool_iff.
    rewrite !Qred_correct. change (inject_Z 0) with 0%Q.
    rewrite Qabs_zero_iff. split; intros H; lra.
  - destruct s, s'; reflexivity.
Qed.

(** X11.  [gradeComputational] on a question that carries the hints of
    a numeric question, without the manual-only hint and without a
    tolerance (or with the tolerance 0).  A correct answer or a response
    that is falsy, the number 0 among them, is an invalid answer: score 0
    and no flag.  Otherwise the answer is right, for the full points,
    exactly when both answers parse to the same finite number; an answer
    that does not parse is graded incorrect, and an incorrect answer is
    flagged only when [reviewIncorrect] is [true].  This is the strategy
    once the hints are loaded: the questions query of [gradeSubmission]
    selects none, and no run of it reaches this case. *)
Theorem gradeComputational_exact_by_default (env : host) (q : question_row)
  (m : hints) :
  metadata q = Some m ->
  truthy (requiresManualGrading m) = false ->
  hint_type m = VStr "numeric" ->
  hint_or (tolerance m) zero = zero ->
  gradeComputational env q
  = if negb (truthy (correct_answer q)) || negb (truthy (response_data q))
    then {| score := zero; feedback := "Invalid answer format";
            needsManualGrading := VBool false |}
    else if same_number (parseFloat env (response_data q))
                        (parseFloat env (correct_answer q))
    then {| score := of_Z (points q); feedback := "Correct answer";
            needsManualGrading := VBool false |}
    else {| score := zero; feedback := "Incorrect answer";
            needsManualGrading := VBool (is_true (reviewIncorrect m)) |}.
Proof.
  intros Hmeta Hm Hty Htol. unfold gradeComputational, metadata_or_empty.
  rewrite Hmeta.
  destruct (negb (truthy (correct_answer q))
            || negb (truthy (response_data q))); [reflexivity|].
  rewrite Hm, Hty, Htol. cbn [strict_eqb].
  rewrite String.eqb_refl, exact_comparison.
  now destruct (same_number _ _).
Qed.

(** 10 answered 20/2 is right for the four points; 0 answered 0 is an
    invalid answer. *)
Lemma gradeComputational_exact_by_default_witness :
  gradeComputational Sample.sample_host
    (answered "computational" 4 (VNum (of_Z 10)) (VNum (Fin (20 # 2)))
       (Some SampleAnswers.numeric))
  = {| score := of_Z 4; feedback := "Correct answer";
       needsManualGrading := VBool false |}
  /\ gradeComputational Sample.sample_host
       (answered "computational" 4 (VNum zero) (VNum zero)
          (Some SampleAnswers.numeric))
     = {| score := zero; feedback := "Invalid answer format";
          needsManualGrading := VBool false |}.
Proof.
  split.
  - exact (gradeComputational_exact_by_default Sample.sample_host
             (answered "computational" 4 (VNum (of_Z 10)) (VNum (Fin (20 # 2)))
                (Some SampleAnswers.numeric))
             SampleAnswers.numeric eq_refl eq_refl eq_refl eq_refl).
  - exact (gradeComputational_exact_by_default Sample.sample_host
             (answered "computational" 4 (VNum zero) (VNum zero)
                (Some SampleAnswers.numeric))
             SampleAnswers.numeric eq_refl eq_refl eq_refl eq_refl).
Defined.

End AnswerKeys.

(** ** What [compareAnswers] does not see *)

Section Normalisation.

Local Open Scope string_scope.

Lemma lower_ascii_idempotent (c : ascii) :
  lower_ascii (lower_ascii c) = lower_ascii c.
Proof. destruct c as [[] [] [] [] [] [] [] []]; vm_compute; reflexivity. Qed.

Lemma lower_ascii_space (c : ascii) :
  is_space c = true -> lower_ascii c = c.
Proof.
  destruct c as [[] [] [] [] [] [] [] []]; vm_compute; intros H;
    congruence.
Qed.

Lemma toLowerCase_idempotent (s : string) :
  toLowerCase (toLowerCase s) = toLowerCase s.
Proof.
  induction s as [|c s IH]; [reflexivity|].
  cbn [toLowerCase]. now rewrite lower_ascii_idempotent, IH.
Qed.

Lemma toLowerCase_app (s t : string) :
  toLowerCase (s ++ t) = toLowerCase s ++ toLowerCase t.
Proof.
  induction s as [|c s IH]; [reflexivity|].
  cbn [append toLowerCase]. now rewrite IH.
Qed.

Lemma toLowerCase_blank (s : string) : all_blank s = true -> toLowerCase s = s.
Proof.
  induction s as [|c s IH]; [reflexivity|].
  cbn [all_blank toLowerCase]. intros H. apply andb_prop in H.
  destruct H as [Hc Hs]. now rewrite (lower_ascii_space c Hc), (IH Hs).
Qed.

Lemma trimStart_blank (pad s : string) :
  all_blank pad = true -> trimStart (pad ++ s) = trimStart s.
Proof.
  induction pad as [|c pad IH]; [reflexivity|].
  cbn [all_blank append trimStart]. intros H. apply andb_prop in H.
  destruct H as [Hc Hp]. rewrite Hc. now apply IH.
Qed.

Lemma trimEnd_blank_only (pad : string) :
  all_blank pad = true -> trimEnd pad = EmptyString.
Proof.
  induction pad as [|c pad IH]; [reflexivity|].
  cbn [all_blank trimEnd]. intros H. apply andb_prop in H.
  destruct H as [Hc Hp]. now rewrite (IH Hp), Hc.
Qed.

Lemma trimEnd_blank (s pad : string) :
  all_blank pad = true -> trimEnd (s ++ pad) = trimEnd s.
Proof.
  intros Hp. induction s as [|c s IH].
  - cbn [append]. now apply trimEnd_blank_only.
  - cbn [append trimEnd]. now rewrite IH.
Qed.

Lemma trim_padded (pad1 s pad2 : string) :
  all_blank pad1 = true -> all_blank pad2 = true ->
  trim (pad1 ++ s ++ pad2) = trim s.
Proof.
  intros H1 H2. unfold trim. rewrite (trimStart_blank pad1 _ H1).
  induction s as [|c s IH].
  - cbn [append trimStart].
    assert (E : trimStart pad2 = EmptyString).
    { clear -H2. induction pad2 as [|c p IH]; [reflexivity|].
      cbn [all_blank trimStart] in *. apply andb_prop in H2.
      destruct H2 as [-> Hp]. now apply IH. }
    now rewrite E.
  - cbn [append trimStart]. destruct (is_space c); [exact IH|].
    change (String c (s ++ pad2)) with (String c s ++ pad2).
    now apply trimEnd_blank.
Qed.

(** X12.  [compareAnswers] on strings does not see blanks around the
    given answer, is symmetric, and unless the comparison is case
    sensitive does not see the case of ASCII letters. *)
Theorem compareAnswers_ignores_padding_and_case
  (given accepted pad1 pad2 : string) (caseSensitive : value) :
  all_blank pad1 = true ->
  all_blank pad2 = true ->
  compareAnswers (VStr (pad1 ++ given ++ pad2)) (VStr accepted) caseSensitive
  = compareAnswers (VStr given) (VStr accepted) caseSensitive
  /\ compareAnswers (VStr accepted) (VStr given) caseSensitive
     = compareAnswers (VStr given) (VStr accepted) caseSensitive
  /\ (truthy caseSensitive = false ->
      compareAnswers (VStr (toLowerCase given)) (VStr accepted) caseSensitive
      = compareAnswers (VStr given) (VStr accepted) caseSensitive).
Proof.
  intros H1 H2. unfold compareAnswers.
  destruct (truthy caseSensitive); cbn [negb method_toLowerCase method_trim
                                         cbind].
  - rewrite (trim_padded pad1 given pad2 H1 H2).
    split; [reflexivity|]. split; [|discriminate].
    now rewrite String.eqb_sym.
  - rewrite !toLowerCase_app, (toLowerCase_blank pad1 H1),
      (toLowerCase_blank pad2 H2).
    rewrite (trim_padded pad1 (toLowerCase given) pad2 H1 H2).
    split; [reflexivity|]. split; [now rewrite String.eqb_sym|].
    intros _. now rewrite toLowerCase_idempotent.
Qed.

Lemma compareAnswers_ignores_padding_and_case_witness :
  compareAnswers (VStr ("  " ++ "Paris" ++ " ")) (VStr "paris") VUndef
  = compareAnswers (VStr "Paris") (VStr "paris") VUndef.
Proof.
  apply (compareAnswers_ignores_padding_and_case "Paris" "paris" "  " " "
           VUndef);
    reflexivity.
Defined.

End Normalisation.

(** ** The rows of a run carry no hints *)

Section WithoutHints.

Variable env : host.

Local Open Scope string_scope.


End WithoutHints.

Section WithoutHintsExample.

Local Open Scope string_scope.


End WithoutHintsExample.

(** ** A strategy that throws in a run *)

Section StrategyError.

Variable env : host.

Lemma grade_questions_throws (t : Z) (f : bool) :
  forall (rows : list question_row) (totalScore : number)
         (gradingResults : list grading_result) (d : database),
    existsb (throws env) rows = true ->
    fst (grade_questions env rows totalScore gradingResults
           {| db := d; answers_left := None; store_failed := f; now := t |})
    = Thrown.
Proof.
  induction rows as [|q rows IH]; intros totalScore gradingResults d Hthrow;
    [discriminate|].
  cbn [existsb] in Hthrow. cbn [grade_questions].
  unfold throws at 1 in Hthrow. unfold has_response, missing in Hthrow.
  destruct (response_id q) as [rid|]; [|now apply IH].
  destruct (rid =? 0); [now apply IH|].
  cbn [negb andb] in Hthrow.
  destruct (gradeQuestion env q) as [v|]; [|reflexivity].
  cbn [orb] in Hthrow. unfold bind at 1, lift.
  destruct (negb (truthy (needsManualGrading v))).
  - rewrite bind_execute by discriminate. now apply IH.
  - now apply IH.
Qed.

(** X14.  When a strategy throws on one answered question, the run
    ends with status 500; the submission is not finalized and at most
    responses have changed. *)
Theorem gradeSubmission_strategy_error
  (submissionId : Z) (w : world) (s : submission) (a : assignment) :
  submissionId <> 0 ->
  reliable w ->
  find_submission submissionId (db w) = Some s ->
  find_assignment (sub_assignment_id s) (db w) = Some a ->
  status s <> "graded"%string ->
  existsb (throws env)
          (Sql.select_questions submissionId (sub_assignment_id s) (db w))
    = true ->
  fst (gradeSubmission env (Some submissionId) w)
    = reply 500 "Internal server error"
  /\ same_but_responses (db w)
       (db (snd (gradeSubmission env (Some submissionId) w))).
Proof.
  intros Hid Hw Hs Ha Hst Hthrow.
  assert (Hm : missing (Some submissionId) = false).
  { simpl. now apply Z.eqb_neq. }
  pose proof (reliable_answers w Hw) as Hans.
  assert (Hrun : exists w',
             gradeSubmission env (Some submissionId) w
             = (reply 500 "Internal server error", w')
             /\ same_but_responses (db w) (db w')).
  { unfold gradeSubmission, try_catch, gradeSubmission_body. rewrite Hm.
    rewrite (bind_select _ _ w Hans). rewrite (reliable_after_read w Hw).
    destruct (select_submission_some _ _ _ _ Hs Ha) as [rest ->].
    apply String.eqb_neq in Hst. rewrite Hst.
    rewrite (bind_select _ _ w Hans). rewrite (reliable_after_read w Hw).
    set (rows := Sql.select_questions submissionId (sub_assignment_id s) (db w))
      in *.
    unfold bind at 1.
    pose proof (grade_questions_outcome env rows zero [] w) as [Hsame _].
    destruct w as [d left failed t]. unfold reliable in Hw. simpl in Hw.
    subst left. cbn [db] in *.
    pose proof (grade_questions_throws t failed rows zero [] d Hthrow) as Hf.
    destruct (grade_questions env rows zero []
                {| db := d; answers_left := None; store_failed := failed;
                   now := t |}) as [c w'].
    cbn [fst snd] in *. subst c. exists w'. split; [reflexivity|exact Hsame]. }
  destruct Hrun as [w' [-> Hsame]]. now split.
Qed.

End StrategyError.

(** ** Runs without answers, reports and repeated runs *)

Lemma select_questions_in (submissionId assignmentId : Z) (d : database)
  (row : question_row) :
  In row (Sql.select_questions submissionId assignmentId d) ->
  exists q qt qr,
    In q (questions d)
    /\ q_assignment_id q = assignmentId
    /\ In qt (question_types d)
    /\ q_type_id q = type_id qt
    /\ In qr (Sql.left_join_responses submissionId d q)
    /\ row = Sql.question_columns q qt qr.
Proof.
  unfold Sql.select_questions. intros H. apply in_map_iff in H.
  destruct H as [[q0 row0] [<- H]]. cbn [snd].
  apply (Permutation_in _ (Permutation_sym (order_by_perm _ _))) in H.
  unfold Sql.joined_questions in H. apply in_flat_map in H.
  destruct H as [q [Hq H]]. apply filter_In in Hq. destruct Hq as [Hq Hasg].
  apply in_flat_map in H. destruct H as [qt [Hqt H]].
  apply filter_In in Hqt. destruct Hqt as [Hqt Hty].
  apply in_map_iff in H. destruct H as [qr [[= <- <-] Hqr]].
  exists q, qt, qr. apply Z.eqb_eq in Hasg, Hty. now repeat split.
Qed.

Lemma left_join_responses_in (submissionId : Z) (d : database) (q : question)
  (r : question_response) :
  In (Some r) (Sql.left_join_responses submissionId d q) ->
  In r (question_responses d) /\ r_submission_id r = submissionId
  /\ r_question_id r = q_question_id q.
Proof.
  unfold Sql.left_join_responses.
  destruct (filter _ (question_responses d)) as [|r0 l] eqn:E.
  - intros [H|[]]. discriminate.
  - rewrite <- E. intros H. apply in_map_iff in H. destruct H as [r' [[= ->] H]].
    apply filter_In in H. destruct H as [Hin H].
    apply andb_prop in H. destruct H as [H1 H2].
    apply Z.eqb_eq in H1, H2. now repeat split.
Qed.

Section NothingAnswered.

Variable env : host.

Lemma unanswered_rows (rows : list question_row) (d : database) (t : Z) :
  Forall (fun row => response_id row = None) rows ->
  existsb (throws env) rows = false
  /\ existsb (flagged env) rows = false
  /\ filter (written env) rows = []
  /\ map (result_of env) rows = map no_response rows
  /\ fold_left (write_score env t) rows d = d.
Proof.
  induction 1 as [|row rows Hrow _ IH].
  - now repeat split.
  - destruct IH as [I1 [I2 [I3 [I4 I5]]]].
    assert (Hhas : has_response row = false).
    { unfold has_response. now rewrite Hrow. }
    assert (E1 : throws env row = false)
      by (unfold throws; now rewrite Hhas).
    assert (E2 : flagged env row = false)
      by (unfold flagged; now rewrite Hhas).
    assert (E3 : written env row = false)
      by (unfold written; now rewrite Hhas).
    assert (E4 : result_of env row = no_response row)
      by (unfold result_of; now rewrite Hhas).
    assert (E5 : write_score env t d row = d)
      by (unfold write_score; now rewrite E3).
    cbn [existsb filter map fold_left].
    rewrite E1, E2, E3, E4, E5, I1, I2, I3, I4, I5. now repeat split.
Qed.

(** X15.  A submission without any response (or of an assignment
    without questions) is finalized with the total 0: every question is
    reported with "No response provided" and nothing is flagged. *)
Theorem gradeSubmission_nothing_answered
  (submissionId : Z) (w : world) (s : submission) (a : assignment) :
  submissionId <> 0 ->
  reliable w ->
  find_submission submissionId (db w) = Some s ->
  find_assignment (sub_assignment_id s) (db w) = Some a ->
  status s <> "graded"%string ->
  (forall r, In r (question_responses (db w)) ->
             r_submission_id r <> submissionId) ->
  let rows := Sql.select_questions submissionId (sub_assignment_id s) (db w) in
  fst (gradeSubmission env (Some submissionId) w)
  = {| statusCode := 200;
       body := GradeReport submissionId zero (total_points a) false
                 (map no_response rows) |}
  /\ db (snd (gradeSubmission env (Some submissionId) w))
     = Sql.finalize_submission zero submissionId (now w) (db w)
  /\ find_submission submissionId
       (db (snd (gradeSubmission env (Some submissionId) w)))
     = Some (finalized s zero (now w)).
Proof.
  intros Hid Hw Hs Ha Hst Hnone rows.
  assert (Hrows : Forall (fun row => response_id row = None) rows).
  { apply Forall_forall. intros row Hin.
    apply select_questions_in in Hin.
    destruct Hin as [q [qt [[r|] [_ [_ [_ [_ [Hqr ->]]]]]]]]; [|reflexivity].
    apply left_join_responses_in in Hqr. destruct Hqr as [Hr [Hsub _]].
    now elim (Hnone r Hr). }
  destruct (unanswered_rows rows (db w) (now w) Hrows)
    as [H1 [H2 [H3 [H4 H5]]]].
  rewrite (gradeSubmission_run env submissionId w s a Hid Hw Hs Ha Hst H1).
  fold rows. rewrite H2, H3, H4, H5. cbn [fst snd db map].
  split; [reflexivity|]. split; [reflexivity|].
  rewrite find_finalized, Hs. reflexivity.
Qed.

End NothingAnswered.

Section Report.

Variable env : host.

Lemma written_total (rows : list question_row) :
  Num.sum (map (fun q => score (verdict_of env q)) (filter (written env) rows))
  = unflagged_total (map (result_of env) rows).
Proof.
  unfold unflagged_total.
  induction rows as [|q rows IH]; [reflexivity|].
  cbn [filter map].
  destruct (has_response q) eqn:Hhas.
  - assert (E : result_of env q
                = {| res_questionId := question_id q;
                     res_responseId := response_id q;
                     res_score := score (verdict_of env q);
                     res_feedback := feedback (verdict_of env q);
                     res_needsManualGrading :=
                       needsManualGrading (verdict_of env q) |})
      by (unfold result_of; now rewrite Hhas).
    rewrite E. unfold written at 1. rewrite Hhas.
    cbn [andb res_needsManualGrading].
    destruct (negb (truthy (needsManualGrading (verdict_of env q))));
      [|exact IH].
    cbn [map res_score]. now rewrite !sum_cons, IH.
  - assert (E : result_of env q = no_response q)
      by (unfold result_of; now rewrite Hhas).
    rewrite E. unfold written at 1. rewrite Hhas.
    unfold no_response. cbn [andb res_needsManualGrading truthy negb map
                               res_score].
    rewrite sum_cons, add_zero_l by apply sum_canonical. exact IH.
Qed.

(** X16.  The report of a run is consistent: one result for each row
    of the questions query and in its order, [needsManualGrading] true
    exactly when a result is flagged, [maxPoints] the total of the
    assignment, and [totalScore] the sum of the scores of the results
    that are not flagged. *)
Theorem gradeSubmission_report
  (submissionId : Z) (w : world) (s : submission) (a : assignment) :
  submissionId <> 0 ->
  reliable w ->
  find_submission submissionId (db w) = Some s ->
  find_assignment (sub_assignment_id s) (db w) = Some a ->
  status s <> "graded"%string ->
  let rows := Sql.select_questions submissionId (sub_assignment_id s) (db w) in
  existsb (throws env) rows = false ->
  exists results,
    fst (gradeSubmission env (Some submissionId) w)
    = {| statusCode := 200;
         body := GradeReport submissionId (unflagged_total results)
                   (total_points a)
                   (existsb (fun r => truthy (res_needsManualGrading r))
                            results)
                   results |}
    /\ map res_questionId results = map question_id rows
    /\ map res_responseId results
       = map (fun q => if has_response q then response_id q else None) rows.
Proof.
  intros Hid Hw Hs Ha Hst rows Hthrow.
  exists (map (result_of env) rows).
  rewrite (gradeSubmission_run env submissionId w s a Hid Hw Hs Ha Hst Hthrow).
  fold rows. cbn [fst]. rewrite written_total, results_flagged.
  split; [reflexivity|]. rewrite !map_map.
  split; apply map_ext; intros q; unfold result_of;
    now destruct (has_response q).
Qed.

End Report.

Lemma filter_map_same {A : Type} (p : A -> bool) (g : A -> A) (l : list A) :
  (forall x, p (g x) = p x) -> filter p (map g l) = map g (filter p l).
Proof.
  intros H. induction l as [|x l IH]; [reflexivity|].
  cbn [map filter]. rewrite H, IH. now destruct (p x).
Qed.

Lemma select_questions_rescored (submissionId assignmentId : Z)
  (d d' : database) (g : question_response -> question_response) :
  questions d' = questions d ->
  question_types d' = question_types d ->
  question_responses d' = map g (question_responses d) ->
  (forall r, r_response_id (g r) = r_response_id r
             /\ r_submission_id (g r) = r_submission_id r
             /\ r_question_id (g r) = r_question_id r
             /\ r_response_data (g r) = r_response_data r) ->
  Sql.select_questions submissionId assignmentId d'
  = Sql.select_questions submissionId assignmentId d.
Proof.
  intros Hq Hqt Hr Hg. unfold Sql.select_questions. do 2 f_equal.
  unfold Sql.joined_questions. rewrite Hq, Hqt.
  apply flat_map_ext. intros q. apply flat_map_ext. intros qt.
  unfold Sql.left_join_responses. rewrite Hr.
  rewrite filter_map_same.
  2:{ intros r. destruct (Hg r) as [_ [-> [-> _]]]. reflexivity. }
  destruct (filter _ (question_responses d)) as [|r0 m]; [reflexivity|].
  change (map g (r0 :: m)) with (g r0 :: map g m). cbv iota.
  change (g r0 :: map g m) with (map g (r0 :: m)).
  rewrite !map_map. apply map_ext. intros r. f_equal.
  unfold Sql.question_columns. cbn [option_map].
  destruct (Hg r) as [-> [_ [_ ->]]]. reflexivity.
Qed.

Section Repeatable.

Variable env : host.

Lemma rescore_keeps (t : Z) (rows : list question_row) :
  forall r : question_response,
    r_response_id (fold_left (rescore env t) rows r) = r_response_id r
    /\ r_submission_id (fold_left (rescore env t) rows r) = r_submission_id r
    /\ r_question_id (fold_left (rescore env t) rows r) = r_question_id r
    /\ r_response_data (fold_left (rescore env t) rows r) = r_response_data r.
Proof.
  induction rows as [|q rows IH]; intros r; [now repeat split|].
  cbn [fold_left]. destruct (IH (rescore env t r q)) as [-> [-> [-> ->]]].
  unfold rescore. destruct (written env q && _); now repeat split.
Qed.

Lemma write_score_same (t : Z) (rows : list question_row) :
  forall d : database,
    same_but_responses d (fold_left (write_score env t) rows d).
Proof.
  induction rows as [|q rows IH]; intros d; [apply same_but_responses_refl|].
  cbn [fold_left].
  apply (same_but_responses_trans _ (write_score env t d q)); [|apply IH].
  unfold write_score. destruct (written env q);
    [|apply same_but_responses_refl].
  unfold same_but_responses. now repeat split.
Qed.

(** X17.  While a question is flagged the submission stays ungraded,
    and grading it again gives the same report. *)
Theorem gradeSubmission_repeatable_while_flagged
  (submissionId : Z) (w : world) (s : submission) (a : assignment) :
  submissionId <> 0 ->
  reliable w ->
  find_submission submissionId (db w) = Some s ->
  find_assignment (sub_assignment_id s) (db w) = Some a ->
  status s <> "graded"%string ->
  let rows := Sql.select_questions submissionId (sub_assignment_id s) (db w) in
  existsb (throws env) rows = false ->
  existsb (flagged env) rows = true ->
  let once := snd (gradeSubmission env (Some submissionId) w) in
  fst (gradeSubmission env (Some submissionId) once)
  = fst (gradeSubmission env (Some submissionId) w)
  /\ submissions (db (snd (gradeSubmission env (Some submissionId) once)))
     = submissions (db w).
Proof.
  intros Hid Hw Hs Ha Hst rows Hthrow Hflag once.
  pose proof (gradeSubmission_run env submissionId w s a Hid Hw Hs Ha Hst
                Hthrow) as Hrun.
  cbv zeta in Hrun. fold rows in Hrun. rewrite Hflag in Hrun.
  set (scored := fold_left (write_score env (now w)) rows (db w)) in *.
  assert (Honce : once = {| db := scored; answers_left := None;
                            store_failed := store_failed w; now := now w |}).
  { unfold once. now rewrite Hrun. }
  destruct (write_score_same (now w) rows (db w))
    as [Hsub [Hasg [Hty [Hqs _]]]].
  fold scored in Hsub, Hasg, Hty, Hqs.
  assert (Hrows : Sql.select_questions submissionId (sub_assignment_id s)
                    (db once) = rows).
  { rewrite Honce. cbn [db].
    apply (select_questions_rescored _ _ _ _
             (fun r => fold_left (rescore env (now w)) rows r));
      [exact Hqs | exact Hty | apply write_score_responses
      | apply rescore_keeps]. }
  assert (Hs' : find_submission submissionId (db once) = Some s).
  { rewrite Honce. cbn [db]. unfold find_submission. rewrite Hsub. exact Hs. }
  assert (Ha' : find_assignment (sub_assignment_id s) (db once) = Some a).
  { rewrite Honce. cbn [db]. unfold find_assignment. rewrite Hasg. exact Ha. }
  assert (Hw' : reliable once) by (now rewrite Honce).
  assert (Hthrow' : existsb (throws env)
                      (Sql.select_questions submissionId (sub_assignment_id s)
                         (db once)) = false)
    by (now rewrite Hrows).
  rewrite (gradeSubmission_run env submissionId once s a Hid Hw' Hs' Ha' Hst
             Hthrow').
  rewrite Hrows, Hflag, Hrun. cbn [fst snd db]. split; [reflexivity|].
  rewrite write_score_submissions. rewrite Honce. cbn [db]. exact Hsub.
Qed.

End Repeatable.

Lemma filter_map_fixed {A : Type} (p : A -> bool) (g : A -> A) (l : list A) :
  (forall x, In x l -> p (g x) = p x) ->
  (forall x, In x l -> p x = true -> g x = x) ->
  filter p (map g l) = filter p l.
Proof.
  induction l as [|x l IH]; intros Hp Hg; [reflexivity|].
  cbn [map filter]. rewrite (Hp x (or_introl eq_refl)).
  rewrite IH;
    [ | intros y Hy; apply Hp; now right
      | intros y Hy; apply Hg; now right ].
  destruct (p x) eqn:E; [|reflexivity].
  now rewrite (Hg x (or_introl eq_refl) E).
Qed.

Section Isolation.

Variable env : host.

Lemma rescore_other (t : Z) (r : question_response) :
  forall rows : list question_row,
    (forall q, In q rows -> has_response q = true ->
               response_key q <> r_response_id r) ->
    fold_left (rescore env t) rows r = r.
Proof.
  induction rows as [|q rows IH]; intros H; [reflexivity|].
  cbn [fold_left].
  assert (E : rescore env t r q = r).
  { unfold rescore, written. destruct (has_response q) eqn:Hhas;
      [|reflexivity].
    pose proof (H q (or_introl eq_refl) Hhas) as Hne.
    apply not_eq_sym, Z.eqb_neq in Hne. rewrite Hne.
    now rewrite andb_false_r. }
  rewrite E. apply IH. intros q' Hq'. apply H. now right.
Qed.

(** X19.  With response ids as a key, a run changes no response of
    another submission and no other submission, and it never changes
    what a student sent. *)
Theorem gradeSubmission_leaves_other_submissions
  (submissionId : Z) (w : world) (s : submission) (a : assignment) :
  submissionId <> 0 ->
  reliable w ->
  find_submission submissionId (db w) = Some s ->
  find_assignment (sub_assignment_id s) (db w) = Some a ->
  status s <> "graded"%string ->
  NoDup (map r_response_id (question_responses (db w))) ->
  existsb (throws env)
          (Sql.select_questions submissionId (sub_assignment_id s) (db w))
    = false ->
  let after := db (snd (gradeSubmission env (Some submissionId) w)) in
  other_responses submissionId after = other_responses submissionId (db w)
  /\ other_submissions submissionId after
     = other_submissions submissionId (db w)
  /\ map r_response_data (question_responses after)
     = map r_response_data (question_responses (db w)).
Proof.
  intros Hid Hw Hs Ha Hst Hkeys Hthrow after.
  set (rows := Sql.select_questions submissionId (sub_assignment_id s) (db w))
    in *.
  set (scored := fold_left (write_score env (now w)) rows (db w)).
  assert (Hresp : question_responses after = question_responses scored).
  { unfold after.
    rewrite (gradeSubmission_run env submissionId w s a Hid Hw Hs Ha Hst
               Hthrow).
    fold rows. cbn [snd db]. fold scored.
    now destruct (existsb (flagged env) rows). }
  assert (Hsubs : other_submissions submissionId after
                  = other_submissions submissionId (db w)).
  { unfold after.
    rewrite (gradeSubmission_run env submissionId w s a Hid Hw Hs Ha Hst
               Hthrow).
    fold rows. cbn [snd db]. fold scored. unfold other_submissions.
    destruct (existsb (flagged env) rows).
    - unfold scored. now rewrite write_score_submissions.
    - unfold Sql.finalize_submission. cbn [submissions with_submissions].
      unfold scored. rewrite write_score_submissions.
      apply filter_map_fixed.
      + intros x _. now destruct (submission_id x =? submissionId) eqn:E;
          cbn [submission_id]; rewrite E.
      + intros x _ Hx. apply negb_true_iff in Hx. now rewrite Hx. }
  unfold other_responses. rewrite Hresp. unfold scored.
  rewrite write_score_responses.
  split; [|split; [exact Hsubs|]].
  - apply filter_map_fixed.
    + intros r _.
      now destruct (rescore_keeps env (now w) rows r) as [_ [-> _]].
    + intros r Hr Hother. apply rescore_other. intros q Hq Hhas Heq.
      apply select_questions_in in Hq.
      destruct Hq as [q0 [qt [[r'|] [_ [_ [_ [_ [Hqr ->]]]]]]]];
        [|discriminate].
      apply left_join_responses_in in Hqr. destruct Hqr as [Hr' [Hsub _]].
      unfold response_key in Heq. cbn in Heq.
      assert (r' = r)
        by (apply (NoDup_key_inj r_response_id _ _ _ Hkeys Hr' Hr Heq)).
      subst r'. apply negb_true_iff, Z.eqb_neq in Hother. contradiction.
  - rewrite map_map. apply map_ext. intros r.
    now destruct (rescore_keeps env (now w) rows r) as [_ [_ [_ ->]]].
Qed.

End Isolation.

Section RunExamples.

Local Open Scope string_scope.

Lemma gradeSubmission_strategy_error_witness :
  fst (gradeSubmission Sample.sample_host (Some 6) SampleAnswers.exam_world)
    = reply 500 "Internal server error"
  /\ same_but_responses SampleAnswers.exam_db
       (db (snd (gradeSubmission Sample.sample_host (Some 6)
                   SampleAnswers.exam_world))).
Proof.
  apply (gradeSubmission_strategy_error Sample.sample_host 6
           SampleAnswers.exam_world
           (Sample.mk_submission 6 5 7 "submitted" None)
           (Sample.mk_assignment 5 3 10 "Exam"));
    [discriminate | reflexivity | reflexivity | reflexivity | discriminate
    | reflexivity].
Defined.

Lemma gradeSubmission_nothing_answered_witness :
  fst (gradeSubmission Sample.sample_host (Some 7) SampleAnswers.exam_world)
  = {| statusCode := 200;
       body := GradeReport 7 zero 10 false
                 [ {| res_questionId := 20; res_responseId := None;
                      res_score := zero;
                      res_feedback := "No response provided";
                      res_needsManualGrading := VBool false |};
                   {| res_questionId := 21; res_responseId := None;
                      res_score := zero;
                      res_feedback := "No response provided";
                      res_needsManualGrading := VBool false |} ] |}
  /\ find_submission 7
       (db (snd (gradeSubmission Sample.sample_host (Some 7)
                   SampleAnswers.exam_world)))
     = Some (finalized (Sample.mk_submission 7 5 8 "submitted" None) zero 2000).
Proof.
  destruct (gradeSubmission_nothing_answered Sample.sample_host 7
              SampleAnswers.exam_world
              (Sample.mk_submission 7 5 8 "submitted" None)
              (Sample.mk_assignment 5 3 10 "Exam")
              ltac:(discriminate) eq_refl eq_refl eq_refl ltac:(discriminate))
    as [Hreport [_ Hfinal]].
  - intros r [<-|[<-|[]]]; discriminate.
  - split; [exact Hreport | exact Hfinal].
Defined.

Lemma gradeSubmission_report_witness :
  exists results,
    fst (gradeSubmission Sample.sample_host (Some 5) Sample.sample_world)
    = {| statusCode := 200;
         body := GradeReport 5 (unflagged_total results) 10
                   (existsb (fun r => truthy (res_needsManualGrading r))
                            results)
                   results |}
    /\ map res_questionId results = [10; 11; 12].
Proof.
  destruct (gradeSubmission_report Sample.sample_host 5 Sample.sample_world
              (Sample.mk_submission 5 4 8 "submitted" None)
              (Sample.mk_assignment 4 3 10 "Quiz")
              ltac:(discriminate) eq_refl eq_refl eq_refl ltac:(discriminate)
              eq_refl)
    as [results [Hreport [Hids _]]].
  exists results. split; [exact Hreport | exact Hids].
Defined.

Lemma gradeSubmission_repeatable_while_flagged_witness :
  fst (gradeSubmission Sample.sample_host (Some 5)
         (snd (gradeSubmission Sample.sample_host (Some 5)
                 Sample.sample_world)))
  = fst (gradeSubmission Sample.sample_host (Some 5) Sample.sample_world).
Proof.
  apply (gradeSubmission_repeatable_while_flagged Sample.sample_host 5
           Sample.sample_world
           (Sample.mk_submission 5 4 8 "submitted" None)
           (Sample.mk_assignment 4 3 10 "Quiz"));
    [discriminate | reflexivity | reflexivity | reflexivity | discriminate
    | reflexivity | reflexivity].
Defined.

Lemma gradeSubmission_again_is_rejected_witness :
  fst (gradeSubmission Sample.sample_host (Some 4)
         (snd (gradeSubmission Sample.sample_host (Some 4)
                 Sample.sample_world)))
  = reply 400 "Submission is already graded".
Proof.
  apply (gradeSubmission_again_is_rejected Sample.sample_host 4
           Sample.sample_world
           (Sample.mk_submission 4 4 7 "submitted" None)
           (Sample.mk_assignment 4 3 10 "Quiz"));
    [discriminate | reflexivity | reflexivity | reflexivity | discriminate
    | reflexivity | reflexivity].
Defined.

Lemma gradeSubmission_leaves_other_submissions_witness :
  other_responses 4
    (db (snd (gradeSubmission Sample.sample_host (Some 4)
                Sample.sample_world)))
  = other_responses 4 Sample.sample_db
  /\ other_submissions 4
       (db (snd (gradeSubmission Sample.sample_host (Some 4)
                   Sample.sample_world)))
     = other_submissions 4 Sample.sample_db.
Proof.
  destruct (gradeSubmission_leaves_other_submissions Sample.sample_host 4
              Sample.sample_world
              (Sample.mk_submission 4 4 7 "submitted" None)
              (Sample.mk_assignment 4 3 10 "Quiz")
              ltac:(discriminate) eq_refl eq_refl eq_refl ltac:(discriminate))
    as [Hresp [Hsubs _]].
  - simpl. repeat constructor; simpl; intuition congruence.
  - reflexivity.
  - split; [exact Hresp | exact Hsubs].
Defined.

End RunExamples.

(** ** Manual grading: unknown responses, null scores, and what is kept *)

Lemma with_question_responses_same (d : database) :
  with_question_responses d (question_responses d) = d.
Proof. now destruct d. Qed.

Lemma map_fixed {A : Type} (g : A -> A) (l : list A) :
  (forall x, In x l -> g x = x) -> map g l = l.
Proof.
  intros H. rewrite <- (map_id l) at 2. now apply map_ext_in.
Qed.

Lemma update_response_manual_unknown (score : option number)
  (feedback : string) (graderId : option Z) (responseId t : Z)
  (d : database) :
  (forall r, In r (question_responses d) -> r_response_id r <> responseId) ->
  Sql.update_response_manual score feedback graderId responseId t d = d.
Proof.
  intros H. unfold Sql.update_response_manual.
  rewrite map_fixed; [apply with_question_responses_same|].
  intros r Hr. apply H in Hr. apply Z.eqb_neq in Hr. now rewrite Hr.
Qed.

Lemma progress_rows_responses (responseId : Z) (d : database)
  (row : submission * question * question_response) :
  In row (Sql.progress_rows responseId d) ->
  In (snd row) (question_responses d) /\ r_response_id (snd row) = responseId.
Proof.
  unfold Sql.progress_rows. intros H. apply filter_In in H.
  destruct H as [H Hid]. apply Z.eqb_eq in Hid. split; [|exact Hid].
  apply in_flat_map in H. destruct H as [s [_ H]].
  apply in_flat_map in H. destruct H as [q [_ H]].
  apply in_map_iff in H. destruct H as [r [<- H]].
  apply filter_In in H. now destruct H.
Qed.

Lemma group_keys_from (rows : list (submission * question * question_response)) :
  forall (keys : list submission) (key : submission),
    In key (fold_left
              (fun keys row =>
                 if existsb (Sql.same_group (fst (fst row))) keys then keys
                 else keys ++ [fst (fst row)])
              rows keys) ->
    In key keys \/ exists row, In row rows /\ fst (fst row) = key.
Proof.
  induction rows as [|row rows IH]; intros keys key H; [now left|].
  cbn [fold_left] in H. apply IH in H. destruct H as [H|[row' [Hin E]]].
  - destruct (existsb _ keys); [now left|].
    apply in_app_or in H. destruct H as [H|[<-|[]]]; [now left|].
    right. exists row. split; [now left|reflexivity].
  - right. exists row'. split; [now right|exact E].
Qed.

Lemma same_group_refl (s : submission) : Sql.same_group s s = true.
Proof. unfold Sql.same_group. now rewrite !Z.eqb_refl. Qed.

Section ManualGrading.

Local Open Scope string_scope.

(** X20.  A response id that names no row is not an error: the
    handler answers 200 "Question graded successfully" and the store is
    as it was. *)
Theorem manualGradeQuestion_unknown_response
  (responseId : Z) (score : option number) (feedback : option string)
  (graderId : option Z) (w : world) :
  responseId <> 0 ->
  reliable w ->
  (forall r, In r (question_responses (db w)) ->
             r_response_id r <> responseId) ->
  manualGradeQuestion (Some responseId) (Some score) feedback graderId w
  = (reply 200 "Question graded successfully", w).
Proof.
  intros Hid Hw Hnone.
  assert (Hm : missing (Some responseId) = false).
  { simpl. now apply Z.eqb_neq. }
  assert (Hrows : Sql.progress_rows responseId (db w) = []).
  { destruct (Sql.progress_rows responseId (db w)) as [|row rows] eqn:E;
      [reflexivity|].
    assert (Hin : In row (Sql.progress_rows responseId (db w)))
      by (rewrite E; now left).
    apply progress_rows_responses in Hin. destruct Hin as [Hin Hrid].
    now elim (Hnone _ Hin). }
  unfold manualGradeQuestion, try_catch, manualGradeQuestion_body.
  rewrite Hm. cbn [orb].
  destruct w as [d left failed t]. unfold reliable in Hw. simpl in Hw.
  subst left. cbn [db now] in *.
  rewrite bind_execute by discriminate.
  cbn [db now answers_left store_failed option_map].
  rewrite (update_response_manual_unknown _ _ _ _ _ _ Hnone).
  rewrite bind_select by discriminate.
  cbn [db now answers_left store_failed option_map after_read].
  unfold Sql.select_progress. rewrite Hrows. reflexivity.
Qed.

Lemma manualGradeQuestion_unknown_response_witness :
  manualGradeQuestion (Some 99) (Some (Some (of_Z 2))) None (Some 1)
    Sample.sample_world
  = (reply 200 "Question graded successfully", Sample.sample_world).
Proof.
  apply (manualGradeQuestion_unknown_response 99 (Some (of_Z 2)) None (Some 1)
           Sample.sample_world);
    [discriminate | reflexivity |].
  intros r [<-|[<-|[<-|[<-|[<-|[]]]]]]; discriminate.
Defined.

(** X21.  A JSON null as the score clears the score of the response and
    never finalizes a submission. *)
Theorem manualGradeQuestion_null_score
  (responseId : Z) (feedback : option string) (graderId : option Z)
  (w : world) :
  responseId <> 0 ->
  reliable w ->
  let after :=
    db (snd (manualGradeQuestion (Some responseId) (Some None) feedback
               graderId w)) in
  fst (manualGradeQuestion (Some responseId) (Some None) feedback graderId w)
    = reply 200 "Question graded successfully"
  /\ submissions after = submissions (db w)
  /\ (forall r, In r (question_responses after) ->
                r_response_id r = responseId -> r_score r = None).
Proof.
  intros Hid Hw after.
  set (text := match feedback with Some f => f | None => EmptyString end).
  set (d1 := Sql.update_response_manual None text graderId responseId
               (now w) (db w)).
  assert (Hm : missing (Some responseId) = false).
  { simpl. now apply Z.eqb_neq. }
  assert (Hnull : forall r, In r (question_responses d1) ->
                            r_response_id r = responseId -> r_score r = None).
  { unfold d1, Sql.update_response_manual.
    cbn [question_responses with_question_responses].
    intros r Hr Hrid. apply in_map_iff in Hr. destruct Hr as [r0 [<- _]].
    destruct (r_response_id r0 =? responseId)%Z eqn:E; [reflexivity|].
    apply Z.eqb_neq in E. contradiction. }
  assert (Hprog : forall p, In p (Sql.select_progress responseId d1) ->
                   (Sql.total_questions p =? Sql.graded_questions p)%nat
                   = false).
  { intros p Hp. unfold Sql.select_progress in Hp.
    apply in_map_iff in Hp. destruct Hp as [key [<- Hkey]].
    cbn [Sql.total_questions Sql.graded_questions].
    apply group_keys_from in Hkey. destruct Hkey as [[]|[row [Hrow Hk]]].
    set (group := filter (fun row => Sql.same_group key (fst (fst row)))
                         (Sql.progress_rows responseId d1)).
    assert (Hin : In row group).
    { apply filter_In. split; [exact Hrow|]. rewrite Hk.
      apply same_group_refl. }
    rewrite filter_nothing.
    - destruct group; [contradiction|reflexivity].
    - intros sc Hsc. apply in_map_iff in Hsc. destruct Hsc as [row' [<- H']].
      apply filter_In in H'. destruct H' as [H' _].
      apply progress_rows_responses in H'. destruct H' as [H1 H2].
      now rewrite (Hnull _ H1 H2). }
  assert (Hrun : manualGradeQuestion (Some responseId) (Some None) feedback
                   graderId w
                 = (reply 200 "Question graded successfully",
                    {| db := d1; answers_left := None;
                       store_failed := store_failed w; now := now w |})).
  { unfold manualGradeQuestion, try_catch, manualGradeQuestion_body.
    rewrite Hm. cbn [orb]. fold text.
    destruct w as [d left failed t]. unfold reliable in Hw. simpl in Hw.
    subst left. cbn [db now store_failed] in *.
    rewrite bind_execute by discriminate.
    cbn [db now answers_left store_failed option_map].
    fold d1. rewrite bind_select by discriminate.
    cbn [db now answers_left store_failed option_map after_read].
    destruct (Sql.select_progress responseId d1) as [|p rest] eqn:E;
      [reflexivity|].
    rewrite (Hprog p) by now left. reflexivity. }
  unfold after. rewrite Hrun. cbn [fst snd db].
  split; [reflexivity|]. split; [reflexivity|exact Hnull].
Qed.

Lemma manualGradeQuestion_null_score_witness :
  fst (manualGradeQuestion (Some 25) (Some None) None (Some 1)
         Sample.sample_world)
    = reply 200 "Question graded successfully"
  /\ submissions
       (db (snd (manualGradeQuestion (Some 25) (Some None) None (Some 1)
                   Sample.sample_world)))
     = submissions Sample.sample_db.
Proof.
  destruct (manualGradeQuestion_null_score 25 None (Some 1)
              Sample.sample_world ltac:(discriminate) eq_refl)
    as [Hreply [Hsubs _]].
  split; [exact Hreply | exact Hsubs].
Defined.

End ManualGrading.

Lemma Forall2_same {A : Type} (R : A -> A -> Prop) (l : list A) :
  (forall x, R x x) -> Forall2 R l l.
Proof. intros H. induction l; constructor; auto. Qed.

Lemma Forall2_map_right {A : Type} (R : A -> A -> Prop) (g : A -> A)
  (l : list A) :
  (forall x, R x (g x)) -> Forall2 R l (map g l).
Proof. intros H. induction l; cbn [map]; constructor; auto. Qed.

Lemma same_but_grades_refl (d : database) : same_but_grades d d.
Proof. unfold same_but_grades. now repeat split. Qed.

Lemma only_graded_refl (responseId : option Z) (r : question_response) :
  only_graded responseId r r.
Proof. unfold only_graded. now repeat split. Qed.

(** X22.  Whatever the request and whether the store answers or not,
    [manualGradeQuestion] changes at most responses and submissions, keeps
    what the students sent, and keeps whole every response but the named
    one. *)
Theorem manualGradeQuestion_frame (responseId : option Z)
  (score : option (option number)) (feedback : option string)
  (graderId : option Z) (w : world) :
  let after :=
    db (snd (manualGradeQuestion responseId score feedback graderId w)) in
  same_but_grades (db w) after
  /\ Forall2 (only_graded responseId)
             (question_responses (db w)) (question_responses after).
Proof.
  set (kept := fun d' : database =>
                 same_but_grades (db w) d'
                 /\ Forall2 (only_graded responseId)
                            (question_responses (db w))
                            (question_responses d')).
  assert (K0 : kept (db w)).
  { split; [apply same_but_grades_refl|].
    apply Forall2_same. apply only_graded_refl. }
  cbv zeta. change (kept (db (snd (manualGradeQuestion responseId score
                                     feedback graderId w)))).
  unfold manualGradeQuestion, try_catch, manualGradeQuestion_body.
  destruct (missing responseId || _) eqn:Hmiss; [exact K0|].
  apply orb_false_iff in Hmiss. destruct Hmiss as [Hm _].
  destruct responseId as [rid|]; [|discriminate].
  set (sc := match score with Some s => s | None => None end).
  set (text := match feedback with Some f => f | None => EmptyString end).
  set (d1 := Sql.update_response_manual sc text graderId rid (now w) (db w)).
  assert (K1 : kept d1).
  { split; [unfold same_but_grades; now repeat split|].
    unfold d1, Sql.update_response_manual.
    cbn [question_responses with_question_responses].
    apply Forall2_map_right. intros r.
    destruct (r_response_id r =? rid) eqn:E.
    - unfold only_graded. cbn. repeat split.
      intros H. apply Z.eqb_eq in E. congruence.
    - apply only_graded_refl. }
  assert (K2 : forall total sid t,
               kept (Sql.finalize_submission_by total graderId sid t d1)).
  { intros total sid t. exact K1. }
  unfold bind at 1.
  destruct (execute_outcome
              (Sql.update_response_manual sc text graderId rid) w)
    as [E | [w1 [E [Hdb1 [_ Hnow1]]]]]; rewrite E; [exact K0|].
  fold d1 in Hdb1.
  unfold bind at 1.
  destruct (select_outcome (Sql.select_progress rid) w1)
    as [E2 | [w2 [E2 [Hdb2 [_ Hnow2]]]]]; rewrite E2.
  { cbn [snd refuse db]. now rewrite Hdb1. }
  destruct (Sql.select_progress rid (db w1)) as [|p rest].
  { cbn. now rewrite Hdb2, Hdb1. }
  destruct (Sql.total_questions p =? Sql.graded_questions p)%nat.
  - unfold bind at 1.
    destruct (execute_outcome
                (Sql.finalize_submission_by (Sql.prog_total_score p) graderId
                   (Sql.prog_submission_id p)) w2)
      as [E3 | [w3 [E3 [Hdb3 _]]]]; rewrite E3.
    + cbn [snd refuse db]. now rewrite Hdb2, Hdb1.
    + cbn. rewrite Hdb3, Hdb2, Hdb1. apply K2.
  - cbn. now rewrite Hdb2, Hdb1.
Qed.

(** ** The final grade: what is read and what is written *)

Lemma grade_categories_db (studentId : Z) :
  forall (categories : list assignment_category) (finalGrade : number)
         (categoryGrades : list category_grade) (w : world)
         (c : completion (number * list category_grade)) (w' : world),
    grade_categories studentId categories finalGrade categoryGrades w
    = (c, w') ->
    db w' = db w.
Proof.
  induction categories as [|cat rest IH]; intros fg cgs w c w' Hrun.
  - injection Hrun as _ <-. reflexivity.
  - cbn [grade_categories] in Hrun. unfold bind at 1 in Hrun.
    destruct (select_outcome
                (Sql.select_assignments studentId (category_id cat)) w)
      as [E | [w1 [E [Hdb _]]]]; rewrite E in Hrun.
    + injection Hrun as _ <-. reflexivity.
    + destruct (Sql.select_assignments studentId (category_id cat) (db w));
        apply IH in Hrun; now rewrite Hrun.
Qed.

(** X25.  Whatever the request and whether the store answers or not,
    [calculateFinalGrade] changes at most the enrollment rows of that
    student in that course. *)
Theorem calculateFinalGrade_frame (studentId courseId : option Z) (w : world) :
  let after := db (snd (calculateFinalGrade studentId courseId w)) in
  same_but_enrollments (db w) after
  /\ Forall2 (only_final_grade studentId courseId)
             (enrollments (db w)) (enrollments after).
Proof.
  set (kept := fun d' : database =>
                 same_but_enrollments (db w) d'
                 /\ Forall2 (only_final_grade studentId courseId)
                            (enrollments (db w)) (enrollments d')).
  assert (K0 : kept (db w)).
  { split; [unfold same_but_enrollments; now repeat split|].
    apply Forall2_same. intros e. unfold only_final_grade. now repeat split. }
  cbv zeta. change (kept (db (snd (calculateFinalGrade studentId courseId w)))).
  unfold calculateFinalGrade, try_catch, calculateFinalGrade_body.
  destruct (missing studentId || missing courseId) eqn:Hmiss; [exact K0|].
  apply orb_false_iff in Hmiss. destruct Hmiss as [Hs Hc].
  destruct studentId as [st|]; [|discriminate].
  destruct courseId as [co|]; [|discriminate].
  assert (K1 : forall fg, kept (Sql.update_final_grade fg st co (db w))).
  { intros fg. split; [unfold same_but_enrollments; now repeat split|].
    unfold Sql.update_final_grade. cbn [enrollments with_enrollments].
    apply Forall2_map_right. intros e. unfold only_final_grade.
    destruct ((enr_student_id e =? st) && (enr_course_id e =? co)) eqn:E.
    - cbn. repeat split. intros H. apply andb_prop in E.
      destruct E as [E1 E2]. apply Z.eqb_eq in E1, E2. congruence.
    - now repeat split. }
  unfold bind at 1.
  destruct (select_outcome (Sql.select_categories co) w)
    as [E | [w1 [E [Hdb1 _]]]]; rewrite E; [exact K0|].
  destruct (Sql.select_categories co (db w)) as [|c cats].
  { cbn. now rewrite Hdb1. }
  unfold bind at 1.
  destruct (grade_categories st (c :: cats) zero [] w1)
    as [[[fg cgs]|] w2] eqn:Eloop;
    pose proof (grade_categories_db st _ _ _ _ _ _ Eloop) as Hdb2.
  2:{ cbn [snd db]. now rewrite Hdb2, Hdb1. }
  unfold bind at 1.
  destruct (select_outcome (Sql.select_scale co) w2)
    as [E2 | [w3 [E2 [Hdb3 _]]]]; rewrite E2.
  { cbn [snd refuse db]. now rewrite Hdb2, Hdb1. }
  unfold bind at 1.
  destruct (execute_outcome (fun _ => Sql.update_final_grade fg st co) w3)
    as [E3 | [w4 [E3 [Hdb4 _]]]]; rewrite E3.
  - cbn [snd refuse db]. now rewrite Hdb3, Hdb2, Hdb1.
  - cbn. rewrite Hdb4, Hdb3, Hdb2, Hdb1. apply K1.
Qed.

Lemma grade_categories_reliable (studentId : Z) (w : world) :
  reliable w ->
  forall (categories : list assignment_category) (finalGrade : number)
         (categoryGrades : list category_grade),
    grade_categories studentId categories finalGrade categoryGrades w
    = (Normal (categories_graded studentId (db w) categories finalGrade
                 categoryGrades), w).
Proof.
  intros Hw. pose proof (reliable_answers w Hw) as Hans.
  induction categories as [|c rest IH]; intros fg cgs; [reflexivity|].
  cbn [grade_categories categories_graded].
  rewrite (bind_select _ _ w Hans), (reliable_after_read w Hw).
  destruct (Sql.select_assignments studentId (category_id c) (db w));
    apply IH.
Qed.

Lemma calculateFinalGrade_reliable (studentId courseId : Z) (w : world) :
  studentId <> 0 ->
  courseId <> 0 ->
  reliable w ->
  Sql.select_categories courseId (db w) <> [] ->
  let graded := final_grade_on studentId courseId (db w) in
  calculateFinalGrade (Some studentId) (Some courseId) w
  = ({| statusCode := 200;
        body := FinalGradeReport studentId courseId (fst graded)
                  (find_letter (fst graded)
                               (Sql.select_scale courseId (db w)))
                  (snd graded) |},
     {| db := Sql.update_final_grade (fst graded) studentId courseId (db w);
        answers_left := None;
        store_failed := store_failed w;
        now := now w |}).
Proof.
  intros Hs Hc Hw Hcats graded.
  pose proof (reliable_answers w Hw) as Hans.
  assert (Hm : missing (Some studentId) || missing (Some courseId) = false).
  { simpl. apply orb_false_iff. split; now apply Z.eqb_neq. }
  unfold calculateFinalGrade, try_catch, calculateFinalGrade_body.
  rewrite Hm.
  rewrite (bind_select _ _ w Hans), (reliable_after_read w Hw).
  unfold graded, final_grade_on.
  destruct (Sql.select_categories courseId (db w)) as [|c cats];
    [congruence|].
  unfold bind at 1. rewrite (grade_categories_reliable studentId w Hw).
  destruct (categories_graded studentId (db w) (c :: cats) zero [])
    as [fg cgs].
  rewrite (bind_select _ _ w Hans), (reliable_after_read w Hw).
  rewrite (bind_execute _ _ w Hans).
  unfold reliable in Hw. rewrite Hw. reflexivity.
Qed.

(** ** Totals that are appended *)

Section AppendedTotals.

Local Open Scope string_scope.

Lemma dots_app (s t : string) : dots (s ++ t) = (dots s + dots t)%nat.
Proof.
  induction s as [|c s IH]; [reflexivity|]. cbn [append dots].
  destruct (Ascii.eqb c "."); rewrite IH; reflexivity.
Qed.

Lemma figures_app (s t : string) :
  figures (s ++ t) = figures s && figures t.
Proof.
  induction s as [|c s IH]; [reflexivity|]. cbn [append figures].
  rewrite IH. now rewrite andb_assoc.
Qed.

(** The digits of a number are figures without a point. *)
Lemma string_of_uint_figures (d : Decimal.uint) :
  figures (NilEmpty.string_of_uint d) = true
  /\ dots (NilEmpty.string_of_uint d) = O.
Proof.
  induction d as [|d [IH1 IH2]|d [IH1 IH2]|d [IH1 IH2]|d [IH1 IH2]
                 |d [IH1 IH2]|d [IH1 IH2]|d [IH1 IH2]|d [IH1 IH2]
                 |d [IH1 IH2]|d [IH1 IH2]];
    cbn [NilEmpty.string_of_uint figures dots]; [split; reflexivity|..];
    rewrite IH1, IH2; split; reflexivity.
Qed.

Lemma digits_figures (n : N) : figures (digits n) = true /\ dots (digits n) = O.
Proof. apply string_of_uint_figures. Qed.

Lemma two_digits_figures (n : N) :
  figures (two_digits n) = true /\ dots (two_digits n) = O.
Proof.
  unfold two_digits. destruct (digits_figures n) as [H1 H2].
  destruct (n <? 10)%N; cbn [append figures dots];
    rewrite ?H1, ?H2; split; reflexivity.
Qed.

(** The text of a finite total has the shape of a decimal. *)
Lemma decimal_text_shaped (x : Q) : decimal_shaped (decimal_text (Fin x)) = true.
Proof.
  unfold decimal_shaped, decimal_text.
  set (c := hundredths x).
  destruct (digits_figures (Z.abs_N c / 100)) as [F1 D1].
  destruct (two_digits_figures (Z.abs_N c mod 100)) as [F2 D2].
  rewrite !figures_app, !dots_app, F1, D1. cbn [figures dots append].
  rewrite F2, D2.
  destruct (c <? 0)%Z; reflexivity.
Qed.

(** Figures hold no blank, so [trim] keeps them. *)
Lemma figures_trimStart (s : string) : figures s = true -> trimStart s = s.
Proof.
  destruct s as [|c s]; [reflexivity|]. cbn [figures trimStart].
  intros H. apply andb_true_iff in H. destruct H as [Hc _].
  replace (is_space c) with false; [reflexivity|].
  symmetry. revert Hc. unfold is_digit, is_space.
  destruct c as [[] [] [] [] [] [] [] []]; vm_compute; congruence.
Qed.

Lemma figures_trimEnd (s : string) : figures s = true -> trimEnd s = s.
Proof.
  induction s as [|c s IH]; [reflexivity|]. cbn [figures trimEnd].
  intros H. apply andb_true_iff in H. destruct H as [Hc Hs].
  rewrite (IH Hs). destruct s as [|c' s']; [|reflexivity].
  replace (is_space c) with false; [reflexivity|].
  symmetry. revert Hc. unfold is_digit, is_space.
  destruct c as [[] [] [] [] [] [] [] []]; vm_compute; congruence.
Qed.

(** Digits stop at a point. *)
Lemma digits_value_point (s : string) :
  dots s <> O -> digits_value s = None.
Proof.
  unfold digits_value.
  assert (H : dots s <> O -> NilEmpty.uint_of_string s = None).
  { induction s as [|c s IH]; [now intros H|].
    cbn [dots NilEmpty.uint_of_string].
    destruct (Ascii.eqb c ".") eqn:E.
    - intros _. apply Ascii.eqb_eq in E. subst c.
      now destruct (NilEmpty.uint_of_string s).
    - intros H. now rewrite (IH H). }
  intros Hs. now rewrite (H Hs).
Qed.

Lemma split_at_dot_dots (s : string) :
  dots s <> O ->
  exists whole fraction,
    split_at_dot s = (whole, Some fraction)
    /\ dots s = S (dots fraction).
Proof.
  induction s as [|c s IH]; [now intros H|]. cbn [dots split_at_dot].
  destruct (Ascii.eqb c ".").
  - intros _. now exists EmptyString, s.
  - intros H. destruct (IH H) as [whole [fraction [-> Hd]]].
    now exists (String c whole), fraction.
Qed.

(** Figures that begin with a digit and hold two points or more are not
    a number. *)
Lemma two_points_not_a_number (c : ascii) (s : string) :
  is_digit c = true ->
  figures s = true ->
  (2 <= dots s)%nat ->
  string_to_number (String c s) = NaN.
Proof.
  intros Hc Hs Hd.
  assert (Hf : figures (String c s) = true).
  { cbn [figures]. now rewrite Hc, Hs. }
  assert (Hdc : dots (String c s) = dots s).
  { cbn [dots]. destruct (Ascii.eqb c ".") eqn:E; [|reflexivity].
    apply Ascii.eqb_eq in E. subst c. discriminate Hc. }
  unfold string_to_number, trim.
  rewrite (figures_trimStart _ Hf), (figures_trimEnd _ Hf).
  assert (Hm : Ascii.eqb c "-" = false).
  { destruct (Ascii.eqb c "-") eqn:E; [|reflexivity].
    apply Ascii.eqb_eq in E. subst c. discriminate Hc. }
  assert (Hp : Ascii.eqb c "+" = false).
  { destruct (Ascii.eqb c "+") eqn:E; [|reflexivity].
    apply Ascii.eqb_eq in E. subst c. discriminate Hc. }
  rewrite Hm, Hp.
  assert (Hi : String.eqb (String c s) "Infinity" = false).
  { cbn [String.eqb]. destruct (Ascii.eqb c "I") eqn:E; [|reflexivity].
    apply Ascii.eqb_eq in E. subst c. discriminate Hc. }
  rewrite Hi. unfold unsigned_decimal.
  destruct (split_at_dot_dots (String c s)) as [whole [fraction [-> Hfr]]];
    [rewrite Hdc; lia|].
  assert (Hfd : dots fraction <> O) by lia.
  rewrite (digits_value_point fraction Hfd).
  assert (Hne : String.eqb fraction EmptyString = false).
  { destruct fraction; [now elim Hfd | reflexivity]. }
  rewrite Hne, andb_false_r.
  now destruct (digits_value whole).
Qed.

End AppendedTotals.

Section AppendedInTheLoop.

Local Open Scope string_scope.

Lemma shaped_not_empty (s : string) :
  decimal_shaped s = true -> String.eqb s EmptyString = false.
Proof.
  destruct s; [discriminate | reflexivity].
Qed.

(** One turn of the loop over the assignments. *)
Lemma add_assignment_appends (k : nat) (totalPoints : number)
  (earnedPoints : scalar) (details : list assignment_detail)
  (row : assignment * option string) :
  appended k earnedPoints ->
  forallb decimal_shaped (totals_read [row]) = true ->
  appended (k + List.length (totals_read [row]))
           (snd (fst (add_assignment (totalPoints, earnedPoints, details)
                                     row))).
Proof.
  destruct row as [a [s|]]; cbn [totals_read flat_map snd app List.length
                                 forallb add_assignment fst score_or_zero].
  - rewrite andb_true_r. intros Hk Hs.
    rewrite (shaped_not_empty s Hs).
    apply andb_true_iff in Hs. destruct Hs as [Hf Hd].
    apply Nat.eqb_eq in Hd.
    destruct earnedPoints as [n|t]; cbn [appended plus] in *.
    + destruct Hk as [-> ->]. exists s. repeat split; assumption.
    + destruct Hk as [s0 [-> [Hf0 Hd0]]]. exists (s0 ++ s).
      rewrite figures_app, dots_app, Hf0, Hf, Hd0, Hd.
      repeat split.
  - intros Hk _. rewrite Nat.add_0_r.
    destruct earnedPoints as [n|t]; cbn [appended plus] in *.
    + destruct Hk as [-> ->]. split; reflexivity.
    + destruct Hk as [s0 [-> [Hf0 Hd0]]]. exists (s0 ++ "0").
      rewrite figures_app, dots_app, Hf0, Hd0. cbn [figures dots].
      repeat split. apply Nat.add_0_r.
Qed.

Lemma totals_read_cons (row : assignment * option string)
  (rows : list (assignment * option string)) :
  totals_read (row :: rows) = (totals_read [row] ++ totals_read rows)%list.
Proof.
  unfold totals_read. cbn [flat_map]. now rewrite app_nil_r.
Qed.

(** The loop over the assignments: the points that are summed and the
    totals that are appended. *)
Lemma fold_add_assignment (rows : list (assignment * option string)) :
  forall (k : nat) (totalPoints : number) (earnedPoints : scalar)
         (details : list assignment_detail),
    appended k earnedPoints ->
    forallb decimal_shaped (totals_read rows) = true ->
    let after :=
      fold_left add_assignment rows (totalPoints, earnedPoints, details) in
    fst (fst after)
    = fold_left add (map (fun r => of_Z (total_points (fst r))) rows)
                totalPoints
    /\ appended (k + List.length (totals_read rows)) (snd (fst after)).
Proof.
  induction rows as [|row rows IH]; intros k tp ep det Hk Hs.
  - cbn. rewrite Nat.add_0_r. now split.
  - rewrite totals_read_cons, forallb_app in Hs.
    apply andb_true_iff in Hs. destruct Hs as [Hrow Hrows].
    pose proof (add_assignment_appends k tp ep det row Hk Hrow) as Hstep.
    cbn [fold_left map].
    destruct (add_assignment (tp, ep, det) row) as [[tp' ep'] det'] eqn:E.
    assert (Htp : tp' = add tp (of_Z (total_points (fst row)))).
    { destruct row as [a sc]. cbn in E. now injection E as <- _ _. }
    cbn [fst snd] in Hstep.
    destruct (IH _ tp' ep' det' Hstep Hrows) as [H1 H2].
    rewrite totals_read_cons, length_app, Nat.add_assoc.
    split; [now rewrite H1, Htp | exact H2].
Qed.

(** From the second total on, [earnedPoints] is not a number. *)
Lemma appended_not_a_number (k : nat) (earnedPoints : scalar) :
  appended k earnedPoints -> (2 <= k)%nat -> to_number earnedPoints = NaN.
Proof.
  destruct earnedPoints as [n|t]; cbn [appended to_number].
  - intros [_ ->] H. lia.
  - intros [s [-> [Hf Hd]]] Hk.
    apply two_points_not_a_number; [reflexivity | exact Hf | lia].
Qed.

(** A category with two totals and points to earn: its percentage and
    its weighted score are not numbers. *)
Lemma grade_category_two_totals (category : assignment_category)
  (rows : list (assignment * option string)) :
  forallb decimal_shaped (totals_read rows) = true ->
  (2 <= List.length (totals_read rows))%nat ->
  gt (points_read rows) zero = true ->
  cg_percentage (grade_category category rows) = NaN
  /\ cg_weightedScore (grade_category category rows) = NaN.
Proof.
  intros Hs Hk Hp.
  destruct (fold_add_assignment rows O zero (SNum zero) []
              (conj eq_refl eq_refl) Hs) as [Htp Hep].
  cbn [Nat.add] in Hep.
  pose proof (appended_not_a_number _ _ Hep Hk) as Hnan.
  unfold grade_category.
  destruct rows as [|row rows]; [cbn in Hk; lia|].
  destruct (fold_left add_assignment (row :: rows) (zero, SNum zero, []))
    as [[totalPoints earnedPoints] details].
  cbn [fst snd] in Htp, Hnan.
  fold (Num.sum (map (fun r => of_Z (total_points (fst r))) (row :: rows)))
    in Htp.
  fold (points_read (row :: rows)) in Htp. subst totalPoints.
  cbn [cg_percentage cg_weightedScore]. rewrite Hp, Hnan.
  split; reflexivity.
Qed.

Lemma add_nan_r (a : number) : add a NaN = NaN.
Proof. now destruct a. Qed.

(** Once the final grade is not a number it stays so. *)
Lemma categories_graded_nan (studentId : Z) (d : database) :
  forall (categories : list assignment_category)
         (categoryGrades : list category_grade),
    fst (categories_graded studentId d categories NaN categoryGrades) = NaN.
Proof.
  induction categories as [|c rest IH]; intros cgs; [reflexivity|].
  cbn [categories_graded].
  destruct (Sql.select_assignments studentId (category_id c) d); apply IH.
Qed.

Lemma categories_graded_two_totals (studentId : Z) (d : database)
  (c : assignment_category) :
  let rows := Sql.select_assignments studentId (category_id c) d in
  forallb decimal_shaped (totals_read rows) = true ->
  (2 <= List.length (totals_read rows))%nat ->
  gt (points_read rows) zero = true ->
  forall (categories : list assignment_category) (finalGrade : number)
         (categoryGrades : list category_grade),
    In c categories ->
    fst (categories_graded studentId d categories finalGrade categoryGrades)
    = NaN.
Proof.
  intros rows Hs Hk Hp.
  induction categories as [|c' rest IH]; intros fg cgs Hin; [now elim Hin|].
  cbn [categories_graded]. destruct Hin as [->|Hin].
  - destruct (grade_category_two_totals c rows Hs Hk Hp) as [_ Hw].
    fold rows. rewrite Hw.
    destruct rows as [|row rows']; [cbn in Hk; lia|].
    rewrite add_nan_r. apply categories_graded_nan.
  - destruct (Sql.select_assignments studentId (category_id c') d);
      now apply IH.
Qed.

Lemma find_letter_nan (scale : list grading_scale_threshold) :
  find_letter NaN scale = None.
Proof.
  induction scale as [|t rest IH]; [reflexivity | exact IH].
Qed.

(** The rows of a store whose totals are finite carry decimals. *)
Lemma select_assignments_shaped (studentId categoryId : Z) (d : database) :
  forallb finite_total (submissions d) = true ->
  forallb decimal_shaped
          (totals_read (Sql.select_assignments studentId categoryId d))
  = true.
Proof.
  intros Hfin. apply forallb_forall. intros s Hs.
  unfold totals_read in Hs. apply in_flat_map in Hs.
  destruct Hs as [[a t] [Hrow Ht]]. cbn [snd] in Ht.
  destruct t as [t|]; [|now elim Ht]. destruct Ht as [<-|[]].
  unfold Sql.select_assignments in Hrow. apply in_flat_map in Hrow.
  destruct Hrow as [a' [_ Hrow]].
  destruct (filter _ (submissions d)) as [|m ms] eqn:F;
    [destruct Hrow as [[=]|[]]|].
  apply in_map_iff in Hrow. destruct Hrow as [sub [[= _ Ht] Hsub]].
  assert (Hin : In sub (submissions d)).
  { rewrite <- F in Hsub. now apply filter_In in Hsub. }
  rewrite forallb_forall in Hfin. specialize (Hfin sub Hin).
  unfold finite_total in Hfin.
  destruct (total_score sub) as [[x| |p]|]; try discriminate.
  cbn [option_map] in Ht. injection Ht as <-. apply decimal_text_shaped.
Qed.

End AppendedInTheLoop.

(** Two graded submissions in one category are enough: on a store that
    answers and whose totals are finite, a student with two totals in a
    category that has points to earn gets a final grade that is not a
    number, no letter, and NaN for the enrollment. *)
Lemma calculateFinalGrade_two_totals (studentId courseId : Z) (w : world)
  (c : assignment_category) :
  studentId <> 0 ->
  courseId <> 0 ->
  reliable w ->
  forallb finite_total (submissions (db w)) = true ->
  In c (Sql.select_categories courseId (db w)) ->
  let rows := Sql.select_assignments studentId (category_id c) (db w) in
  (2 <= List.length (totals_read rows))%nat ->
  gt (points_read rows) zero = true ->
  exists breakdown,
    fst (calculateFinalGrade (Some studentId) (Some courseId) w)
    = {| statusCode := 200;
         body := FinalGradeReport studentId courseId NaN None breakdown |}
    /\ db (snd (calculateFinalGrade (Some studentId) (Some courseId) w))
       = Sql.update_final_grade NaN studentId courseId (db w).
Proof.
  intros Hs Hc Hw Hfin Hin rows Hk Hp.
  assert (Hcats : Sql.select_categories courseId (db w) <> []).
  { intros E. rewrite E in Hin. exact Hin. }
  rewrite (calculateFinalGrade_reliable studentId courseId w Hs Hc Hw Hcats).
  cbn [fst snd db]. unfold final_grade_on.
  rewrite (categories_graded_two_totals studentId (db w) c
             (select_assignments_shaped studentId (category_id c) (db w) Hfin)
             Hk Hp _ zero [] Hin).
  rewrite find_letter_nan. eexists. split; reflexivity.
Qed.

Lemma calculateFinalGrade_two_totals_sample :
  exists breakdown,
    fst (calculateFinalGrade (Some 7) (Some 1) Sample.sample_world)
    = {| statusCode := 200;
         body := FinalGradeReport 7 1 NaN None breakdown |}.
Proof.
  destruct (calculateFinalGrade_two_totals 7 1 Sample.sample_world
              {| category_id := 1; cat_course_id := 1;
                 cat_name := "Homework"; weight := 40 |}
              ltac:(discriminate) ltac:(discriminate) eq_refl eq_refl
              (or_introl eq_refl) ltac:(vm_compute; lia) eq_refl)
    as [breakdown [H _]].
  now exists breakdown.
Qed.

Lemma with_enrollments_same (d : database) :
  with_enrollments d (enrollments d) = d.
Proof. now destruct d. Qed.

Lemma categories_graded_enrollments (studentId : Z) (d : database)
  (l : list enrollment) :
  forall (categories : list assignment_category) (finalGrade : number)
         (categoryGrades : list category_grade),
    categories_graded studentId (with_enrollments d l) categories finalGrade
      categoryGrades
    = categories_graded studentId d categories finalGrade categoryGrades.
Proof.
  induction categories as [|c rest IH]; intros fg cgs; [reflexivity|].
  cbn [categories_graded].
  change (Sql.select_assignments studentId (category_id c)
            (with_enrollments d l))
    with (Sql.select_assignments studentId (category_id c) d).
  destruct (Sql.select_assignments studentId (category_id c) d); apply IH.
Qed.

(** X23.  For a student who has no enrollment row in the course the
    final grade is computed and reported with status 200, and nothing is
    stored. *)
Theorem calculateFinalGrade_not_enrolled (studentId courseId : Z) (w : world) :
  studentId <> 0 ->
  courseId <> 0 ->
  reliable w ->
  Sql.select_categories courseId (db w) <> [] ->
  enrolled studentId courseId (db w) = false ->
  fst (calculateFinalGrade (Some studentId) (Some courseId) w)
  = {| statusCode := 200;
       body := FinalGradeReport studentId courseId
                 (fst (final_grade_on studentId courseId (db w)))
                 (find_letter (fst (final_grade_on studentId courseId (db w)))
                              (Sql.select_scale courseId (db w)))
                 (snd (final_grade_on studentId courseId (db w))) |}
  /\ db (snd (calculateFinalGrade (Some studentId) (Some courseId) w)) = db w.
Proof.
  intros Hs Hc Hw Hcats Henr.
  rewrite (calculateFinalGrade_reliable studentId courseId w Hs Hc Hw Hcats).
  cbn [fst snd db]. split; [reflexivity|].
  unfold Sql.update_final_grade.
  rewrite map_fixed; [apply with_enrollments_same|].
  intros e He. unfold enrolled in Henr.
  now rewrite (existsb_none _ _ Henr e He).
Qed.

(** X24.  Computing the final grade again gives the same report and
    leaves the store as the first computation left it: the grade never
    depends on the grade stored before. *)
Theorem calculateFinalGrade_repeatable (studentId courseId : Z) (w : world) :
  studentId <> 0 ->
  courseId <> 0 ->
  reliable w ->
  Sql.select_categories courseId (db w) <> [] ->
  let once := snd (calculateFinalGrade (Some studentId) (Some courseId) w) in
  calculateFinalGrade (Some studentId) (Some courseId) once
  = (fst (calculateFinalGrade (Some studentId) (Some courseId) w), once).
Proof.
  intros Hs Hc Hw Hcats once.
  pose proof (calculateFinalGrade_reliable studentId courseId w Hs Hc Hw Hcats)
    as Hrun.
  cbv zeta in Hrun.
  set (graded := final_grade_on studentId courseId (db w)) in *.
  set (d1 := Sql.update_final_grade (fst graded) studentId courseId (db w))
    in *.
  assert (Honce : once = {| db := d1; answers_left := None;
                            store_failed := store_failed w; now := now w |})
    by (unfold once; now rewrite Hrun).
  assert (Hgraded : final_grade_on studentId courseId d1 = graded).
  { unfold graded, final_grade_on.
    change (Sql.select_categories courseId d1)
      with (Sql.select_categories courseId (db w)).
    apply categories_graded_enrollments. }
  assert (Htwice : Sql.update_final_grade (fst graded) studentId courseId d1
                   = d1).
  { unfold d1, Sql.update_final_grade.
    cbn [enrollments with_enrollments]. unfold with_enrollments. cbn.
    f_equal. rewrite map_map. apply map_ext. intros e.
    destruct ((enr_student_id e =? studentId)
              && (enr_course_id e =? courseId)) eqn:E; [|now rewrite E].
    cbn [enr_student_id enr_course_id]. now rewrite E. }
  rewrite Hrun. cbn [fst]. rewrite Honce.
  set (w1 := {| db := d1; answers_left := None;
                store_failed := store_failed w; now := now w |}).
  assert (Hw1 : reliable w1) by reflexivity.
  rewrite (calculateFinalGrade_reliable studentId courseId w1 Hs Hc Hw1 Hcats).
  cbn [db store_failed now w1]. rewrite Hgraded, Htwice. reflexivity.
Qed.

Section FinalGradeExamples.

Local Open Scope string_scope.

Lemma calculateFinalGrade_not_enrolled_witness :
  statusCode (fst (calculateFinalGrade (Some 8) (Some 1) Sample.sample_world))
    = 200
  /\ db (snd (calculateFinalGrade (Some 8) (Some 1) Sample.sample_world))
     = Sample.sample_db.
Proof.
  destruct (calculateFinalGrade_not_enrolled 8 1 Sample.sample_world
              ltac:(discriminate) ltac:(discriminate) eq_refl
              ltac:(discriminate) eq_refl)
    as [Hreport Hdb].
  split; [now rewrite Hreport | exact Hdb].
Defined.

Lemma calculateFinalGrade_repeatable_witness :
  calculateFinalGrade (Some 7) (Some 1)
    (snd (calculateFinalGrade (Some 7) (Some 1) Sample.sample_world))
  = (fst (calculateFinalGrade (Some 7) (Some 1) Sample.sample_world),
     snd (calculateFinalGrade (Some 7) (Some 1) Sample.sample_world)).
Proof.
  apply (calculateFinalGrade_repeatable 7 1 Sample.sample_world);
    [discriminate | discriminate | reflexivity | discriminate].
Defined.

End FinalGradeExamples.

(** ** Overlapping thresholds *)

Section LetterOrder.

Local Open Scope string_scope.

Lemma sorted_tail_below (scale before after : list grading_scale_threshold)
  (t0 : grading_scale_threshold) :
  Sorted (fun a b => Sql.min_score_desc a b = true) scale ->
  scale = (before ++ t0 :: after)%list ->
  Forall (fun u => (min_score u <= min_score t0)%Q) after.
Proof.
  intros Hsorted ->.
  apply Sorted_StronglySorted in Hsorted.
  2:{ intros a b c Hab Hbc. unfold Sql.min_score_desc in *.
      apply Qle_bool_iff in Hab, Hbc. apply Qle_bool_iff. lra. }
  induction before as [|b before IH]; cbn [app] in Hsorted.
  - apply StronglySorted_inv in Hsorted. destruct Hsorted as [_ H].
    eapply Forall_impl; [|exact H]. intros u Hu.
    now apply Qle_bool_iff in Hu.
  - apply StronglySorted_inv in Hsorted. now apply IH.
Qed.

(** X26.  When a threshold of the course's scale contains the final
    grade, a letter is found, and among the thresholds that contain the
    grade it is one with the highest minimum. *)
Theorem letter_grade_prefers_highest_minimum (finalGrade : number)
  (courseId : Z) (d : database) (t : grading_scale_threshold) :
  In t (Sql.joined_scale courseId d) ->
  within t finalGrade = true ->
  exists t0,
    In t0 (Sql.joined_scale courseId d)
    /\ within t0 finalGrade = true
    /\ find_letter finalGrade (Sql.select_scale courseId d) = Some (grade t0)
    /\ (min_score t <= min_score t0)%Q.
Proof.
  intros Hin Hwithin.
  pose proof (order_by_perm Sql.min_score_desc (Sql.joined_scale courseId d))
    as Hperm.
  pose proof (order_by_sorted Sql.min_score_desc min_score_desc_total
                (Sql.joined_scale courseId d)) as Hsorted.
  fold (Sql.select_scale courseId d) in Hperm, Hsorted.
  assert (Hin' : In t (Sql.select_scale courseId d))
    by (now apply (Permutation_in _ Hperm)).
  pose proof (find_letter_first finalGrade (Sql.select_scale courseId d))
    as Hfirst.
  destruct (find_letter finalGrade (Sql.select_scale courseId d))
    as [letter|].
  - destruct Hfirst as [before [t0 [after [Hsplit [Hbefore [Ht0 Hgrade]]]]]].
    exists t0. split.
    { apply (Permutation_in _ (Permutation_sym Hperm)). rewrite Hsplit.
      apply in_or_app. right. now left. }
    split; [exact Ht0|]. split; [now rewrite Hgrade|].
    rewrite Hsplit in Hin'. apply in_app_or in Hin'.
    destruct Hin' as [Hb | [<- | Ha]].
    + rewrite Forall_forall in Hbefore. rewrite (Hbefore t Hb) in Hwithin.
      discriminate.
    + lra.
    + pose proof (sorted_tail_below _ _ _ _ Hsorted Hsplit) as Htail.
      rewrite Forall_forall in Htail. exact (Htail t Ha).
  - rewrite Forall_forall in Hfirst. rewrite (Hfirst t Hin') in Hwithin.
    discriminate.
Qed.

Lemma letter_grade_prefers_highest_minimum_witness :
  exists t0,
    In t0 (Sql.joined_scale 1 Sample.sample_db)
    /\ within t0 (of_Z 90) = true
    /\ find_letter (of_Z 90) (Sql.select_scale 1 Sample.sample_db)
       = Some (grade t0)
    /\ (90 <= min_score t0)%Q.
Proof.
  apply (letter_grade_prefers_highest_minimum (of_Z 90) 1 Sample.sample_db
           {| gst_scale_id := 1; grade := "A";
              min_score := 90; max_score := 100 |});
    [right; left; reflexivity | reflexivity].
Defined.

End LetterOrder.

(** ** What a run stores, and a course without assignments *)

Section StoredVerdicts.

Variable env : host.
Variables (submissionId assignmentId t : Z) (d : database).

Hypothesis schema : consistent submissionId assignmentId d.

Lemma row_is_row_of (q : question_row) (r : question_response) :
  In q (Sql.select_questions submissionId assignmentId d) ->
  has_response q = true ->
  In r (question_responses d) ->
  response_key q = r_response_id r ->
  row_of d r = Some q /\ r_submission_id r = submissionId.
Proof.
  intros Hq Hhas Hr Hkey.
  apply select_questions_in in Hq.
  destruct Hq as [q0 [qt [[r'|] [Hq0 [_ [Hqt [Hty [Hqr ->]]]]]]]];
    [|discriminate].
  apply left_join_responses_in in Hqr. destruct Hqr as [Hr' [Hsub Hqid]].
  unfold response_key in Hkey. cbn in Hkey.
  assert (r' = r)
    by (apply (NoDup_key_inj r_response_id _ _ _
                 (response_keys _ _ _ schema) Hr' Hr Hkey)).
  subst r'. split; [|exact Hsub].
  unfold row_of.
  rewrite (find_unique q_question_id _ (questions d) q0
             (question_keys _ _ _ schema));
    [ | intros y Hy; apply Z.eqb_eq in Hy; congruence | exact Hq0
      | now apply Z.eqb_eq ].
  rewrite (find_unique type_id _ (question_types d) qt
             (type_keys _ _ _ schema));
    [ reflexivity | intros y Hy; apply Z.eqb_eq in Hy; congruence | exact Hqt
      | now apply Z.eqb_eq ].
Qed.

Lemma rescore_twice (r : question_response) (x : question_row) :
  rescore env t (rescore env t r x) x = rescore env t r x.
Proof.
  unfold rescore.
  destruct (written env x && (r_response_id r =? response_key x)) eqn:E;
    [|now rewrite E].
  cbn [r_response_id]. now rewrite E.
Qed.

Lemma rescore_id (r : question_response) (q : question_row) :
  r_response_id (rescore env t r q) = r_response_id r.
Proof. unfold rescore. now destruct (written env q && _). Qed.

Lemma rescore_by_own_row (r : question_response) (x : question_row) :
  forall rows : list question_row,
    (forall q, In q rows -> has_response q = true ->
               response_key q = r_response_id r -> q = x) ->
    In x rows ->
    fold_left (rescore env t) rows r = rescore env t r x.
Proof.
  set (g := rescore env t r x).
  assert (Hstep : forall q r0,
            (has_response q = true -> response_key q = r_response_id r ->
             q = x) ->
            r_response_id r0 = r_response_id r ->
            written env q && (r_response_id r0 =? response_key q) = true ->
            q = x).
  { intros q r0 Hq Hid H. apply andb_prop in H. destruct H as [Hw Hk].
    apply Z.eqb_eq in Hk. unfold written in Hw. apply andb_prop in Hw.
    apply Hq; [exact (proj1 Hw) | congruence]. }
  assert (Hg : forall rows : list question_row,
            (forall q, In q rows -> has_response q = true ->
                       response_key q = r_response_id r -> q = x) ->
            fold_left (rescore env t) rows g = g).
  { induction rows as [|q rows IH]; intros Hrows; [reflexivity|].
    cbn [fold_left].
    assert (E : rescore env t g q = g).
    { destruct (written env q && (r_response_id g =? response_key q)) eqn:Eq.
      - rewrite (Hstep q g (Hrows q (or_introl eq_refl))
                   (rescore_id r x) Eq).
        apply rescore_twice.
      - unfold rescore at 1. now rewrite Eq. }
    rewrite E. apply IH. intros q' Hq'. apply Hrows. now right. }
  induction rows as [|q rows IH]; intros Hrows Hin; [contradiction|].
  cbn [fold_left].
  assert (Hrest : forall q', In q' rows -> has_response q' = true ->
                             response_key q' = r_response_id r -> q' = x)
    by (intros q' Hq'; apply Hrows; now right).
  destruct (written env q && (r_response_id r =? response_key q)) eqn:Eq.
  - rewrite (Hstep q r (Hrows q (or_introl eq_refl)) eq_refl Eq).
    fold g. now apply Hg.
  - assert (E : rescore env t r q = r) by (unfold rescore; now rewrite Eq).
    rewrite E. destruct Hin as [->|Hin].
    + pose proof (Hg rows Hrest) as H'. unfold g in H' |- *.
      rewrite E in H'. now rewrite E.
    + now apply IH.
Qed.

Lemma responses_after_scoring :
  question_responses
    (fold_left (write_score env t)
       (Sql.select_questions submissionId assignmentId d) d)
  = map (graded_in_run env submissionId t d) (question_responses d).
Proof.
  rewrite write_score_responses. apply map_ext_in. intros r Hr.
  unfold graded_in_run.
  destruct (r_submission_id r =? submissionId) eqn:Esub.
  - apply Z.eqb_eq in Esub.
    destruct (responses_answer_assignment _ _ _ schema r Hr Esub)
      as [Hid _].
    assert (Hx : exists x, row_of d r = Some x
                           /\ In x (Sql.select_questions submissionId
                                      assignmentId d)
                           /\ has_response x = true).
    { destruct (responses_answer_assignment _ _ _ schema r Hr Esub)
        as [_ [q0 [qt [Hq0 [Hqid [_ [Hqt Hty]]]]]]].
      assert (Hrow : row_of d r = Some (Sql.question_columns q0 qt (Some r))).
      { unfold row_of.
        rewrite (find_unique q_question_id _ (questions d) q0
                   (question_keys _ _ _ schema));
          [ | intros y Hy; apply Z.eqb_eq in Hy; congruence | exact Hq0
            | now apply Z.eqb_eq ].
        rewrite (find_unique type_id _ (question_types d) qt
                   (type_keys _ _ _ schema));
          [ reflexivity | intros y Hy; apply Z.eqb_eq in Hy; congruence
          | exact Hqt | apply Z.eqb_eq; congruence ]. }
      eexists. split; [exact Hrow|].
      assert (Hhas : has_response (Sql.question_columns q0 qt (Some r)) = true)
        by (now apply has_response_columns).
      split; [|exact Hhas].
      assert (Hin : In (Sql.question_columns q0 qt (Some r))
                       (filter has_response
                          (Sql.select_questions submissionId assignmentId d))).
      { apply (Permutation_in _
                 (Permutation_sym
                    (answered_rows_perm submissionId assignmentId d schema))).
        apply in_rows_of_responses. exists r. now repeat split. }
      apply filter_In in Hin. exact (proj1 Hin). }
    destruct Hx as [x [Hrow [Hin Hhas]]]. rewrite Hrow.
    apply rescore_by_own_row; [|exact Hin].
    intros q Hq Hqhas Hkey.
    destruct (row_is_row_of q r Hq Hqhas Hr Hkey) as [Hrow' _]. congruence.
  - apply rescore_other. intros q Hq Hqhas Hkey.
    destruct (row_is_row_of q r Hq Hqhas Hr Hkey) as [_ Hsub].
    apply Z.eqb_neq in Esub. contradiction.
Qed.

End StoredVerdicts.

Section StoredVerdictsOfRun.

Variable env : host.

(** X27.  After a run on a store that keeps the constraints of the
    schema, every response of the submission whose verdict is not flagged
    holds the score and the feedback of that verdict and the time of the
    run; a flagged response, and every response of another submission, is
    the row it was. *)
Theorem gradeSubmission_stores_each_verdict
  (submissionId : Z) (w : world) (s : submission) (a : assignment) :
  submissionId <> 0 ->
  reliable w ->
  find_submission submissionId (db w) = Some s ->
  find_assignment (sub_assignment_id s) (db w) = Some a ->
  status s <> "graded"%string ->
  consistent submissionId (sub_assignment_id s) (db w) ->
  existsb (throws env)
          (Sql.select_questions submissionId (sub_assignment_id s) (db w))
    = false ->
  question_responses (db (snd (gradeSubmission env (Some submissionId) w)))
  = map (graded_in_run env submissionId (now w) (db w))
        (question_responses (db w)).
Proof.
  intros Hid Hw Hs Ha Hst Hschema Hthrow.
  rewrite (gradeSubmission_run env submissionId w s a Hid Hw Hs Ha Hst Hthrow).
  cbn [snd db].
  rewrite <- (responses_after_scoring env submissionId (sub_assignment_id s)
                (now w) (db w) Hschema).
  now destruct (existsb (flagged env) _).
Qed.

End StoredVerdictsOfRun.

Lemma select_assignments_none (studentId categoryId : Z) (d : database) :
  published_in categoryId d = [] ->
  Sql.select_assignments studentId categoryId d = [].
Proof.
  unfold published_in, Sql.select_assignments. now intros ->.
Qed.

Lemma categories_graded_nothing (studentId : Z) (d : database) :
  forall (categories : list assignment_category) (finalGrade : number)
         (categoryGrades : list category_grade),
    Forall (fun c => published_in (category_id c) d = []) categories ->
    categories_graded studentId d categories finalGrade categoryGrades
    = (finalGrade, (categoryGrades ++ map nothing_published categories)%list).
Proof.
  induction categories as [|c rest IH]; intros fg cgs Hall.
  - cbn. now rewrite app_nil_r.
  - inversion Hall as [|? ? Hc Hrest]; subst. cbn [categories_graded map].
    rewrite (select_assignments_none studentId (category_id c) d Hc).
    rewrite (IH _ _ Hrest). cbn [grade_category]. fold (nothing_published c).
    now rewrite <- app_assoc.
Qed.

(** X28.  When no category of the course has a published assignment,
    the final grade is 0: it is reported with an empty breakdown entry for
    each category, and 0 is stored as the final grade. *)
Theorem calculateFinalGrade_nothing_published
  (studentId courseId : Z) (w : world) :
  studentId <> 0 ->
  courseId <> 0 ->
  reliable w ->
  Sql.select_categories courseId (db w) <> [] ->
  Forall (fun c => published_in (category_id c) (db w) = [])
         (Sql.select_categories courseId (db w)) ->
  fst (calculateFinalGrade (Some studentId) (Some courseId) w)
  = {| statusCode := 200;
       body := FinalGradeReport studentId courseId zero
                 (find_letter zero (Sql.select_scale courseId (db w)))
                 (map nothing_published
                      (Sql.select_categories courseId (db w))) |}
  /\ db (snd (calculateFinalGrade (Some studentId) (Some courseId) w))
     = Sql.update_final_grade zero studentId courseId (db w).
Proof.
  intros Hs Hc Hw Hcats Hnone.
  rewrite (calculateFinalGrade_reliable studentId courseId w Hs Hc Hw Hcats).
  unfold final_grade_on.
  rewrite (categories_graded_nothing studentId (db w) _ zero [] Hnone).
  cbn [fst snd db app]. now split.
Qed.

Section StoredExamples.

Local Open Scope string_scope.

Lemma gradeSubmission_stores_each_verdict_witness :
  map (fun r => (r_response_id r, r_score r, r_feedback r))
      (question_responses
         (db (snd (gradeSubmission Sample.sample_host (Some 5)
                     Sample.sample_world))))
  = [ (21, None, None); (22, None, None);
      (23, Some zero, Some "Incorrect answer");
      (24, Some (of_Z 5), Some "Correct answer");
      (25, None, None) ].
Proof.
  rewrite (gradeSubmission_stores_each_verdict Sample.sample_host 5
             Sample.sample_world
             (Sample.mk_submission 5 4 8 "submitted" None)
             (Sample.mk_assignment 4 3 10 "Quiz")
             ltac:(discriminate) eq_refl eq_refl eq_refl ltac:(discriminate)
             (sample_consistent 5 (or_intror eq_refl)) eq_refl).
  reflexivity.
Defined.

Lemma calculateFinalGrade_nothing_published_witness :
  fst (calculateFinalGrade (Some 7) (Some 3) SampleCourse.new_course_world)
  = {| statusCode := 200;
       body := FinalGradeReport 7 3 zero None
                 [nothing_published SampleCourse.labs] |}
  /\ enrollments
       (db (snd (calculateFinalGrade (Some 7) (Some 3)
                   SampleCourse.new_course_world)))
     = [ {| enr_course_id := 3; enr_student_id := 7;
            final_grade := Some zero |} ].
Proof.
  destruct (calculateFinalGrade_nothing_published 7 3
              SampleCourse.new_course_world
              ltac:(discriminate) ltac:(discriminate) eq_refl
              ltac:(discriminate))
    as [Hreport Hdb].
  - repeat constructor.
  - split; [exact Hreport | now rewrite Hdb].
Defined.

End StoredExamples.
